(** * Agent-Pay: the payment orchestration state machine

    A shallow embedding of the two Flask services of the repository,
    [src/ai/agent.py] (v4.11, module [Ai]) and [src/ai-agent/agent.py]
    (the voice service, module [AiAgent]), and the properties of
    the invoice life cycle proved about them.

    The process-wide globals ([INVOICE_DB], [shipping_confirmation_registry],
    the JSON file behind [DB_FILE]) are the fields of an explicit [world];
    every handler is a function from the world to its HTTP answer, the new
    world and the list of outbound actions it performed, in order.  What the
    environment answers (the executor's HTTP replies, the clock, whether a
    file write goes through) is an argument of the handler. *)

From Stdlib Require Import Ascii String.
From stdpp Require Import gmap strings list fin_maps pretty.

Open Scope string_scope.
Open Scope list_scope.
Open Scope Z_scope.

(** ** Python values shared by both services *)

(** What a call into a library gives back: a value, or an exception whose
    [str(e)] is [msg]. *)
Inductive outcome (A : Type) : Type :=
  | Replied (a : A)
  | Raised (msg : string).
Arguments Replied {A} a.
Arguments Raised {A} msg.

(** The guard [if not x: return ..., 400] on a value read with
    [data.get('invoiceId')]: [not x] holds when the key is missing ([None])
    or the string is empty; otherwise the handler goes on with the id. *)
Definition truthy (x : option string) : option string :=
  match x with
  | None => None
  | Some s => if decide (s = "") then None else Some s
  end.

(** [needle in s] on Python strings. *)
Fixpoint contains (needle s : string) : bool :=
  String.prefix needle s
  || match s with
     | EmptyString => false
     | String _ s' => contains needle s'
     end.

(** Python floats are kept abstract: the handlers only convert, add the
    literal [0.1], compare and print them. *)
Class PyFloat : Type := {
  float : Type;
  float_of_str : string → option float;   (* float(x); None when it raises *)
  float_add : float → float → float;      (* x + y *)
  float_lt : float → float → bool;        (* x < y *)
  float_0_1 : float;                      (* the literal 0.1 *)
  float_str : float → string              (* str(x), as an f-string prints it *)
}.

(** A small decimal instance (amounts in tenths) on which the handlers can
    be run. *)
Definition digit_of (c : ascii) : option Z :=
  let n := Z.of_nat (nat_of_ascii c) in
  if (48 <=? n) && (n <=? 57) then Some (n - 48) else None.

Fixpoint parse_digits (acc : Z) (s : string) : option Z :=
  match s with
  | EmptyString => Some acc
  | String c s' =>
      match digit_of c with
      | Some d => parse_digits (10 * acc + d) s'
      | None => None
      end
  end.

Definition tenths_of_str (s : string) : option Z :=
  match s with
  | EmptyString => None
  | _ => (λ n, 10 * n) <$> parse_digits 0 s
  end.

Definition tenths_str (x : Z) : string :=
  pretty (x `div` 10) +:+ "." +:+ pretty (x `mod` 10).

Definition Tenths : PyFloat := {|
  float := Z;
  float_of_str := tenths_of_str;
  float_add := Z.add;
  float_lt := Z.ltb;
  float_0_1 := 1;
  float_str := tenths_str
|}.

(** Python's [str] is a sequence of code points; a [string] here holds its
    UTF-8 encoding.  [chars] gives back the characters, each as its code
    point and the bytes that encode it: the first byte of a character tells
    how many follow.  Bytes that do not make up a character, which the
    encoding of a [str] never holds, are left out. *)
Definition code2 (b0 b1 : N) : N :=
  N.lor (N.shiftl (N.land b0 31) 6) (N.land b1 63).

Definition code3 (b0 b1 b2 : N) : N :=
  N.lor (N.shiftl (N.land b0 15) 12)
    (N.lor (N.shiftl (N.land b1 63) 6) (N.land b2 63)).

Definition code4 (b0 b1 b2 b3 : N) : N :=
  N.lor (N.shiftl (N.land b0 7) 18)
    (N.lor (N.shiftl (N.land b1 63) 12)
       (N.lor (N.shiftl (N.land b2 63) 6) (N.land b3 63))).

Fixpoint chars (s : string) : list (N * string) :=
  match s with
  | EmptyString => []
  | String b0 s0 =>
      let n0 := N_of_ascii b0 in
      if (n0 <? 128)%N then (n0, String b0 "") :: chars s0
      else if (n0 <? 192)%N then chars s0
      else if (n0 <? 224)%N then
        match s0 with
        | String b1 s1 =>
            (code2 n0 (N_of_ascii b1), String b0 (String b1 "")) :: chars s1
        | _ => []
        end
      else if (n0 <? 240)%N then
        match s0 with
        | String b1 (String b2 s2) =>
            (code3 n0 (N_of_ascii b1) (N_of_ascii b2),
             String b0 (String b1 (String b2 ""))) :: chars s2
        | _ => []
        end
      else
        match s0 with
        | String b1 (String b2 (String b3 s3)) =>
            (code4 n0 (N_of_ascii b1) (N_of_ascii b2) (N_of_ascii b3),
             String b0 (String b1 (String b2 (String b3 "")))) :: chars s3
        | _ => []
        end
  end.

(** In a [str] pattern [\d] matches the characters of category Nd (decimal
    digit), and [\D] all the others.  In ASCII these are [0] to [9];
    beyond ASCII the category is a table of the Unicode version of the
    interpreter, which is kept abstract. *)
Class PyUnicode : Type := {
  Nd_beyond_ascii : N → bool
}.

Definition decimal `{PyUnicode} (c : N) : bool :=
  if (c <? 128)%N then (48 <=? c)%N && (c <=? 57)%N else Nd_beyond_ascii c.

(** The table of Unicode 14.0, on which the handlers can be run: the first
    code point of each run of decimal digits beyond ASCII, and its
    length. *)
Definition Nd_14 : list (N * N) :=
  [(1632, 10); (1776, 10); (1984, 10); (2406, 10); (2534, 10); (2662, 10);
   (2790, 10); (2918, 10); (3046, 10); (3174, 10); (3302, 10); (3430, 10);
   (3558, 10); (3664, 10); (3792, 10); (3872, 10); (4160, 10); (4240, 10);
   (6112, 10); (6160, 10); (6470, 10); (6608, 10); (6784, 10); (6800, 10);
   (6992, 10); (7088, 10); (7232, 10); (7248, 10); (42528, 10);
   (43216, 10); (43264, 10); (43472, 10); (43504, 10); (43600, 10);
   (44016, 10); (65296, 10); (66720, 10); (68912, 10); (69734, 10);
   (69872, 10); (69942, 10); (70096, 10); (70384, 10); (70736, 10);
   (70864, 10); (71248, 10); (71360, 10); (71472, 10); (71904, 10);
   (72016, 10); (72784, 10); (73040, 10); (73120, 10); (92768, 10);
   (92864, 10); (93008, 10); (120782, 50); (123200, 10); (123632, 10);
   (125264, 10); (130032, 10)]%N.

Definition Unicode_14 : PyUnicode := {|
  Nd_beyond_ascii c :=
    existsb (λ run, (run.1 <=? c)%N && (c <? run.1 + run.2)%N) Nd_14
|}.

(** ** [src/ai/agent.py] *)

Module Ai.
Section WithFloat.
Context {F : PyFloat}.

(** The strings written under ["status"]: ["Pending"] at creation, then
    ["MONITORING"], ["EXECUTING"], ["PAID"]. *)
Inductive status : Type := Pending | MONITORING | EXECUTING | PAID.

#[global] Instance status_eq_dec : EqDecision status.
Proof. solve_decision. Defined.

(** [payment_details], the value stored under an invoice id. *)
Record invoice : Type := {
  amount : string;
  recipientAddress : option string;
  condition : string;
  status_of : status;
  transactionHash : option string;
  paidAt : option string;
  createdAt : string;
  (* the key "invoiceId", which only the voice endpoint adds (line 143) *)
  invoiceId : option string
}.

Definition set_status (st : status) (i : invoice) : invoice :=
  {| amount := amount i; recipientAddress := recipientAddress i;
     condition := condition i; status_of := st;
     transactionHash := transactionHash i; paidAt := paidAt i;
     createdAt := createdAt i; invoiceId := invoiceId i |}.

Definition set_paidAt (v : option string) (i : invoice) : invoice :=
  {| amount := amount i; recipientAddress := recipientAddress i;
     condition := condition i; status_of := status_of i;
     transactionHash := transactionHash i; paidAt := v;
     createdAt := createdAt i; invoiceId := invoiceId i |}.

Definition set_transactionHash (v : option string) (i : invoice) : invoice :=
  {| amount := amount i; recipientAddress := recipientAddress i;
     condition := condition i; status_of := status_of i;
     transactionHash := v; paidAt := paidAt i;
     createdAt := createdAt i; invoiceId := invoiceId i |}.

Definition set_invoiceId (v : option string) (i : invoice) : invoice :=
  {| amount := amount i; recipientAddress := recipientAddress i;
     condition := condition i; status_of := status_of i;
     transactionHash := transactionHash i; paidAt := paidAt i;
     createdAt := createdAt i; invoiceId := v |}.

(** The JSON body of a request; a field is [None] when its key is absent. *)
Record payload : Type := {
  p_invoiceId : option string;
  p_amount : option string;
  p_recipientAddress : option string;
  p_condition : option string
}.

(** The globals of the process and the file behind [DB_FILE] ([None]: the
    file is missing or does not parse). *)
Record world : Type := {
  INVOICE_DB : gmap string invoice;
  shipping_confirmation_registry : gset string;
  DB_FILE : option (gmap string invoice)
}.

(** What one [save_database()] does to the file: the dump is written; or
    [open] fails and the file stays as it was; or the write breaks off and
    leaves a file that no longer parses.  The handler goes on in all three
    cases. *)
Inductive save_outcome : Type := Written | Untouched | Truncated.

(** What a handler does, in the order it does it: its outbound calls, its
    saves, and its assignments to a key of a stored record, each with the
    store it leaves in memory. *)
Inductive event : Type :=
  | GetBalance                                   (* requests.get(BACKEND_BALANCE_CHECK_URL) *)
  | CreateOnChain (p : payload)                  (* requests.post(BACKEND_CREATE_URL, json=payload) *)
  | TriggerPayment (invoice_id : string)         (* requests.post(BACKEND_TRIGGER_URL, ...) *)
  | SaveDatabase (snapshot : gmap string invoice) (o : save_outcome)
  | Assign (store : gmap string invoice).        (* db[invoice_id][key] = value *)

(** Replies of the executor. *)
Record balance_reply : Type := {
  balance_status_code : Z;
  (* float(response.json().get('balance', 0)), None when it raises *)
  balance_value : option float
}.

Record create_reply : Type := {
  create_status_code : Z;
  (* response.json().get('error', response.text), or what it raises *)
  create_error : outcome string
}.

Record trigger_reply : Type := {
  trigger_status_code : Z;
  (* response.json() read at "paidAt" and "transactionHash", or what it raises *)
  trigger_json : outcome (option string * option string)
}.

(** JSON bodies the handlers answer with. *)
Inductive body : Type :=
  | ErrorBody (error : string)
  | ErrorStatusBody (error : string) (st : status)
  | StatusBody (st : string)
  | StatusIdBody (st : string) (invoiceId : string)
  | MessageBody (message : string) (details : invoice)
  | ListBody (items : list (string * invoice)).

(** A handler returns a body and a status code, or lets an exception
    escape, or has not returned: the id loop of the voice endpoint goes on
    for as long as the ids it draws are taken. *)
Inductive result : Type :=
  | Return (b : body) (code : Z)
  | Unhandled
  | Running.

(** ** The state-and-trace monad of the handlers *)

Definition M (A : Type) : Type := world → A * world * list event.

Definition ret {A} (a : A) : M A := λ w, (a, w, []).

Definition bind {A B} (m : M A) (k : A → M B) : M B :=
  λ w, let '(a, w1, t1) := m w in
       let '(b, w2, t2) := k a w1 in
       (b, w2, t1 ++ t2).

Definition get_db : M (gmap string invoice) := λ w, (INVOICE_DB w, w, []).

Definition set_db (db : gmap string invoice) : M unit :=
  λ w, (tt, {| INVOICE_DB := db;
               shipping_confirmation_registry := shipping_confirmation_registry w;
               DB_FILE := DB_FILE w |}, []).

Definition get_registry : M (gset string) :=
  λ w, (shipping_confirmation_registry w, w, []).

Definition registry_add (invoice_id : string) : M unit :=
  λ w, (tt, {| INVOICE_DB := INVOICE_DB w;
               shipping_confirmation_registry :=
                 {[invoice_id]} ∪ shipping_confirmation_registry w;
               DB_FILE := DB_FILE w |}, []).

Definition emit (e : event) : M unit := λ w, (tt, w, [e]).

#[global] Instance M_ret : MRet M := @ret.
#[global] Instance M_bind : MBind M := λ A B k m, bind m k.

(** The file after an attempt to dump [db] over it. *)
Definition written (o : save_outcome) (db : gmap string invoice)
    (file : option (gmap string invoice)) : option (gmap string invoice) :=
  match o with
  | Written => Some db
  | Untouched => file
  | Truncated => None
  end.

(** [save_database()]: dump [INVOICE_DB] to the file; a failure is printed
    and swallowed. *)
Definition save_database (o : save_outcome) : M unit :=
  λ w, (tt,
        {| INVOICE_DB := INVOICE_DB w;
           shipping_confirmation_registry := shipping_confirmation_registry w;
           DB_FILE := written o (INVOICE_DB w) (DB_FILE w) |},
        [SaveDatabase (INVOICE_DB w) o]).

(** [load_database()]: a missing or unreadable file starts an empty map. *)
Definition load_database : M unit :=
  λ w, (tt,
        {| INVOICE_DB := default ∅ (DB_FILE w);
           shipping_confirmation_registry := shipping_confirmation_registry w;
           DB_FILE := DB_FILE w |},
        []).

(** ** The solvency pre-check *)

(** The second component of what [check_backend_balance] returns: the
    float read from the executor, or the integer literal [0]. *)
Inductive balance : Type :=
  | IntZero
  | FloatBalance (b : float).

Definition balance_str (b : balance) : string :=
  match b with
  | IntZero => "0"
  | FloatBalance x => float_str x
  end.

(** The decision of [check_backend_balance] on the executor's answer. *)
Definition balance_verdict (amount_needed : string)
    (response : outcome balance_reply) : bool * balance :=
  match response with
  | Replied r =>
      if decide (balance_status_code r = 200) then
        match balance_value r with
        | Some current_balance =>
            match float_of_str amount_needed with
            | Some a =>
                let total_needed := float_add a float_0_1 in
                if float_lt current_balance total_needed
                then (false, FloatBalance current_balance)
                else (true, FloatBalance current_balance)
            | None => (false, IntZero)
            end
        | None => (false, IntZero)
        end
      else (false, IntZero)
  | Raised _ => (false, IntZero)
  end.

Definition check_backend_balance (amount_needed : string)
    (response : outcome balance_reply) : M (bool * balance) :=
  emit GetBalance ;;
  mret (balance_verdict amount_needed response).

(** The balance the executor reports: the float of a 200 answer that
    parses; [None] when the query fails. *)
Definition balance_query (response : outcome balance_reply) : option float :=
  match response with
  | Replied r =>
      if decide (balance_status_code r = 200) then balance_value r else None
  | Raised _ => None
  end.

(** ** [create_payment_logic] *)

(** What the environment supplies to one call, in the order it is asked. *)
Record create_env : Type := {
  ce_balance : outcome balance_reply;
  ce_now : string;                       (* datetime.now().isoformat() *)
  ce_save_insert : save_outcome;
  ce_create : outcome create_reply;
  ce_save_rollback : save_outcome
}.

Definition payment_details (p : payload) (amount : string) (now : string)
    : invoice :=
  {| amount := amount;
     recipientAddress := p_recipientAddress p;
     condition := default "goods_shipped" (p_condition p);
     status_of := Pending;
     transactionHash := None;
     paidAt := None;
     createdAt := now;
     invoiceId := None |}.

(** The two [del db[invoice_id]; save_database()] rollbacks. *)
Definition rollback (invoice_id : string) (o : save_outcome) : M unit :=
  db ← get_db;
  set_db (delete invoice_id db) ;;
  save_database o.

Definition create_payment_logic (p : payload) (e : create_env) : M result :=
  db ← get_db;
  let amount := default "1" (p_amount p) in
  match truthy (p_invoiceId p) with
  | None => mret (Return (ErrorBody "invoiceId is required") 400)
  | Some invoice_id =>
    match db !! invoice_id with
    | Some existing =>
        mret (Return (ErrorStatusBody "Invoice ID already exists."
                       (status_of existing)) 409)
    | None =>
      chk ← check_backend_balance amount (ce_balance e);
      let is_solvent := chk.1 in
      let current_balance := chk.2 in
      if negb is_solvent then
        match float_of_str amount with
        | Some a =>
            mret (Return (ErrorBody
                   ("INSUFFICIENT_FUNDS. Wallet has only "
                    +:+ balance_str current_balance
                    +:+ " USDC. Requires "
                    +:+ float_str (float_add a float_0_1)
                    +:+ " USDC (for funding and gas).")) 402)
        | None => mret Unhandled
        end
      else
        let details := payment_details p amount (ce_now e) in
        set_db (<[invoice_id := details]> db) ;;
        save_database (ce_save_insert e) ;;
        emit (CreateOnChain p) ;;
        match ce_create e with
        | Replied response =>
            if decide (create_status_code response = 201) then
              mret (Return (MessageBody "Payment created and pending condition"
                             details) 201)
            else
              match create_error response with
              | Replied backend_error =>
                  let error_message :=
                    if contains "INSUFFICIENT_BALANCE" backend_error then
                      "INSUFFICIENT_FUNDS. Re-check: Wallet has only "
                      +:+ balance_str current_balance +:+ " USDC."
                    else "ON_CHAIN_FAILURE: " +:+ backend_error in
                  rollback invoice_id (ce_save_rollback e) ;;
                  mret (Return (ErrorBody error_message) 500)
              | Raised msg =>
                  rollback invoice_id (ce_save_rollback e) ;;
                  mret (Return (ErrorBody
                         ("Failed to connect to Backend Executor: " +:+ msg)) 500)
              end
        | Raised msg =>
            rollback invoice_id (ce_save_rollback e) ;;
            mret (Return (ErrorBody
                   ("Failed to connect to Backend Executor: " +:+ msg)) 500)
        end
    end
  end.

(** ** [trigger_payment] and the two endpoints that reach it *)

Record trigger_env : Type := {
  te_save_executing : save_outcome;
  te_trigger : outcome trigger_reply;
  te_save_final : save_outcome
}.

(** [db[invoice_id][...] = v]: the stored record is changed in place, and
    the store is from then on what any reader of [INVOICE_DB] finds, saved
    or not. *)
Definition update (invoice_id : string) (f : invoice → invoice) : M unit :=
  db ← get_db;
  let store := alter f invoice_id db in
  set_db store ;;
  emit (Assign store).

Definition trigger_payment (invoice_id : option string) (e : trigger_env)
    : M (body * Z) :=
  db ← get_db;
  match truthy invoice_id with
  | None => mret (ErrorBody "invoiceId is required", 400)
  | Some invoice_id =>
    registry_add invoice_id ;;
    let current_status := status_of <$> db !! invoice_id in
    match current_status with
    | Some MONITORING =>
        update invoice_id (set_status EXECUTING) ;;
        save_database (te_save_executing e) ;;
        emit (TriggerPayment invoice_id) ;;
        match te_trigger e with
        | Replied response =>
            if decide (trigger_status_code response = 200) then
              update invoice_id (set_status PAID) ;;
              match trigger_json response with
              | Replied json =>
                  update invoice_id (set_paidAt json.1) ;;
                  update invoice_id (set_transactionHash json.2) ;;
                  save_database (te_save_final e) ;;
                  mret (StatusBody "Condition met and payment triggered", 200)
              | Raised msg =>
                  update invoice_id (set_status MONITORING) ;;
                  save_database (te_save_final e) ;;
                  mret (ErrorBody ("An unexpected error occurred: " +:+ msg), 500)
              end
            else
              update invoice_id (set_status MONITORING) ;;
              save_database (te_save_final e) ;;
              mret (ErrorBody "Payment execution failed.", 500)
        | Raised msg =>
            update invoice_id (set_status MONITORING) ;;
            save_database (te_save_final e) ;;
            mret (ErrorBody ("An unexpected error occurred: " +:+ msg), 500)
        end
    | None =>
        mret (StatusBody
                "Shipping confirmation recorded. Waiting for invoice creation.",
              200)
    | Some PAID => mret (StatusBody "Invoice was already paid.", 200)
    | Some EXECUTING => mret (StatusBody "Payment is already in progress.", 202)
    | Some Pending =>
        mret (StatusBody
                "Shipping confirmation recorded. Waiting for monitoring to start.",
              200)
    end
  end.

(** The executor answers the trigger call with a 200 whose body parses:
    the ["paidAt"] and ["transactionHash"] it carries. *)
Definition payment_succeeds (e : trigger_env)
    : option (option string * option string) :=
  match te_trigger e with
  | Replied response =>
      if decide (trigger_status_code response = 200) then
        match trigger_json response with
        | Replied json => Some json
        | Raised _ => None
        end
      else None
  | Raised _ => None
  end.

(** The executor answers the trigger call with a 200 whose body cannot be
    read ([response.json()] raises, or what it returns has no [get]): the
    text of the exception. *)
Definition unreadable_200 (e : trigger_env) : option string :=
  match te_trigger e with
  | Replied response =>
      if decide (trigger_status_code response = 200) then
        match trigger_json response with
        | Replied _ => None
        | Raised msg => Some msg
        end
      else None
  | Raised _ => None
  end.

(** [POST /api/mock-shipping-confirmation]. *)
Definition mock_shipping_confirmation (invoice_id : option string)
    (e : trigger_env) : M (body * Z) :=
  trigger_payment invoice_id e.

Record monitor_env : Type := {
  me_save_monitoring : save_outcome;
  me_trigger : trigger_env
}.

(** The first step of [process_invoice] on a record it has found: a
    Pending record is moved to MONITORING and saved, any other is left. *)
Definition begin_monitoring (invoice_id : string) (inv : invoice)
    (o : save_outcome) : M unit :=
  if decide (status_of inv = Pending) then
    update invoice_id (set_status MONITORING) ;;
    save_database o
  else mret tt.

(** [POST /api/process-invoice]. *)
Definition process_invoice (invoice_id : option string) (e : monitor_env)
    : M (body * Z) :=
  db ← get_db;
  match truthy invoice_id with
  | None => mret (ErrorBody "invoiceId is required", 400)
  | Some invoice_id =>
    match db !! invoice_id with
    | None => mret (ErrorBody "Invoice not found. Run Step 1 first.", 404)
    | Some inv =>
        begin_monitoring invoice_id inv (me_save_monitoring e) ;;
        registry ← get_registry;
        if decide (invoice_id ∈ registry) then
          r ← trigger_payment (Some invoice_id) (me_trigger e);
          if decide (r.2 = 200) then
            mret (StatusIdBody
                    "Invoice was pre-confirmed and paid immediately." invoice_id,
                  200)
          else
            mret (ErrorBody
                    "Invoice was pre-confirmed, but payment execution failed.",
                  500)
        else mret (StatusBody "Invoice is now being monitored.", 200)
    end
  end.

(** [get_payment_status]: [list(db.items())].  A Python dict lists its
    items in the order they were inserted, which the map does not keep: the
    list here holds the same items, in the order of their keys. *)
Definition get_payment_status : M result :=
  db ← get_db;
  mret (Return (ListBody (map_to_list db)) 200).

(** ** The voice endpoint, [POST /api/transcribe]

    The endpoint draws [random.randint(500, 999)] until the id it builds is
    not in the store; [draws] are the numbers the generator gives, in order,
    and [None] stands for a loop that has used them all and is still
    running.  The id goes into the payload that the endpoint hands to
    [create_payment_logic]. *)
Definition voice_id (random_id : Z) : string :=
  "INV-VOICE-" +:+ pretty random_id.

Fixpoint voice_invoice_id (draws : list Z) (db : gmap string invoice)
    : option string :=
  match draws with
  | [] => None
  | random_id :: draws' =>
      let invoice_id := voice_id random_id in
      if decide (is_Some (db !! invoice_id)) then voice_invoice_id draws' db
      else Some invoice_id
  end.

Definition voice_payload (invoice_id : string) : payload :=
  {| p_invoiceId := Some invoice_id;
     p_amount := Some "1";
     p_recipientAddress := Some "0x57211cf52b7830f08588fea975ffccaed493eef3";
     p_condition := Some "goods_shipped" |}.

(** [response_dict['details']['invoiceId'] = invoice_id] on the answer of a
    creation: [response_dict['details']] is the dict that
    [create_payment_logic] stored under the id, so the assignment changes
    the stored record as well as the answer, after the only save.  A body
    without ["details"] raises [KeyError], which the endpoint answers as any
    other exception. *)
Definition with_invoiceId (invoice_id : string) (response_dict : body)
    : M result :=
  match response_dict with
  | MessageBody message details =>
      update invoice_id (set_invoiceId (Some invoice_id)) ;;
      mret (Return (MessageBody message
                      (set_invoiceId (Some invoice_id) details)) 201)
  | _ =>
      mret (Return (ErrorBody "An unexpected error occurred: 'details'") 500)
  end.

(** [transcribe_audio]: [audio] is the file name of [request.files['audio']],
    [None] when the request has no such file.  The only exception that
    [create_payment_logic] lets escape is the [ValueError] of
    [float(amount)] (line 176), here on the amount ["1"]; the endpoint
    catches it. *)
Definition transcribe_audio (audio : option string) (draws : list Z)
    (e : create_env) : M result :=
  match audio with
  | None => mret (Return (ErrorBody "No 'audio' file found in request") 400)
  | Some filename =>
    if decide (filename = "") then
      mret (Return (ErrorBody "No selected file") 400)
    else
      db ← get_db;
      match voice_invoice_id draws db with
      | None => mret Running
      | Some invoice_id =>
          r ← create_payment_logic (voice_payload invoice_id) e;
          match r with
          | Return response_dict status_code =>
              if decide (status_code = 201) then
                with_invoiceId invoice_id response_dict
              else mret (Return response_dict status_code)
          | Unhandled =>
              mret (Return (ErrorBody
                     ("An unexpected error occurred: "
                      +:+ "could not convert string to float: '1'")) 500)
          | Running => mret Running
          end
      end
  end.

(** ** Runs of the service *)

(** One HTTP request to one of the five endpoints that read or change the
    store, with what the environment answers while it is handled. *)
Inductive request : Type :=
  | CreatePayment (p : payload) (e : create_env)
  | ProcessInvoice (invoice_id : option string) (e : monitor_env)
  | ShippingConfirmation (invoice_id : option string) (e : trigger_env)
  | PaymentStatus
  | VoiceCreate (audio : option string) (draws : list Z) (e : create_env).

Definition returned (r : body * Z) : result := Return r.1 r.2.

Definition handle (r : request) : M result :=
  match r with
  | CreatePayment p e => create_payment_logic p e
  | ProcessInvoice invoice_id e =>
      r ← process_invoice invoice_id e; mret (returned r)
  | ShippingConfirmation invoice_id e =>
      r ← mock_shipping_confirmation invoice_id e; mret (returned r)
  | PaymentStatus => get_payment_status
  | VoiceCreate audio draws e => transcribe_audio audio draws e
  end.

(** Every 200 that the executor gives to a trigger call of the request has
    a body that can be read. *)
Definition readable (r : request) : bool :=
  match r with
  | ProcessInvoice _ e => bool_decide (unreadable_200 (me_trigger e) = None)
  | ShippingConfirmation _ e => bool_decide (unreadable_200 e = None)
  | _ => true
  end.

(** The request goes to the voice endpoint. *)
Definition by_voice (r : request) : bool :=
  match r with
  | VoiceCreate _ _ _ => true
  | _ => false
  end.

(** The requests are served one after the other. *)
Fixpoint serve (rs : list request) : M (list result) :=
  match rs with
  | [] => mret []
  | r :: rs' =>
      a ← handle r;
      as' ← serve rs';
      mret (a :: as')
  end.

(** The world after a run, and everything the run did. *)
Definition world_after {A} (m : M A) (w : world) : world := (m w).1.2.
Definition trace_of {A} (m : M A) (w : world) : list event := (m w).2.
Definition answer_of {A} (m : M A) (w : world) : A := (m w).1.1.

(** The status an observer finds under an id ([None]: no record). *)
Definition status_in (db : gmap string invoice) (invoice_id : string)
    : option status :=
  status_of <$> db !! invoice_id.

(** The stores a trace goes through, in order: the one each assignment to
    a record leaves, and the one each [save_database] dumps. *)
Fixpoint snapshots (t : list event) : list (gmap string invoice) :=
  match t with
  | [] => []
  | SaveDatabase db _ :: t' => db :: snapshots t'
  | Assign db :: t' => db :: snapshots t'
  | _ :: t' => snapshots t'
  end.

(** What a computation shows of the status of one id: before it starts,
    after every assignment, at every save, and when it ends. *)
Definition shown {A} (m : M A) (w : world) (X : string)
    : list (option status) :=
  status_in (INVOICE_DB w) X
    :: ((λ db, status_in db X) <$> snapshots (trace_of m w))
    ++ [status_in (INVOICE_DB (world_after m w)) X].

(** What can be seen of the store over a run: the map before the first
    request, then for every request the map after each of its assignments,
    the maps it saves and the map it leaves behind.  An insertion and a
    deletion are each followed at once by a save, so that every store the
    process goes through is among them. *)
Fixpoint observed (rs : list request) (w : world)
    : list (gmap string invoice) :=
  match rs with
  | [] => [INVOICE_DB w]
  | r :: rs' =>
      INVOICE_DB w :: snapshots (trace_of (handle r) w)
        ++ observed rs' (world_after (handle r) w)
  end.

(** The service as it starts: [load_database()] has read the file, the
    registry is the empty set. *)
Definition boot (file : option (gmap string invoice)) : world :=
  {| INVOICE_DB := default ∅ file;
     shipping_confirmation_registry := ∅;
     DB_FILE := file |}.

(** The call of [trigger_payment] a request makes with a non-empty id: the
    id, and the world the call starts in.  The signal endpoint calls it at
    once; [process_invoice] calls it for an id it finds in the registry,
    after [begin_monitoring]. *)
Definition trigger_call (r : request) (w : world) : option (string * world) :=
  match r with
  | ShippingConfirmation invoice_id _ =>
      invoice_id ← truthy invoice_id; Some (invoice_id, w)
  | ProcessInvoice invoice_id e =>
      invoice_id ← truthy invoice_id;
      inv ← INVOICE_DB w !! invoice_id;
      let w1 := world_after
                  (begin_monitoring invoice_id inv (me_save_monitoring e)) w in
      if decide (invoice_id ∈ shipping_confirmation_registry w1)
      then Some (invoice_id, w1) else None
  | _ => None
  end.

(** The world with one more confirmed id. *)
Definition confirmed (invoice_id : string) (w : world) : world :=
  {| INVOICE_DB := INVOICE_DB w;
     shipping_confirmation_registry :=
       {[invoice_id]} ∪ shipping_confirmation_registry w;
     DB_FILE := DB_FILE w |}.

(** The two orders in which the condition signal and the invoice can
    arrive. *)
Definition signal_first (invoice_id : string) (p : payload) (ce : create_env)
    (me : monitor_env) (te : trigger_env) : list request :=
  [ShippingConfirmation (Some invoice_id) te;
   CreatePayment p ce;
   ProcessInvoice (Some invoice_id) me].

Definition signal_last (invoice_id : string) (p : payload) (ce : create_env)
    (me : monitor_env) (te : trigger_env) : list request :=
  [CreatePayment p ce;
   ProcessInvoice (Some invoice_id) me;
   ShippingConfirmation (Some invoice_id) te].

(** The record of a paid invoice. *)
Definition paid (p : payload) (now : string) (json : option string * option string)
    : invoice :=
  set_transactionHash json.2
    (set_paidAt json.1
       (set_status PAID (payment_details p (default "1" (p_amount p)) now))).

(** The message of a create call that failed, as the executor or the
    connection gave it; [None] when the call answered 201. *)
Definition upstream_failure (c : outcome create_reply) : option string :=
  match c with
  | Raised msg => Some msg
  | Replied response =>
      if decide (create_status_code response = 201) then None
      else match create_error response with
           | Replied backend_error => Some backend_error
           | Raised msg => Some msg
           end
  end.

(** The failed create call answered with an error text that holds the
    insufficient-balance marker. *)
Definition marked_insufficient (c : outcome create_reply) : bool :=
  match c with
  | Raised _ => false
  | Replied response =>
      if decide (create_status_code response = 201) then false
      else match create_error response with
           | Replied backend_error => contains "INSUFFICIENT_BALANCE" backend_error
           | Raised _ => false
           end
  end.

(** The pre-check finds the wallet short for [amount]: the balance query
    fails, and zero is reported, or it returns a balance below the amount
    plus the buffer, and that balance is reported. *)
Definition short_of_funds (amount : string) (response : outcome balance_reply)
    (reported : balance) : Prop :=
  match balance_query response with
  | None => reported = IntZero
  | Some b =>
      reported = FloatBalance b
      ∧ ∃ a, float_of_str amount = Some a
             ∧ float_lt b (float_add a float_0_1) = true
  end.

(** The error text of a creation that was rolled back: the re-check text
    when the executor's error holds the marker, otherwise one of the two
    prefixes followed by the upstream message. *)
Definition rollback_text (c : outcome create_reply) (current_balance : balance)
    (upstream : string) (error : string) : Prop :=
  if marked_insufficient c then
    error = "INSUFFICIENT_FUNDS. Re-check: Wallet has only "
            +:+ balance_str current_balance +:+ " USDC."
  else
    error = "ON_CHAIN_FAILURE: " +:+ upstream
    ∨ error = "Failed to connect to Backend Executor: " +:+ upstream.

(** The allowed moves of the status of one id between two observations. *)
Definition edge (a b : status) : bool :=
  match a, b with
  | Pending, Pending | MONITORING, MONITORING
  | EXECUTING, EXECUTING | PAID, PAID => true
  | Pending, MONITORING => true
  | MONITORING, EXECUTING => true
  | EXECUTING, PAID => true
  | EXECUTING, MONITORING => true
  | _, _ => false
  end.

(** The same on what an observer finds under the id, a record or none: a
    record appears as Pending, and only a Pending record disappears (the
    rollback of a creation). *)
Definition oedge (a b : option status) : bool :=
  match a, b with
  | None, None => true
  | None, Some Pending => true
  | Some Pending, None => true
  | Some a, Some b => edge a b
  | _, _ => false
  end.

(** Every two neighbours of a list are related. *)
Fixpoint chain {A} (R : A → A → bool) (l : list A) : bool :=
  match l with
  | a :: (b :: _) as l' => R a b && chain R l'
  | _ => true
  end.

(** A list of statuses is empty or starts with Pending. *)
Definition starts_pending (l : list status) : bool :=
  match l with
  | [] => true
  | s :: _ => bool_decide (s = Pending)
  end.

(** Once [PAID] shows up, nothing else follows. *)
Fixpoint paid_is_final (l : list status) : bool :=
  match l with
  | [] => true
  | PAID :: l' => forallb (λ s, bool_decide (s = PAID)) l' && paid_is_final l'
  | _ :: l' => paid_is_final l'
  end.

(** ** Notions for the properties of whole runs *)

(** The terms of an invoice, which are set when it is created. *)
Definition same_terms (a b : invoice) : Prop :=
  amount a = amount b
  ∧ recipientAddress a = recipientAddress b
  ∧ condition a = condition b
  ∧ createdAt a = createdAt b.

(** How one request can change what is stored under an id: not at all; a
    new Pending record with no payment fields; another status than PAID for
    a record that is not PAID; or PAID, with the payment fields of the
    executor's reply, for a record that is not PAID. *)
Inductive moves : option invoice → option invoice → Prop :=
  | moves_not (o : option invoice) : moves o o
  | moves_created (inv : invoice) :
      status_of inv = Pending → transactionHash inv = None →
      paidAt inv = None → moves None (Some inv)
  | moves_status (inv : invoice) (st : status) :
      status_of inv ≠ PAID → st ≠ PAID →
      moves (Some inv) (Some (set_status st inv))
  | moves_paid (inv : invoice) (json : option string * option string) :
      status_of inv ≠ PAID →
      moves (Some inv)
        (Some (set_transactionHash json.2
                 (set_paidAt json.1 (set_status PAID inv)))).

(** No record carries payment fields before it is PAID. *)
Definition blank_until_paid (db : gmap string invoice) : Prop :=
  ∀ id inv, db !! id = Some inv → status_of inv ≠ PAID →
            transactionHash inv = None ∧ paidAt inv = None.

(** The file holds the store of the process. *)
Definition mirrored (w : world) : Prop := DB_FILE w = Some (INVOICE_DB w).

(** Every [save_database()] of a trace went through. *)
Fixpoint all_written (t : list event) : bool :=
  match t with
  | [] => true
  | SaveDatabase _ o :: t' =>
      match o with Written => all_written t' | _ => false end
  | _ :: t' => all_written t'
  end.

End WithFloat.
End Ai.

(** ** [src/ai-agent/agent.py] *)

Module AiAgent.

(** The strings kept in [invoice_registry]. *)
Inductive state : Type := PROCESSING | MONITORING | EXECUTING | PAID.

#[global] Instance state_eq_dec : EqDecision state.
Proof. solve_decision. Defined.

Definition state_str (s : state) : string :=
  match s with
  | PROCESSING => "PROCESSING"
  | MONITORING => "MONITORING"
  | EXECUTING => "EXECUTING"
  | PAID => "PAID"
  end.

Record world : Type := {
  invoice_registry : gmap string state;
  shipping_confirmation_registry : gset string
}.

Inductive event : Type :=
  | SpeechToText                            (* audio_file.read(); eleven_client.speech_to_text.convert(...) *)
  | GenerateContent (text : string)         (* gemini_model.generate_content(prompt) *)
  | TriggerPayment (invoice_id : string).   (* requests.post(BACKEND_API_URL, ...) *)

(** A JSON object whose values are strings, and the answer of a handler. *)
Definition body : Type := list (string * string).
Definition response : Type := (body * Z)%type.

Definition M (A : Type) : Type := world → A * world * list event.

Definition ret {A} (a : A) : M A := λ w, (a, w, []).

Definition bind {A B} (m : M A) (k : A → M B) : M B :=
  λ w, let '(a, w1, t1) := m w in
       let '(b, w2, t2) := k a w1 in
       (b, w2, t1 ++ t2).

#[global] Instance M_ret : MRet M := @ret.
#[global] Instance M_bind : MBind M := λ A B k m, bind m k.

Definition get_registry : M (gmap string state) :=
  λ w, (invoice_registry w, w, []).

Definition set_registry (reg : gmap string state) : M unit :=
  λ w, (tt, {| invoice_registry := reg;
               shipping_confirmation_registry :=
                 shipping_confirmation_registry w |}, []).

Definition get_shipping : M (gset string) :=
  λ w, (shipping_confirmation_registry w, w, []).

Definition shipping_add (invoice_id : string) : M unit :=
  λ w, (tt, {| invoice_registry := invoice_registry w;
               shipping_confirmation_registry :=
                 {[invoice_id]} ∪ shipping_confirmation_registry w |}, []).

Definition emit (e : event) : M unit := λ w, (tt, w, [e]).

(** [invoice_registry[k] = s] and [del invoice_registry[k]]. *)
Definition set_state (k : string) (s : state) : M unit :=
  reg ← get_registry;
  set_registry (<[k := s]> reg).

Definition del_state (k : string) : M unit :=
  reg ← get_registry;
  set_registry (delete k reg).

Section WithUnicode.
Context {U : PyUnicode}.

(** [re.sub(r'\D', '', text)]: the characters of [text] that are decimal
    digits, in their order. *)
Definition digits_only (s : string) : string :=
  foldr (λ c rest, if decimal c.1 then c.2 +:+ rest else rest) "" (chars s).

Definition extract_invoice_id_from_text (text : string)
    (gemini : outcome string) : M (option string) :=
  emit (GenerateContent text) ;;
  mret match gemini with
       | Replied response_text =>
           let invoice_id := digits_only response_text in
           if decide (invoice_id = "") then None else Some invoice_id
       | Raised _ => None
       end.

(** [execute_payment]; [backend] is the status code of the executor's
    reply, or the exception of [requests.post]. *)
Definition execute_payment (invoice_id : string) (backend : outcome Z)
    : M bool :=
  reg ← get_registry;
  if decide (reg !! invoice_id = Some PAID) then mret true
  else
    set_state invoice_id EXECUTING ;;
    emit (TriggerPayment invoice_id) ;;
    match backend with
    | Replied status_code =>
        if decide (status_code = 200) then
          set_state invoice_id PAID ;; mret true
        else
          set_state invoice_id MONITORING ;; mret false
    | Raised _ =>
        set_state invoice_id MONITORING ;; mret false
    end.

(** What the speech service does with the audio: a stripped transcription,
    an [UnprocessableEntityError], or another exception. *)
Inductive speech : Type :=
  | Transcribed (transcribed_text : string)
  | Unprocessable (msg : string)
  | SpeechRaised (msg : string).

Record transcribe_env : Type := {
  tr_audio : option string;   (* filename of request.files['audio']; None: no such part *)
  tr_speech : speech;
  tr_gemini : outcome string;
  tr_backend : outcome Z
}.

(** The clean-up of the two [except] branches. *)
Definition drop_temp (temp_id : string) : M unit :=
  reg ← get_registry;
  if decide (is_Some (reg !! temp_id)) then del_state temp_id else mret tt.

(** [POST /api/transcribe]. *)
Definition transcribe_audio (e : transcribe_env) : M response :=
  match tr_audio e with
  | None => mret ([("error", "No 'audio' file found in request")], 400)
  | Some filename =>
    if decide (filename = "") then mret ([("error", "No selected file")], 400)
    else
      reg ← get_registry;
      let temp_id := "temp_" +:+ pretty (size reg) in
      set_state temp_id PROCESSING ;;
      emit SpeechToText ;;
      match tr_speech e with
      | Transcribed transcribed_text =>
          if decide (transcribed_text = "") then
            del_state temp_id ;;
            mret ([("error", "Audio was unclear or silent.")], 400)
          else
            invoice_id ← extract_invoice_id_from_text transcribed_text
                           (tr_gemini e);
            del_state temp_id ;;
            match invoice_id with
            | None =>
                mret ([("error", "Could not extract an invoice ID from the audio.");
                       ("text", transcribed_text)], 400)
            | Some invoice_id =>
                reg ← get_registry;
                if decide (reg !! invoice_id = Some PAID) then
                  mret ([("status", "Invoice was already paid.");
                         ("invoiceId", invoice_id);
                         ("invoiceState", "PAID")], 200)
                else
                  shipping ← get_shipping;
                  if decide (invoice_id ∈ shipping) then
                    payment_success ← execute_payment invoice_id (tr_backend e);
                    if (payment_success : bool) then
                      mret ([("status",
                              "Invoice was pre-confirmed and paid immediately.");
                             ("invoiceId", invoice_id);
                             ("transcribedText", transcribed_text);
                             ("invoiceState", "PAID")], 200)
                    else
                      mret ([("error",
                              "Invoice was pre-confirmed, but payment execution failed.");
                             ("invoiceId", invoice_id);
                             ("invoiceState", "MONITORING")], 500)
                  else
                    set_state invoice_id MONITORING ;;
                    mret ([("status",
                            "Invoice created and is now being monitored.");
                           ("invoiceId", invoice_id);
                           ("transcribedText", transcribed_text);
                           ("invoiceState", "MONITORING")], 201)
            end
      | Unprocessable msg =>
          drop_temp temp_id ;;
          mret ([("error", "Invalid audio format or file: " +:+ msg)], 422)
      | SpeechRaised msg =>
          drop_temp temp_id ;;
          mret ([("error", "An unexpected error occurred: " +:+ msg)], 500)
      end
  end.

(** [POST /api/mock-shipping-confirmation]. *)
Definition mock_shipping_confirmation (invoice_id : option string)
    (backend : outcome Z) : M response :=
  match truthy invoice_id with
  | None => mret ([("error", "invoiceId is required")], 400)
  | Some invoice_id =>
    shipping_add invoice_id ;;
    reg ← get_registry;
    let current_state := reg !! invoice_id in
    match current_state with
    | Some MONITORING =>
        payment_success ← execute_payment invoice_id backend;
        if (payment_success : bool) then
          mret ([("status", "Condition met and payment triggered");
                 ("invoiceId", invoice_id);
                 ("invoiceState", "PAID")], 200)
        else
          mret ([("error", "Payment execution failed.");
                 ("invoiceId", invoice_id);
                 ("invoiceState", "MONITORING")], 500)
    | None =>
        mret ([("status",
                "Shipping confirmation recorded. Waiting for invoice creation.");
               ("invoiceId", invoice_id)], 200)
    | Some PAID => mret ([("status", "Invoice was already paid.")], 200)
    | Some EXECUTING =>
        mret ([("status", "Payment is already in progress.")], 202)
    | Some other =>
        mret ([("error", "Invoice is in a non-standard state.");
               ("currentState", state_str other)], 409)
    end
  end.

(** One HTTP request of a run. *)
Inductive request : Type :=
  | Transcribe (e : transcribe_env)
  | ShippingConfirmation (invoice_id : option string) (backend : outcome Z).

Definition handle (r : request) : M response :=
  match r with
  | Transcribe e => transcribe_audio e
  | ShippingConfirmation invoice_id backend =>
      mock_shipping_confirmation invoice_id backend
  end.

Fixpoint serve (rs : list request) : M (list response) :=
  match rs with
  | [] => mret []
  | r :: rs' =>
      a ← handle r;
      as' ← serve rs';
      mret (a :: as')
  end.

Definition world_after {A} (m : M A) (w : world) : world := (m w).1.2.
Definition trace_of {A} (m : M A) (w : world) : list event := (m w).2.
Definition answer_of {A} (m : M A) (w : world) : A := (m w).1.1.

(** The service as it starts: both registries empty. *)
Definition start : world :=
  {| invoice_registry := ∅; shipping_confirmation_registry := ∅ |}.

(** The world with one more confirmed id. *)
Definition confirmed (invoice_id : string) (w : world) : world :=
  {| invoice_registry := invoice_registry w;
     shipping_confirmation_registry :=
       {[invoice_id]} ∪ shipping_confirmation_registry w |}.

(** The voice command is heard and an invoice id is read out of it. *)
Definition hears (e : transcribe_env) (invoice_id : string) : Prop :=
  (∃ filename, tr_audio e = Some filename ∧ filename ≠ "")
  ∧ (∃ text, tr_speech e = Transcribed text ∧ text ≠ "")
  ∧ ∃ response_text, tr_gemini e = Replied response_text
                     ∧ digits_only response_text = invoice_id
                     ∧ invoice_id ≠ "".

(** ** Notions for the properties of whole runs *)

(** Every character is a decimal digit. *)
Definition all_digits (s : string) : bool :=
  forallb (λ c, decimal c.1) (chars s).

(** The invoice registry between two requests: every key is a non-empty
    string of digits and every state is MONITORING or PAID. *)
Definition settled (w : world) : Prop :=
  ∀ k st, invoice_registry w !! k = Some st →
          (st = MONITORING ∨ st = PAID) ∧ k ≠ "" ∧ all_digits k = true.

(** The executor takes the payment: its reply has status 200. *)
Definition accepted (backend : outcome Z) : bool :=
  match backend with
  | Replied status_code => bool_decide (status_code = 200)
  | Raised _ => false
  end.

(** The two orders in which the signal and the voice command can arrive. *)
Definition signal_then_voice (invoice_id : string) (e : transcribe_env)
    (backend : outcome Z) : list request :=
  [ShippingConfirmation (Some invoice_id) backend; Transcribe e].

Definition voice_then_signal (invoice_id : string) (e : transcribe_env)
    (backend : outcome Z) : list request :=
  [Transcribe e; ShippingConfirmation (Some invoice_id) backend].

End WithUnicode.
End AiAgent.

(** ** Concrete requests, on which the handlers are run *)

Module Demo.
Import Ai.
#[local] Existing Instance Tenths.
#[local] Existing Instance Unicode_14.

Definition payload_INV_1 : payload :=
  {| p_invoiceId := Some "INV-1"; p_amount := Some "1";
     p_recipientAddress := Some "0x57211cf52b7830f08588fea975ffccaed493eef3";
     p_condition := Some "goods_shipped" |}.

(** A wallet of 50.0 USDC, and one of 0.5 USDC. *)
Definition wallet_50 : outcome (@balance_reply Tenths) :=
  Replied {| balance_status_code := 200; balance_value := Some (500 : Z) |}.

Definition wallet_0_5 : outcome (@balance_reply Tenths) :=
  Replied {| balance_status_code := 200; balance_value := Some (5 : Z) |}.

Definition created : outcome create_reply :=
  Replied {| create_status_code := 201; create_error := Raised "" |}.

Definition refused_for_balance : outcome create_reply :=
  Replied {| create_status_code := 400;
             create_error := Replied "INSUFFICIENT_BALANCE: wallet is empty" |}.


Definition create_with (balance : outcome (@balance_reply Tenths))
    (reply : outcome create_reply) (o_insert o_rollback : save_outcome)
    : @create_env Tenths :=
  {| ce_balance := balance; ce_now := "2025-01-01T00:00:00";
     ce_save_insert := o_insert; ce_create := reply;
     ce_save_rollback := o_rollback |}.

Definition pays : trigger_env :=
  {| te_save_executing := Written;
     te_trigger :=
       Replied {| trigger_status_code := 200;
                  trigger_json := Replied (Some "2025-01-02T00:00:00",
                                           Some "0xabc") |};
     te_save_final := Written |}.

Definition monitors : monitor_env :=
  {| me_save_monitoring := Written; me_trigger := pays |}.

Definition invoice_INV_1 (st : status) : invoice :=
  {| amount := "1";
     recipientAddress := Some "0x57211cf52b7830f08588fea975ffccaed493eef3";
     condition := "goods_shipped"; status_of := st;
     transactionHash := None; paidAt := None;
     createdAt := "2025-01-01T00:00:00"; invoiceId := None |}.

(** A store that holds INV-1 in a given status, as read back from the
    file. *)
Definition holding (st : status) : world :=
  boot (Some {[ "INV-1" := invoice_INV_1 st ]}).

(** The voice service: a signal for 991, then the voice command. *)
Definition voice_991 : AiAgent.transcribe_env :=
  {| AiAgent.tr_audio := Some "command.wav";
     AiAgent.tr_speech := AiAgent.Transcribed "pay invoice nine nine one";
     AiAgent.tr_gemini := Replied "991";
     AiAgent.tr_backend := Replied 200 |}.

Definition signalled_991 : AiAgent.world :=
  AiAgent.world_after
    (AiAgent.handle (AiAgent.ShippingConfirmation (Some "991") (Replied 200)))
    AiAgent.start.

Definition voice_holding (st : AiAgent.state) : AiAgent.world :=
  {| AiAgent.invoice_registry := {[ "991" := st ]};
     AiAgent.shipping_confirmation_registry := ∅ |}.

(** An executor that refuses the payment, and one that cannot be reached. *)
Definition refuses : trigger_env :=
  {| te_save_executing := Written;
     te_trigger :=
       Replied {| trigger_status_code := 500;
                  trigger_json := Raised "Expecting value" |};
     te_save_final := Written |}.

Definition unreachable : outcome create_reply := Raised "Connection refused".

(** An executor that takes the payment and answers 200 with a body that
    is not JSON. *)
Definition pays_unreadably : trigger_env :=
  {| te_save_executing := Written;
     te_trigger :=
       Replied {| trigger_status_code := 200;
                  trigger_json := Raised "Expecting value" |};
     te_save_final := Written |}.

(** A voice request whose first draw, 500, gives the id INV-VOICE-500. *)
Definition voice_500 : request :=
  VoiceCreate (Some "command.wav") [500]
    (create_with wallet_50 created Written Written).

(** The rest of the flow for INV-1 once its record is in the store. *)
Definition monitor_then_signal : list request :=
  [ProcessInvoice (Some "INV-1") monitors;
   ShippingConfirmation (Some "INV-1") pays].

(** The same when the executor refuses the payment. *)
Definition monitor_then_refused : list request :=
  [ProcessInvoice (Some "INV-1") monitors;
   ShippingConfirmation (Some "INV-1") refuses].

Definition payload_without_id : payload :=
  {| p_invoiceId := None; p_amount := Some "1";
     p_recipientAddress := None; p_condition := None |}.

(** A store in which INV-VOICE-500 is taken. *)
Definition voice_500_taken : world :=
  boot (Some {[ voice_id 500 := invoice_INV_1 Pending ]}).

(** A voice request that carries no audio. *)
Definition voice_without_audio : AiAgent.transcribe_env :=
  {| AiAgent.tr_audio := None;
     AiAgent.tr_speech := AiAgent.Transcribed "";
     AiAgent.tr_gemini := Replied "";
     AiAgent.tr_backend := Replied 200 |}.

(** A store in which all the 500 voice ids are taken. *)
Definition voice_ids_taken : gmap string invoice :=
  list_to_map ((λ n, (voice_id n, invoice_INV_1 Pending)) <$> seqZ 500 500).

End Demo.

(** * Sets of confirmed ids *)

Lemma confirmed_twice (x : string) (s : gset string) :
  {[x]} ∪ ({[x]} ∪ s) = {[x]} ∪ s.
Proof. by rewrite (assoc_L (∪)), (idemp_L (∪)). Qed.

Lemma confirmed_elem (x : string) (s : gset string) : x ∈ {[x]} ∪ s.
Proof. apply elem_of_union_l. by apply elem_of_singleton. Qed.

(** * Properties of [src/ai/agent.py] *)

Section AiFacts.
Context {F : PyFloat}.
Import Ai.

Ltac run :=
  unfold mock_shipping_confirmation, trigger_payment, process_invoice,
    create_payment_logic, begin_monitoring, check_backend_balance, rollback,
    returned,
    update, save_database, get_payment_status, registry_add, get_registry,
    get_db, set_db, emit, world_after, trace_of, answer_of;
  unfold mbind, M_bind, bind, mret, M_ret, ret;
  cbn [fst snd app fmap option_fmap option_map INVOICE_DB
       shipping_confirmation_registry DB_FILE].

Lemma truthy_Some id : id ≠ "" → truthy (Some id) = Some id.
Proof. intros H. unfold truthy. by rewrite decide_False. Qed.

Lemma truthy_inv x id : truthy x = Some id → x = Some id ∧ id ≠ "".
Proof.
  destruct x as [s|]; simpl; [|done].
  case_decide; [done|]. intros [= ->]. done.
Qed.

Lemma truthy_None x : truthy x = None ↔ x = None ∨ x = Some "".
Proof.
  destruct x as [s|]; simpl.
  - case_decide as Hs; split.
    + intros _. right. by rewrite Hs.
    + done.
    + done.
    + intros [|[=]]; done.
  - split; [by left|done].
Qed.

(** *** What [trigger_payment] does, status by status *)

Lemma trigger_payment_no_id x e w :
  truthy x = None →
  trigger_payment x e w = ((ErrorBody "invoiceId is required", 400), w, []).
Proof. intros H. run. by rewrite H. Qed.

Lemma trigger_payment_absent id e w :
  id ≠ "" → INVOICE_DB w !! id = None →
  trigger_payment (Some id) e w
  = ((StatusBody "Shipping confirmation recorded. Waiting for invoice creation.",
      200), confirmed id w, []).
Proof. intros Hid Hdb. run. rewrite truthy_Some by done. run. by rewrite Hdb. Qed.

Lemma trigger_payment_pending id inv e w :
  id ≠ "" → INVOICE_DB w !! id = Some inv → status_of inv = Pending →
  trigger_payment (Some id) e w
  = ((StatusBody "Shipping confirmation recorded. Waiting for monitoring to start.",
      200), confirmed id w, []).
Proof.
  intros Hid Hdb Hst. run. rewrite truthy_Some by done. run.
  rewrite Hdb. run. by rewrite Hst.
Qed.

Lemma trigger_payment_executing id inv e w :
  id ≠ "" → INVOICE_DB w !! id = Some inv → status_of inv = EXECUTING →
  trigger_payment (Some id) e w
  = ((StatusBody "Payment is already in progress.", 202), confirmed id w, []).
Proof.
  intros Hid Hdb Hst. run. rewrite truthy_Some by done. run.
  rewrite Hdb. run. by rewrite Hst.
Qed.

Lemma trigger_payment_paid id inv e w :
  id ≠ "" → INVOICE_DB w !! id = Some inv → status_of inv = PAID →
  trigger_payment (Some id) e w
  = ((StatusBody "Invoice was already paid.", 200), confirmed id w, []).
Proof.
  intros Hid Hdb Hst. run. rewrite truthy_Some by done. run.
  rewrite Hdb. run. by rewrite Hst.
Qed.

Lemma trigger_payment_monitoring_paid id inv e w json :
  id ≠ "" → INVOICE_DB w !! id = Some inv → status_of inv = MONITORING →
  payment_succeeds e = Some json →
  let executing := <[id := set_status EXECUTING inv]> (INVOICE_DB w) in
  let paid := <[id := set_status PAID inv]> (INVOICE_DB w) in
  let dated := <[id := set_paidAt json.1 (set_status PAID inv)]> (INVOICE_DB w) in
  let settled :=
    <[id := set_transactionHash json.2 (set_paidAt json.1 (set_status PAID inv))]>
      (INVOICE_DB w) in
  trigger_payment (Some id) e w
  = ((StatusBody "Condition met and payment triggered", 200),
     {| INVOICE_DB := settled;
        shipping_confirmation_registry :=
          {[id]} ∪ shipping_confirmation_registry w;
        DB_FILE := written (te_save_final e) settled
                     (written (te_save_executing e) executing (DB_FILE w)) |},
     [Assign executing;
      SaveDatabase executing (te_save_executing e);
      TriggerPayment id;
      Assign paid; Assign dated; Assign settled;
      SaveDatabase settled (te_save_final e)]).
Proof.
  intros Hid Hdb Hst Hok executing paid dated settled.
  unfold payment_succeeds in Hok.
  assert (Hexecuting :
    alter (set_status EXECUTING) id (INVOICE_DB w) = executing).
  { by rewrite (alter_alt_Some _ _ _ _ Hdb). }
  assert (Hpaid : alter (set_status PAID) id executing = paid).
  { unfold executing. rewrite alter_insert_eq. done. }
  assert (Hdated : alter (set_paidAt json.1) id paid = dated).
  { unfold paid. rewrite alter_insert_eq. done. }
  assert (Hsettled : alter (set_transactionHash json.2) id dated = settled).
  { unfold dated. rewrite alter_insert_eq. done. }
  run. rewrite truthy_Some by done. run. rewrite Hdb. run. rewrite Hst.
  destruct (te_trigger e) as [response|msg]; [|done].
  case_decide; [|done].
  destruct (trigger_json response) as [j|msg]; [|done].
  injection Hok as ->. run.
  by rewrite Hexecuting, Hpaid, Hdated, Hsettled.
Qed.

Lemma trigger_payment_monitoring_failed id inv e w :
  id ≠ "" → INVOICE_DB w !! id = Some inv → status_of inv = MONITORING →
  payment_succeeds e = None →
  let executing := <[id := set_status EXECUTING inv]> (INVOICE_DB w) in
  let paid := <[id := set_status PAID inv]> (INVOICE_DB w) in
  ∃ error,
  trigger_payment (Some id) e w
  = ((ErrorBody error, 500),
     {| INVOICE_DB := INVOICE_DB w;
        shipping_confirmation_registry :=
          {[id]} ∪ shipping_confirmation_registry w;
        DB_FILE := written (te_save_final e) (INVOICE_DB w)
                     (written (te_save_executing e) executing (DB_FILE w)) |},
     [Assign executing;
      SaveDatabase executing (te_save_executing e);
      TriggerPayment id]
     ++ match unreadable_200 e with
        | Some _ => [Assign paid]
        | None => []
        end
     ++ [Assign (INVOICE_DB w);
         SaveDatabase (INVOICE_DB w) (te_save_final e)]).
Proof.
  intros Hid Hdb Hst Hko executing paid.
  unfold payment_succeeds in Hko. unfold unreadable_200.
  assert (Hexecuting :
    alter (set_status EXECUTING) id (INVOICE_DB w) = executing).
  { by rewrite (alter_alt_Some _ _ _ _ Hdb). }
  assert (Hpaid : alter (set_status PAID) id executing = paid).
  { unfold executing. rewrite alter_insert_eq. done. }
  assert (Hsame : set_status MONITORING inv = inv).
  { rewrite <- Hst. by destruct inv. }
  assert (Hback :
    alter (set_status MONITORING) id executing = INVOICE_DB w).
  { unfold executing. rewrite alter_insert_eq.
    change (set_status MONITORING (set_status EXECUTING inv))
      with (set_status MONITORING inv).
    rewrite Hsame. by apply insert_id. }
  assert (Hback' : alter (set_status MONITORING) id paid = INVOICE_DB w).
  { unfold paid. rewrite alter_insert_eq.
    change (set_status MONITORING (set_status PAID inv))
      with (set_status MONITORING inv).
    rewrite Hsame. by apply insert_id. }
  run. rewrite truthy_Some by done. run. rewrite Hdb. run. rewrite Hst.
  destruct (te_trigger e) as [response|msg]; run.
  - case_decide; run.
    + destruct (trigger_json response) as [j|msg]; [done|]. run.
      rewrite Hexecuting, Hpaid, Hback'. eauto.
    + rewrite Hexecuting, Hback. eauto.
  - rewrite Hexecuting, Hback. eauto.
Qed.

(** *** The status found under an id after a change of the map *)

Lemma status_in_insert db id inv X :
  status_in (<[id := inv]> db) X
  = if decide (id = X) then Some (status_of inv) else status_in db X.
Proof.
  unfold status_in. rewrite lookup_insert. by case_decide.
Qed.

Lemma status_in_delete db id X :
  status_in (delete id db) X
  = if decide (id = X) then None else status_in db X.
Proof.
  unfold status_in. rewrite lookup_delete. by case_decide.
Qed.

Lemma status_in_alter_status db id st X :
  status_in (alter (set_status st) id db) X
  = if decide (id = X) then (λ _, st) <$> status_in db X else status_in db X.
Proof.
  unfold status_in. rewrite lookup_alter. case_decide; [subst|done].
  by destruct (db !! X).
Qed.

Lemma status_in_alter_paidAt db id v X :
  status_in (alter (set_paidAt v) id db) X = status_in db X.
Proof.
  unfold status_in. rewrite lookup_alter. case_decide; [subst|done].
  by destruct (db !! X).
Qed.

Lemma status_in_alter_transactionHash db id v X :
  status_in (alter (set_transactionHash v) id db) X = status_in db X.
Proof.
  unfold status_in. rewrite lookup_alter. case_decide; [subst|done].
  by destruct (db !! X).
Qed.

Lemma status_in_Some db X inv :
  db !! X = Some inv → status_in db X = Some (status_of inv).
Proof. unfold status_in. by intros ->. Qed.

Lemma status_in_None db X : db !! X = None → status_in db X = None.
Proof. unfold status_in. by intros ->. Qed.

Ltac statuses :=
  rewrite ?status_in_insert, ?status_in_delete, ?status_in_alter_status,
    ?status_in_alter_paidAt, ?status_in_alter_transactionHash.

Lemma oedge_refl a : oedge a a = true.
Proof. by destruct a as [[]|]. Qed.

Ltac observe :=
  unfold shown, trace_of, world_after;
  cbn [fst snd app snapshots fmap list_fmap INVOICE_DB
       shipping_confirmation_registry DB_FILE confirmed].

Ltac settle :=
  statuses; repeat case_decide; subst;
  cbn [chain oedge edge andb fmap option_fmap option_map];
  rewrite ?oedge_refl; try done.

Lemma trigger_payment_chain x e w X :
  unreadable_200 e = None →
  chain oedge (shown (trigger_payment x e) w X) = true.
Proof.
  intros Hread. unfold shown, trace_of, world_after.
  destruct (truthy x) as [id|] eqn:Hx.
  - apply truthy_inv in Hx as [-> Hid].
    destruct (INVOICE_DB w !! id) as [inv|] eqn:Hdb.
    + pose proof (status_in_Some _ _ _ Hdb) as HX.
      destruct (status_of inv) eqn:Hst.
      * rewrite (trigger_payment_pending _ _ _ _ Hid Hdb Hst). observe. settle.
      * destruct (payment_succeeds e) as [json|] eqn:Hpay.
        -- rewrite (trigger_payment_monitoring_paid _ _ _ _ _ Hid Hdb Hst Hpay).
           observe. settle; by rewrite HX.
        -- destruct (trigger_payment_monitoring_failed _ _ _ _ Hid Hdb Hst Hpay)
             as [error ->].
           rewrite Hread. observe. settle; by rewrite HX.
      * rewrite (trigger_payment_executing _ _ _ _ Hid Hdb Hst). observe. settle.
      * rewrite (trigger_payment_paid _ _ _ _ Hid Hdb Hst). observe. settle.
    + rewrite (trigger_payment_absent _ _ _ Hid Hdb). observe. settle.
  - rewrite (trigger_payment_no_id _ _ _ Hx). observe. settle.
Qed.

(** *** [process_invoice] in terms of [trigger_payment] *)

Lemma begin_monitoring_pending id inv o w :
  INVOICE_DB w !! id = Some inv → status_of inv = Pending →
  let monitored := <[id := set_status MONITORING inv]> (INVOICE_DB w) in
  begin_monitoring id inv o w
  = (tt,
     {| INVOICE_DB := monitored;
        shipping_confirmation_registry := shipping_confirmation_registry w;
        DB_FILE := written o monitored (DB_FILE w) |},
     [Assign monitored; SaveDatabase monitored o]).
Proof.
  intros Hdb Hst monitored. unfold begin_monitoring.
  rewrite decide_True by done. run.
  by rewrite (alter_alt_Some _ _ _ _ Hdb).
Qed.

Lemma begin_monitoring_later id inv o w :
  status_of inv ≠ Pending → begin_monitoring id inv o w = (tt, w, []).
Proof. intros Hst. unfold begin_monitoring. by rewrite decide_False. Qed.

Lemma begin_monitoring_registry id inv o w :
  shipping_confirmation_registry (world_after (begin_monitoring id inv o) w)
  = shipping_confirmation_registry w.
Proof. unfold begin_monitoring. by case_decide. Qed.

Lemma process_invoice_no_id x e w :
  truthy x = None →
  process_invoice x e w = ((ErrorBody "invoiceId is required", 400), w, []).
Proof. intros H. run. by rewrite H. Qed.

Lemma process_invoice_absent id e w :
  id ≠ "" → INVOICE_DB w !! id = None →
  process_invoice (Some id) e w
  = ((ErrorBody "Invoice not found. Run Step 1 first.", 404), w, []).
Proof. intros Hid Hdb. run. rewrite truthy_Some by done. by rewrite Hdb. Qed.

Lemma process_invoice_found id inv e w :
  id ≠ "" → INVOICE_DB w !! id = Some inv →
  let begun := begin_monitoring id inv (me_save_monitoring e) in
  let r := trigger_payment (Some id) (me_trigger e) (world_after begun w) in
  process_invoice (Some id) e w
  = if decide (id ∈ shipping_confirmation_registry w) then
      (if decide (r.1.1.2 = 200) then
         (StatusIdBody "Invoice was pre-confirmed and paid immediately." id, 200)
       else
         (ErrorBody "Invoice was pre-confirmed, but payment execution failed.",
          500),
       r.1.2, trace_of begun w ++ r.2)
    else
      ((StatusBody "Invoice is now being monitored.", 200),
       world_after begun w, trace_of begun w).
Proof.
  intros Hid Hdb begun r.
  pose proof (begin_monitoring_registry id inv (me_save_monitoring e) w) as Hreg.
  subst r begun. unfold world_after, trace_of in *.
  unfold process_invoice, mbind, M_bind, bind, get_db, get_registry.
  rewrite truthy_Some by done. rewrite Hdb.
  destruct (begin_monitoring id inv (me_save_monitoring e) w) as [[[] w1] t1].
  cbn [fst snd] in *. rewrite Hreg.
  case_decide; unfold mret, M_ret, ret.
  - destruct (trigger_payment (Some id) (me_trigger e) w1) as [[r w2] t2].
    cbn [fst snd app]. case_decide; by rewrite !app_nil_r.
  - by rewrite app_nil_r.
Qed.

(** *** What [create_payment_logic] does, case by case *)

Lemma create_payment_logic_no_id p e w :
  truthy (p_invoiceId p) = None →
  create_payment_logic p e w
  = (Return (ErrorBody "invoiceId is required") 400, w, []).
Proof. intros H. run. by rewrite H. Qed.

Lemma create_payment_logic_existing p e w id inv :
  truthy (p_invoiceId p) = Some id → INVOICE_DB w !! id = Some inv →
  create_payment_logic p e w
  = (Return (ErrorStatusBody "Invoice ID already exists." (status_of inv)) 409,
     w, []).
Proof. intros H Hdb. run. rewrite H. by rewrite Hdb. Qed.

Lemma create_payment_logic_insolvent p e w id :
  truthy (p_invoiceId p) = Some id → INVOICE_DB w !! id = None →
  let amount := default "1" (p_amount p) in
  let verdict := balance_verdict amount (ce_balance e) in
  verdict.1 = false →
  create_payment_logic p e w
  = (match float_of_str amount with
     | Some a =>
         Return (ErrorBody
                   ("INSUFFICIENT_FUNDS. Wallet has only "
                    +:+ balance_str verdict.2
                    +:+ " USDC. Requires "
                    +:+ float_str (float_add a float_0_1)
                    +:+ " USDC (for funding and gas).")) 402
     | None => Unhandled
     end, w, [GetBalance]).
Proof.
  intros H Hdb amount verdict Hv. run. rewrite H, Hdb. run.
  fold amount. fold verdict. rewrite Hv. cbn [negb].
  by destruct (float_of_str amount).
Qed.

Lemma create_payment_logic_created p e w id :
  truthy (p_invoiceId p) = Some id → INVOICE_DB w !! id = None →
  let amount := default "1" (p_amount p) in
  (balance_verdict amount (ce_balance e)).1 = true →
  upstream_failure (ce_create e) = None →
  let details := payment_details p amount (ce_now e) in
  let inserted := <[id := details]> (INVOICE_DB w) in
  create_payment_logic p e w
  = (Return (MessageBody "Payment created and pending condition" details) 201,
     {| INVOICE_DB := inserted;
        shipping_confirmation_registry := shipping_confirmation_registry w;
        DB_FILE := written (ce_save_insert e) inserted (DB_FILE w) |},
     [GetBalance; SaveDatabase inserted (ce_save_insert e); CreateOnChain p]).
Proof.
  intros H Hdb amount Hv Hup details inserted. unfold upstream_failure in Hup.
  run. rewrite H, Hdb. run. fold amount. rewrite Hv. cbn [negb].
  run. destruct (ce_create e) as [response|msg]; [|done].
  case_decide; [done|]. by destruct (create_error response).
Qed.

Lemma create_payment_logic_rolled_back p e w id upstream :
  truthy (p_invoiceId p) = Some id → INVOICE_DB w !! id = None →
  let amount := default "1" (p_amount p) in
  let verdict := balance_verdict amount (ce_balance e) in
  verdict.1 = true →
  upstream_failure (ce_create e) = Some upstream →
  let inserted := <[id := payment_details p amount (ce_now e)]> (INVOICE_DB w) in
  ∃ error,
    rollback_text (ce_create e) verdict.2 upstream error ∧
    create_payment_logic p e w
    = (Return (ErrorBody error) 500,
       {| INVOICE_DB := INVOICE_DB w;
          shipping_confirmation_registry := shipping_confirmation_registry w;
          DB_FILE := written (ce_save_rollback e) (INVOICE_DB w)
                       (written (ce_save_insert e) inserted (DB_FILE w)) |},
       [GetBalance; SaveDatabase inserted (ce_save_insert e); CreateOnChain p;
        SaveDatabase (INVOICE_DB w) (ce_save_rollback e)]).
Proof.
  intros H Hdb amount verdict Hv Hup inserted.
  unfold upstream_failure in Hup. unfold rollback_text, marked_insufficient.
  assert (Hdel : delete id inserted = INVOICE_DB w).
  { unfold inserted. rewrite delete_insert_eq. by apply delete_id. }
  run. rewrite H, Hdb. run. fold amount. fold verdict. rewrite Hv. cbn [negb].
  run. fold inserted.
  destruct (ce_create e) as [response|msg]; run.
  - case_decide; [done|].
    destruct (create_error response) as [backend_error|msg]; run;
      injection Hup as ->; rewrite Hdel.
    + destruct (contains "INSUFFICIENT_BALANCE" upstream); eauto.
    + eauto.
  - injection Hup as ->. rewrite Hdel. eauto.
Qed.

(** *** What the voice endpoint does, case by case *)

Lemma voice_id_not_empty n : voice_id n ≠ "".
Proof. done. Qed.

Lemma voice_invoice_id_spec draws (db : gmap string invoice) id :
  voice_invoice_id draws db = Some id →
  db !! id = None ∧ ∃ n, n ∈ draws ∧ id = voice_id n.
Proof.
  induction draws as [|n draws IH]; cbn [voice_invoice_id]; [done|].
  case_decide as Hn.
  - intros (Hdb & m & Hm & ->)%IH. split; [done|]. exists m.
    split; [apply elem_of_cons; by right|done].
  - intros [= <-]. split.
    + by apply eq_None_not_Some.
    + exists n. split; [apply elem_of_cons; by left|done].
Qed.

Lemma get_db_bind {A} (k : gmap string invoice → M A) w :
  (db ← get_db; k db) w = k (INVOICE_DB w) w.
Proof.
  unfold mbind, M_bind, bind, get_db.
  by destruct (k (INVOICE_DB w) w) as [[a w1] t1].
Qed.

Lemma voice_create_no_file audio draws e w :
  truthy audio = None →
  ∃ error, transcribe_audio audio draws e w
           = (Return (ErrorBody error) 400, w, []).
Proof.
  intros [-> | ->]%truthy_None; unfold transcribe_audio; [by eauto|].
  rewrite decide_True by done. by eauto.
Qed.

Lemma voice_create_running filename draws e w :
  filename ≠ "" → voice_invoice_id draws (INVOICE_DB w) = None →
  transcribe_audio (Some filename) draws e w = (Running, w, []).
Proof.
  intros Hf Hid. unfold transcribe_audio. rewrite decide_False by done.
  rewrite get_db_bind. by rewrite Hid.
Qed.

Lemma voice_create_drawn filename draws e w id :
  filename ≠ "" → voice_invoice_id draws (INVOICE_DB w) = Some id →
  transcribe_audio (Some filename) draws e w
  = (r ← create_payment_logic (voice_payload id) e;
     match r with
     | Return response_dict status_code =>
         if decide (status_code = 201) then with_invoiceId id response_dict
         else mret (Return response_dict status_code)
     | Unhandled =>
         mret (Return (ErrorBody
                ("An unexpected error occurred: "
                 +:+ "could not convert string to float: '1'")) 500)
     | Running => mret Running
     end) w.
Proof.
  intros Hf Hid. unfold transcribe_audio. rewrite decide_False by done.
  rewrite get_db_bind. by rewrite Hid.
Qed.

Lemma voice_create_insolvent filename draws e w id :
  filename ≠ "" → voice_invoice_id draws (INVOICE_DB w) = Some id →
  (balance_verdict "1" (ce_balance e)).1 = false →
  ∃ error code,
    transcribe_audio (Some filename) draws e w
    = (Return (ErrorBody error) code, w, [GetBalance])
    ∧ (code = 402 ∨ code = 500).
Proof.
  intros Hf Hid Hv. rewrite (voice_create_drawn _ _ _ _ _ Hf Hid).
  apply voice_invoice_id_spec in Hid as (Hdb & n & _ & ->).
  assert (truthy (p_invoiceId (voice_payload (voice_id n))) = Some (voice_id n))
    as Hx by (by apply truthy_Some).
  unfold mbind, M_bind, bind.
  rewrite (create_payment_logic_insolvent _ _ _ _ Hx Hdb Hv).
  cbn [voice_payload p_amount default from_option id].
  destruct (float_of_str "1"); unfold mret, M_ret, ret; cbn [app].
  - rewrite decide_False by done. eauto.
  - eauto.
Qed.

Lemma voice_create_created filename draws e w id :
  filename ≠ "" → voice_invoice_id draws (INVOICE_DB w) = Some id →
  (balance_verdict "1" (ce_balance e)).1 = true →
  upstream_failure (ce_create e) = None →
  let details := payment_details (voice_payload id) "1" (ce_now e) in
  let inserted := <[id := details]> (INVOICE_DB w) in
  let named := <[id := set_invoiceId (Some id) details]> (INVOICE_DB w) in
  transcribe_audio (Some filename) draws e w
  = (Return (MessageBody "Payment created and pending condition"
               (set_invoiceId (Some id) details)) 201,
     {| INVOICE_DB := named;
        shipping_confirmation_registry := shipping_confirmation_registry w;
        DB_FILE := written (ce_save_insert e) inserted (DB_FILE w) |},
     [GetBalance; SaveDatabase inserted (ce_save_insert e);
      CreateOnChain (voice_payload id); Assign named]).
Proof.
  intros Hf Hid Hv Hup details inserted named.
  rewrite (voice_create_drawn _ _ _ _ _ Hf Hid).
  apply voice_invoice_id_spec in Hid as (Hdb & n & _ & ->).
  assert (truthy (p_invoiceId (voice_payload (voice_id n))) = Some (voice_id n))
    as Hx by (by apply truthy_Some).
  unfold mbind at 1, M_bind at 1, bind at 1.
  rewrite (create_payment_logic_created _ _ _ _ Hx Hdb Hv Hup).
  cbn [app]. rewrite decide_True by done. unfold with_invoiceId. run.
  cbn [voice_payload p_amount default from_option id]. fold details. fold inserted.
  unfold inserted. rewrite alter_insert_eq. done.
Qed.

Lemma voice_create_rolled_back filename draws e w id upstream :
  filename ≠ "" → voice_invoice_id draws (INVOICE_DB w) = Some id →
  (balance_verdict "1" (ce_balance e)).1 = true →
  upstream_failure (ce_create e) = Some upstream →
  let inserted :=
    <[id := payment_details (voice_payload id) "1" (ce_now e)]> (INVOICE_DB w) in
  ∃ error,
    transcribe_audio (Some filename) draws e w
    = (Return (ErrorBody error) 500,
       {| INVOICE_DB := INVOICE_DB w;
          shipping_confirmation_registry := shipping_confirmation_registry w;
          DB_FILE := written (ce_save_rollback e) (INVOICE_DB w)
                       (written (ce_save_insert e) inserted (DB_FILE w)) |},
       [GetBalance; SaveDatabase inserted (ce_save_insert e);
        CreateOnChain (voice_payload id);
        SaveDatabase (INVOICE_DB w) (ce_save_rollback e)]).
Proof.
  intros Hf Hid Hv Hup inserted.
  rewrite (voice_create_drawn _ _ _ _ _ Hf Hid).
  apply voice_invoice_id_spec in Hid as (Hdb & n & _ & ->).
  assert (truthy (p_invoiceId (voice_payload (voice_id n))) = Some (voice_id n))
    as Hx by (by apply truthy_Some).
  unfold mbind, M_bind, bind.
  destruct (create_payment_logic_rolled_back _ _ _ _ _ Hx Hdb Hv Hup)
    as (error & _ & ->).
  cbn [app]. rewrite decide_False by done. unfold mret, M_ret, ret.
  cbn [app]. eauto.
Qed.

(** The five things a voice request can do. *)
Lemma voice_create_cases audio draws e w :
  (∃ r, transcribe_audio audio draws e w = (r, w, []))
  ∨ (∃ r, transcribe_audio audio draws e w = (r, w, [GetBalance]))
  ∨ ∃ id, INVOICE_DB w !! id = None ∧ id ≠ "" ∧
      let details := payment_details (voice_payload id) "1" (ce_now e) in
      let inserted := <[id := details]> (INVOICE_DB w) in
      let named := <[id := set_invoiceId (Some id) details]> (INVOICE_DB w) in
      transcribe_audio audio draws e w
      = (Return (MessageBody "Payment created and pending condition"
                   (set_invoiceId (Some id) details)) 201,
         {| INVOICE_DB := named;
            shipping_confirmation_registry := shipping_confirmation_registry w;
            DB_FILE := written (ce_save_insert e) inserted (DB_FILE w) |},
         [GetBalance; SaveDatabase inserted (ce_save_insert e);
          CreateOnChain (voice_payload id); Assign named])
      ∨ ∃ error,
          transcribe_audio audio draws e w
          = (Return (ErrorBody error) 500,
             {| INVOICE_DB := INVOICE_DB w;
                shipping_confirmation_registry :=
                  shipping_confirmation_registry w;
                DB_FILE := written (ce_save_rollback e) (INVOICE_DB w)
                             (written (ce_save_insert e) inserted (DB_FILE w)) |},
             [GetBalance; SaveDatabase inserted (ce_save_insert e);
              CreateOnChain (voice_payload id);
              SaveDatabase (INVOICE_DB w) (ce_save_rollback e)]).
Proof.
  destruct (truthy audio) as [filename|] eqn:Ha.
  2:{ left. destruct (voice_create_no_file _ draws e w Ha) as [error ->]. eauto. }
  apply truthy_inv in Ha as [-> Hf].
  destruct (voice_invoice_id draws (INVOICE_DB w)) as [id|] eqn:Hid.
  2:{ left. rewrite (voice_create_running _ _ _ _ Hf Hid). eauto. }
  destruct (balance_verdict "1" (ce_balance e)).1 eqn:Hv.
  2:{ right. left.
      destruct (voice_create_insolvent _ _ _ _ _ Hf Hid Hv)
        as (error & code & -> & _).
      eauto. }
  right. right. exists id.
  pose proof Hid as (Hdb & n & _ & Hn)%voice_invoice_id_spec.
  split; [done|]. split; [rewrite Hn; apply voice_id_not_empty|].
  destruct (upstream_failure (ce_create e)) as [upstream|] eqn:Hup.
  - right. apply (voice_create_rolled_back _ _ _ _ _ _ Hf Hid Hv Hup).
  - left. apply (voice_create_created _ _ _ _ _ Hf Hid Hv Hup).
Qed.

(** *** Every request moves the status of every id along the allowed edges *)

Lemma snapshots_app t1 t2 : snapshots (t1 ++ t2) = snapshots t1 ++ snapshots t2.
Proof.
  induction t1 as [|[] t1 IH]; cbn [app snapshots]; [done|..]; by rewrite ?IH.
Qed.

Lemma chain_cons {A} (R : A → A → bool) a b l :
  chain R (a :: b :: l) = R a b && chain R (b :: l).
Proof. done. Qed.

Lemma chain_glue {A} (R : A → A → bool) a l1 b l2 :
  chain R (a :: l1 ++ [b]) = true → chain R (b :: l2) = true →
  chain R (a :: l1 ++ b :: l2) = true.
Proof.
  revert a. induction l1 as [|c l1 IH]; intros a; cbn [app].
  - rewrite !chain_cons. intros [-> _]%andb_prop. by destruct l2.
  - rewrite !chain_cons. intros [-> H]%andb_prop ?. by apply IH.
Qed.

Lemma process_invoice_chain x e w X :
  unreadable_200 (me_trigger e) = None →
  chain oedge (shown (process_invoice x e) w X) = true.
Proof.
  intros Hread. unfold shown, trace_of, world_after.
  destruct (truthy x) as [id|] eqn:Hx.
  2:{ rewrite (process_invoice_no_id _ _ _ Hx). observe. settle. }
  apply truthy_inv in Hx as [-> Hid].
  destruct (INVOICE_DB w !! id) as [inv|] eqn:Hdb.
  2:{ rewrite (process_invoice_absent _ _ _ Hid Hdb). observe. settle. }
  rewrite (process_invoice_found _ _ _ _ Hid Hdb).
  pose proof (status_in_Some _ _ _ Hdb) as HX.
  pose proof (trigger_payment_chain (Some id) (me_trigger e)
    (world_after (begin_monitoring id inv (me_save_monitoring e)) w) X Hread)
    as Ht.
  unfold shown, trace_of, world_after in *.
  destruct (decide (status_of inv = Pending)) as [Hst|Hst].
  - rewrite (begin_monitoring_pending _ _ _ _ Hdb Hst) in *.
    rewrite Hst in HX. case_decide; observe.
    + cbn [fst snd app snapshots fmap list_fmap INVOICE_DB] in Ht.
      rewrite !chain_cons, Ht, andb_true_r. settle. by rewrite HX.
    + settle; by rewrite HX.
  - rewrite (begin_monitoring_later _ _ _ _ Hst) in *.
    case_decide; observe; [done|settle].
Qed.

Lemma create_payment_logic_chain p e w X :
  chain oedge (shown (create_payment_logic p e) w X) = true.
Proof.
  unfold shown, trace_of, world_after.
  destruct (truthy (p_invoiceId p)) as [id|] eqn:Hx.
  2:{ rewrite (create_payment_logic_no_id _ _ _ Hx). observe. settle. }
  destruct (INVOICE_DB w !! id) as [inv|] eqn:Hdb.
  { rewrite (create_payment_logic_existing _ _ _ _ _ Hx Hdb). observe. settle. }
  pose proof (status_in_None _ _ Hdb) as HX.
  destruct (balance_verdict (default "1" (p_amount p)) (ce_balance e)).1 eqn:Hv.
  - destruct (upstream_failure (ce_create e)) as [upstream|] eqn:Hup.
    + destruct (create_payment_logic_rolled_back _ _ _ _ _ Hx Hdb Hv Hup)
        as (error & _ & ->).
      observe. settle; by rewrite HX.
    + rewrite (create_payment_logic_created _ _ _ _ Hx Hdb Hv Hup).
      observe. settle; by rewrite HX.
  - rewrite (create_payment_logic_insolvent _ _ _ _ Hx Hdb Hv). observe. settle.
Qed.

Lemma handle_process_invoice x e w :
  handle (ProcessInvoice x e) w
  = (returned (process_invoice x e w).1.1, (process_invoice x e w).1.2,
     (process_invoice x e w).2).
Proof.
  unfold handle, mbind, M_bind, bind, mret, M_ret, ret.
  destruct (process_invoice x e w) as [[r w1] t1]. by rewrite app_nil_r.
Qed.

Lemma handle_shipping_confirmation x e w :
  handle (ShippingConfirmation x e) w
  = (returned (trigger_payment x e w).1.1, (trigger_payment x e w).1.2,
     (trigger_payment x e w).2).
Proof.
  unfold handle, mock_shipping_confirmation, mbind, M_bind, bind, mret, M_ret, ret.
  destruct (trigger_payment x e w) as [[r w1] t1]. by rewrite app_nil_r.
Qed.

Lemma voice_create_chain audio draws e w X :
  chain oedge (shown (transcribe_audio audio draws e) w X) = true.
Proof.
  unfold shown, trace_of, world_after.
  destruct (voice_create_cases audio draws e w)
    as [[r ->]|[[r ->]|(id & Hdb & Hid & [-> | [error ->]])]];
    pose proof (λ X, status_in_None (INVOICE_DB w) X) as HX;
    observe; settle; by rewrite HX.
Qed.

Lemma handle_chain r w X :
  readable r = true → chain oedge (shown (handle r) w X) = true.
Proof.
  destruct r as [p e|x e|x e| |audio draws e]; cbn [readable].
  - intros _. apply create_payment_logic_chain.
  - intros Hread%bool_decide_eq_true.
    pose proof (process_invoice_chain x e w X Hread) as H.
    unfold shown, trace_of, world_after in *.
    by rewrite handle_process_invoice.
  - intros Hread%bool_decide_eq_true.
    pose proof (trigger_payment_chain x e w X Hread) as H.
    unfold shown, trace_of, world_after in *.
    by rewrite handle_shipping_confirmation.
  - intros _. unfold shown, trace_of, world_after. cbn. apply andb_true_intro.
    by rewrite oedge_refl.
  - intros _. apply voice_create_chain.
Qed.

Lemma observed_head rs w : ∃ l, observed rs w = INVOICE_DB w :: l.
Proof. destruct rs; cbn [observed]; eauto. Qed.

Lemma observed_chain rs w X :
  forallb readable rs = true →
  chain oedge ((λ db, status_in db X) <$> observed rs w) = true.
Proof.
  revert w. induction rs as [|r rs IH]; intros w; [done|].
  cbn [forallb]. intros [Hr Hrs]%andb_prop.
  cbn [observed]. specialize (IH (world_after (handle r) w) Hrs).
  destruct (observed_head rs (world_after (handle r) w)) as [l Hl].
  rewrite Hl in *. rewrite fmap_cons, fmap_app, fmap_cons in *.
  apply chain_glue; [by apply handle_chain | done].
Qed.

(** *** From records-or-none to statuses *)

Lemma chain_edge_paid l :
  chain edge (PAID :: l) = true → forallb (λ s, bool_decide (s = PAID)) l = true.
Proof.
  induction l as [|s l IH]; [done|].
  rewrite chain_cons. intros [Hs Hl]%andb_prop.
  destruct s; try done. cbn [forallb]. by rewrite IH.
Qed.

Lemma chain_edge_paid_is_final l :
  chain edge l = true → paid_is_final l = true.
Proof.
  induction l as [|s l IH]; [done|]. intros H.
  assert (chain edge l = true) as Hl.
  { destruct l; [done|]. rewrite chain_cons in H. by apply andb_prop in H as []. }
  destruct s; cbn [paid_is_final]; auto.
  by rewrite chain_edge_paid, IH.
Qed.

Lemma omap_id_Some (s : status) l : omap id (Some s :: l) = s :: omap id l.
Proof. done. Qed.

Lemma omap_id_None (l : list (option status)) : omap id (None :: l) = omap id l.
Proof. done. Qed.

Lemma chain_oedge_statuses a l :
  chain oedge (a :: l) = true →
  chain edge (omap id (a :: l)) = true
  ∧ (a = None → starts_pending (omap id l) = true).
Proof.
  revert a. induction l as [|b l IH]; intros a.
  - intros _. by destruct a.
  - rewrite chain_cons. intros [Hab Hl]%andb_prop.
    destruct (IH b Hl) as [Hchain Hstart].
    destruct a as [s|], b as [t|];
      rewrite ?omap_id_Some, ?omap_id_None in *.
    + split; [|done]. rewrite chain_cons, Hchain, andb_true_r.
      by destruct s, t.
    + split; [|done]. destruct s; try done.
      specialize (Hstart eq_refl). destruct (omap id l) as [|u l']; [done|].
      apply bool_decide_eq_true in Hstart as ->. by rewrite chain_cons, Hchain.
    + split; [done|]. intros _. by destruct t.
    + split; [done|]. auto.
Qed.

(** *** Runs *)

Lemma serve_cons r rs w :
  serve (r :: rs) w
  = ((handle r w).1.1 :: (serve rs (world_after (handle r) w)).1.1,
     (serve rs (world_after (handle r) w)).1.2,
     (handle r w).2 ++ (serve rs (world_after (handle r) w)).2).
Proof.
  cbn [serve]. unfold world_after, mbind, M_bind, bind, mret, M_ret, ret.
  destruct (handle r w) as [[a w1] t1]. cbn [fst snd].
  destruct (serve rs w1) as [[as' w2] t2]. by rewrite app_nil_r.
Qed.

Lemma world_after_serve_cons r rs w :
  world_after (serve (r :: rs)) w
  = world_after (serve rs) (world_after (handle r) w).
Proof. unfold world_after at 1. by rewrite serve_cons. Qed.

Lemma trace_of_serve_cons r rs w :
  trace_of (serve (r :: rs)) w
  = trace_of (handle r) w ++ trace_of (serve rs) (world_after (handle r) w).
Proof. unfold trace_of at 1. by rewrite serve_cons. Qed.

Lemma answer_of_serve_cons r rs w :
  answer_of (serve (r :: rs)) w
  = answer_of (handle r) w :: answer_of (serve rs) (world_after (handle r) w).
Proof. unfold answer_of at 1. by rewrite serve_cons. Qed.

(** *** The registry of confirmed ids *)

Lemma trigger_payment_registry x e w :
  shipping_confirmation_registry (world_after (trigger_payment x e) w)
  = match truthy x with
    | Some id => {[id]} ∪ shipping_confirmation_registry w
    | None => shipping_confirmation_registry w
    end.
Proof.
  unfold world_after. destruct (truthy x) as [id|] eqn:Hx.
  2:{ by rewrite (trigger_payment_no_id _ _ _ Hx). }
  apply truthy_inv in Hx as [-> Hid].
  destruct (INVOICE_DB w !! id) as [inv|] eqn:Hdb.
  2:{ by rewrite (trigger_payment_absent _ _ _ Hid Hdb). }
  destruct (status_of inv) eqn:Hst.
  - by rewrite (trigger_payment_pending _ _ _ _ Hid Hdb Hst).
  - destruct (payment_succeeds e) as [json|] eqn:Hpay.
    + by rewrite (trigger_payment_monitoring_paid _ _ _ _ _ Hid Hdb Hst Hpay).
    + by destruct (trigger_payment_monitoring_failed _ _ _ _ Hid Hdb Hst Hpay)
        as [error ->].
  - by rewrite (trigger_payment_executing _ _ _ _ Hid Hdb Hst).
  - by rewrite (trigger_payment_paid _ _ _ _ Hid Hdb Hst).
Qed.

Lemma create_payment_logic_registry p e w :
  shipping_confirmation_registry (world_after (create_payment_logic p e) w)
  = shipping_confirmation_registry w.
Proof.
  unfold world_after.
  destruct (truthy (p_invoiceId p)) as [id|] eqn:Hx.
  2:{ by rewrite (create_payment_logic_no_id _ _ _ Hx). }
  destruct (INVOICE_DB w !! id) as [inv|] eqn:Hdb.
  { by rewrite (create_payment_logic_existing _ _ _ _ _ Hx Hdb). }
  destruct (balance_verdict (default "1" (p_amount p)) (ce_balance e)).1 eqn:Hv.
  - destruct (upstream_failure (ce_create e)) as [upstream|] eqn:Hup.
    + by destruct (create_payment_logic_rolled_back _ _ _ _ _ Hx Hdb Hv Hup)
        as (error & _ & ->).
    + by rewrite (create_payment_logic_created _ _ _ _ Hx Hdb Hv Hup).
  - by rewrite (create_payment_logic_insolvent _ _ _ _ Hx Hdb Hv).
Qed.

Lemma voice_create_registry audio draws e w :
  shipping_confirmation_registry (world_after (transcribe_audio audio draws e) w)
  = shipping_confirmation_registry w.
Proof.
  unfold world_after.
  by destruct (voice_create_cases audio draws e w)
    as [[r ->]|[[r ->]|(id & Hdb & Hid & [-> | [error ->]])]].
Qed.

Lemma process_invoice_registry x e w :
  "" ∉ shipping_confirmation_registry w →
  "" ∉ shipping_confirmation_registry (world_after (process_invoice x e) w).
Proof.
  intros Hw. unfold world_after.
  destruct (truthy x) as [id|] eqn:Hx.
  2:{ by rewrite (process_invoice_no_id _ _ _ Hx). }
  apply truthy_inv in Hx as [-> Hid].
  destruct (INVOICE_DB w !! id) as [inv|] eqn:Hdb.
  2:{ by rewrite (process_invoice_absent _ _ _ Hid Hdb). }
  rewrite (process_invoice_found _ _ _ _ Hid Hdb).
  pose proof (begin_monitoring_registry id inv (me_save_monitoring e) w) as Hb.
  case_decide; cbn [fst snd]; [|by rewrite Hb].
  pose proof (trigger_payment_registry (Some id) (me_trigger e)
    (world_after (begin_monitoring id inv (me_save_monitoring e)) w)) as Ht.
  unfold world_after at 1 in Ht. cbv zeta. rewrite Ht, truthy_Some, Hb by done.
  intros [Hin%elem_of_singleton|Hin]%elem_of_union; [by subst|done].
Qed.

Lemma handle_registry r w :
  "" ∉ shipping_confirmation_registry w →
  "" ∉ shipping_confirmation_registry (world_after (handle r) w).
Proof.
  intros Hw. destruct r as [p e|x e|x e| |audio draws e].
  - cbn [handle]. by rewrite create_payment_logic_registry.
  - pose proof (process_invoice_registry x e w Hw) as H.
    unfold world_after in *. by rewrite handle_process_invoice.
  - pose proof (trigger_payment_registry x e w) as H.
    unfold world_after in *. rewrite handle_shipping_confirmation.
    cbn [fst snd]. rewrite H. destruct (truthy x) as [id|] eqn:Hx; [|done].
    apply truthy_inv in Hx as [_ Hid].
    intros [Hin%elem_of_singleton|Hin]%elem_of_union; [by subst|done].
  - done.
  - cbn [handle]. by rewrite voice_create_registry.
Qed.

Lemma registry_never_empty rs w :
  "" ∉ shipping_confirmation_registry w →
  "" ∉ shipping_confirmation_registry (world_after (serve rs) w).
Proof.
  revert w. induction rs as [|r rs IH]; intros w Hw; [done|].
  rewrite world_after_serve_cons. by apply IH, handle_registry.
Qed.


(** *** Where the trigger call comes from *)

Ltac pick H :=
  cbn [fst snd app] in H;
  repeat match type of H with
         | _ ∈ _ :: _ =>
             apply elem_of_cons in H; destruct H as [H|H];
             [try discriminate H|]
         | _ ∈ [] => by apply elem_of_nil in H
         end.

Lemma trigger_payment_call x e w X :
  TriggerPayment X ∈ trace_of (trigger_payment x e) w →
  truthy x = Some X ∧ status_in (INVOICE_DB w) X = Some MONITORING.
Proof.
  unfold trace_of. destruct (truthy x) as [id|] eqn:Hx.
  2:{ rewrite (trigger_payment_no_id _ _ _ Hx). intros H. pick H. }
  pose proof Hx as Hx'. apply truthy_inv in Hx' as [-> Hid].
  destruct (INVOICE_DB w !! id) as [inv|] eqn:Hdb.
  2:{ rewrite (trigger_payment_absent _ _ _ Hid Hdb). intros H. pick H. }
  pose proof (status_in_Some _ _ _ Hdb) as HX.
  destruct (status_of inv) eqn:Hst.
  - rewrite (trigger_payment_pending _ _ _ _ Hid Hdb Hst). intros H. pick H.
  - destruct (payment_succeeds e) as [json|] eqn:Hpay.
    + rewrite (trigger_payment_monitoring_paid _ _ _ _ _ Hid Hdb Hst Hpay).
      intros H. pick H. by injection H as ->.
    + destruct (trigger_payment_monitoring_failed _ _ _ _ Hid Hdb Hst Hpay)
        as [error ->].
      destruct (unreadable_200 e); intros H; pick H; by injection H as ->.
  - rewrite (trigger_payment_executing _ _ _ _ Hid Hdb Hst). intros H. pick H.
  - rewrite (trigger_payment_paid _ _ _ _ Hid Hdb Hst). intros H. pick H.
Qed.

Lemma trigger_payment_monitoring_calls id inv e w :
  id ≠ "" → INVOICE_DB w !! id = Some inv → status_of inv = MONITORING →
  TriggerPayment id ∈ trace_of (trigger_payment (Some id) e) w.
Proof.
  intros Hid Hdb Hst. unfold trace_of.
  destruct (payment_succeeds e) as [json|] eqn:Hpay.
  - rewrite (trigger_payment_monitoring_paid _ _ _ _ _ Hid Hdb Hst Hpay).
    apply elem_of_cons. right. apply elem_of_cons. right.
    apply elem_of_cons. by left.
  - destruct (trigger_payment_monitoring_failed _ _ _ _ Hid Hdb Hst Hpay)
      as [error ->].
    apply elem_of_cons. right. apply elem_of_cons. right.
    apply elem_of_cons. by left.
Qed.

Lemma trigger_payment_idle id e w :
  status_in (INVOICE_DB w) id ≠ Some MONITORING →
  trace_of (trigger_payment (Some id) e) w = []
  ∧ INVOICE_DB (world_after (trigger_payment (Some id) e) w) = INVOICE_DB w
  ∧ DB_FILE (world_after (trigger_payment (Some id) e) w) = DB_FILE w.
Proof.
  intros HX. unfold trace_of, world_after.
  destruct (truthy (Some id)) as [id'|] eqn:Hx.
  2:{ by rewrite (trigger_payment_no_id _ _ _ Hx). }
  apply truthy_inv in Hx as [[= <-] Hid].
  destruct (INVOICE_DB w !! id) as [inv|] eqn:Hdb.
  2:{ by rewrite (trigger_payment_absent _ _ _ Hid Hdb). }
  rewrite (status_in_Some _ _ _ Hdb) in HX.
  destruct (status_of inv) eqn:Hst; [|done|..].
  - by rewrite (trigger_payment_pending _ _ _ _ Hid Hdb Hst).
  - by rewrite (trigger_payment_executing _ _ _ _ Hid Hdb Hst).
  - by rewrite (trigger_payment_paid _ _ _ _ Hid Hdb Hst).
Qed.

Lemma create_payment_logic_no_trigger p e w X :
  TriggerPayment X ∉ trace_of (create_payment_logic p e) w.
Proof.
  unfold trace_of.
  destruct (truthy (p_invoiceId p)) as [id|] eqn:Hx.
  2:{ rewrite (create_payment_logic_no_id _ _ _ Hx). intros H. pick H. }
  destruct (INVOICE_DB w !! id) as [inv|] eqn:Hdb.
  { rewrite (create_payment_logic_existing _ _ _ _ _ Hx Hdb). intros H. pick H. }
  destruct (balance_verdict (default "1" (p_amount p)) (ce_balance e)).1 eqn:Hv.
  - destruct (upstream_failure (ce_create e)) as [upstream|] eqn:Hup.
    + destruct (create_payment_logic_rolled_back _ _ _ _ _ Hx Hdb Hv Hup)
        as (error & _ & ->).
      intros H. pick H.
    + rewrite (create_payment_logic_created _ _ _ _ Hx Hdb Hv Hup).
      intros H. pick H.
  - rewrite (create_payment_logic_insolvent _ _ _ _ Hx Hdb Hv). intros H. pick H.
Qed.

Lemma voice_create_no_trigger audio draws e w X :
  TriggerPayment X ∉ trace_of (transcribe_audio audio draws e) w.
Proof.
  unfold trace_of.
  destruct (voice_create_cases audio draws e w)
    as [[r ->]|[[r ->]|(id & Hdb & Hid & [-> | [error ->]])]];
    intros H; pick H.
Qed.

Lemma process_invoice_call x e w X :
  TriggerPayment X ∈ trace_of (process_invoice x e) w →
  ∃ w1, trigger_call (ProcessInvoice x e) w = Some (X, w1)
        ∧ status_in (INVOICE_DB w1) X = Some MONITORING.
Proof.
  unfold trace_of. cbn [trigger_call].
  destruct (truthy x) as [id|] eqn:Hx.
  2:{ rewrite (process_invoice_no_id _ _ _ Hx). intros H. pick H. }
  pose proof Hx as Hx'. apply truthy_inv in Hx' as [-> Hid].
  destruct (INVOICE_DB w !! id) as [inv|] eqn:Hdb.
  2:{ rewrite (process_invoice_absent _ _ _ Hid Hdb). intros H. pick H. }
  rewrite (process_invoice_found _ _ _ _ Hid Hdb). cbv zeta.
  cbn [mbind option_bind]. rewrite Hdb. cbn [mbind option_bind].
  rewrite begin_monitoring_registry.
  assert (TriggerPayment X ∉
            trace_of (begin_monitoring id inv (me_save_monitoring e)) w) as Hb.
  { unfold trace_of. destruct (decide (status_of inv = Pending)) as [Hst|Hst].
    - rewrite (begin_monitoring_pending _ _ _ _ Hdb Hst). intros H. pick H.
    - rewrite (begin_monitoring_later _ _ _ _ Hst). intros H. pick H. }
  case_decide as Hin; cbn [fst snd].
  - intros [H|H]%elem_of_app; [done|].
    apply trigger_payment_call in H as [Ht HX].
    rewrite truthy_Some in Ht by done. injection Ht as ->. eauto.
  - intros H. done.
Qed.

Lemma handle_trigger_call r w X :
  TriggerPayment X ∈ trace_of (handle r) w →
  ∃ w1, trigger_call r w = Some (X, w1)
        ∧ status_in (INVOICE_DB w1) X = Some MONITORING.
Proof.
  destruct r as [p e|x e|x e| |audio draws e].
  - intros H. by apply create_payment_logic_no_trigger in H.
  - unfold trace_of. rewrite handle_process_invoice. apply process_invoice_call.
  - unfold trace_of. rewrite handle_shipping_confirmation. cbn [fst snd].
    intros [Ht HX]%trigger_payment_call. cbn [trigger_call]. rewrite Ht.
    cbn [mbind option_bind]. eauto.
  - unfold trace_of, handle, get_payment_status, get_db.
    unfold mbind, M_bind, bind, mret, M_ret, ret. intros H. pick H.
  - intros H. by apply voice_create_no_trigger in H.
Qed.

Lemma serve_trigger_call rs w X :
  TriggerPayment X ∈ trace_of (serve rs) w →
  ∃ rs1 r rs2 w1,
    rs = rs1 ++ r :: rs2
    ∧ trigger_call r (world_after (serve rs1) w) = Some (X, w1)
    ∧ status_in (INVOICE_DB w1) X = Some MONITORING.
Proof.
  revert w. induction rs as [|r rs IH]; intros w.
  - unfold trace_of, serve, mret, M_ret, ret. intros H. pick H.
  - rewrite trace_of_serve_cons. intros [H|H]%elem_of_app.
    + apply handle_trigger_call in H as (w1 & Hcall & HX).
      exists [], r, rs, w1. done.
    + apply IH in H as (rs1 & r' & rs2 & w1 & -> & Hcall & HX).
      exists (r :: rs1), r', rs2, w1. by rewrite world_after_serve_cons.
Qed.

End AiFacts.

(** * Properties of [src/ai-agent/agent.py] *)

Section AiAgentFacts.
Context {U : PyUnicode}.
Import AiAgent.

Ltac run :=
  unfold mock_shipping_confirmation, transcribe_audio, execute_payment,
    extract_invoice_id_from_text, drop_temp, set_state, del_state,
    shipping_add, get_shipping, get_registry, set_registry, emit,
    world_after, trace_of, answer_of;
  unfold mbind, M_bind, bind, mret, M_ret, ret;
  cbn [fst snd app invoice_registry shipping_confirmation_registry].

Lemma voice_signal_no_id x backend w :
  truthy x = None →
  mock_shipping_confirmation x backend w
  = (([("error", "invoiceId is required")], 400), w, []).
Proof. intros H. run. by rewrite H. Qed.

Lemma voice_signal_absent id backend w :
  id ≠ "" → invoice_registry w !! id = None →
  mock_shipping_confirmation (Some id) backend w
  = (([("status",
        "Shipping confirmation recorded. Waiting for invoice creation.");
       ("invoiceId", id)], 200), confirmed id w, []).
Proof. intros Hid Hreg. run. rewrite truthy_Some by done. run. by rewrite Hreg. Qed.

Lemma voice_signal_paid id backend w :
  id ≠ "" → invoice_registry w !! id = Some PAID →
  mock_shipping_confirmation (Some id) backend w
  = (([("status", "Invoice was already paid.")], 200), confirmed id w, []).
Proof. intros Hid Hreg. run. rewrite truthy_Some by done. run. by rewrite Hreg. Qed.

Lemma voice_signal_executing id backend w :
  id ≠ "" → invoice_registry w !! id = Some EXECUTING →
  mock_shipping_confirmation (Some id) backend w
  = (([("status", "Payment is already in progress.")], 202),
     confirmed id w, []).
Proof. intros Hid Hreg. run. rewrite truthy_Some by done. run. by rewrite Hreg. Qed.

Lemma voice_signal_processing id backend w :
  id ≠ "" → invoice_registry w !! id = Some PROCESSING →
  mock_shipping_confirmation (Some id) backend w
  = (([("error", "Invoice is in a non-standard state.");
       ("currentState", "PROCESSING")], 409), confirmed id w, []).
Proof. intros Hid Hreg. run. rewrite truthy_Some by done. run. by rewrite Hreg. Qed.

Lemma voice_signal_monitoring_paid id w :
  id ≠ "" → invoice_registry w !! id = Some MONITORING →
  mock_shipping_confirmation (Some id) (Replied 200) w
  = (([("status", "Condition met and payment triggered");
       ("invoiceId", id); ("invoiceState", "PAID")], 200),
     {| invoice_registry := <[id := PAID]> (invoice_registry w);
        shipping_confirmation_registry :=
          {[id]} ∪ shipping_confirmation_registry w |},
     [TriggerPayment id]).
Proof.
  intros Hid Hreg. run. rewrite truthy_Some by done. run. rewrite Hreg.
  run. rewrite Hreg. rewrite decide_False by done. run.
  rewrite decide_True by done. run. by rewrite insert_insert_eq.
Qed.

Lemma voice_signal_monitoring_failed id backend w :
  id ≠ "" → invoice_registry w !! id = Some MONITORING →
  backend ≠ Replied 200 →
  mock_shipping_confirmation (Some id) backend w
  = (([("error", "Payment execution failed.");
       ("invoiceId", id); ("invoiceState", "MONITORING")], 500),
     confirmed id w, [TriggerPayment id]).
Proof.
  intros Hid Hreg Hb. run. rewrite truthy_Some by done. run. rewrite Hreg.
  run. rewrite Hreg. rewrite decide_False by done. run.
  assert (<[id:=MONITORING]> (<[id:=EXECUTING]> (invoice_registry w))
          = invoice_registry w) as Hback.
  { rewrite insert_insert_eq. by apply insert_id. }
  destruct backend as [status_code|msg]; run.
  - case_decide; [by subst|]. run. by rewrite Hback.
  - by rewrite Hback.
Qed.

(** A signal that does not find MONITORING sends nothing and leaves the
    invoice registry as it was. *)
Lemma voice_signal_idle id backend w :
  invoice_registry w !! id ≠ Some MONITORING →
  trace_of (mock_shipping_confirmation (Some id) backend) w = []
  ∧ invoice_registry
      (world_after
         (mock_shipping_confirmation (Some id) backend) w)
    = invoice_registry w.
Proof.
  intros Hreg. unfold trace_of, world_after.
  destruct (truthy (Some id)) as [id'|] eqn:Hx.
  2:{ by rewrite (voice_signal_no_id _ _ _ Hx). }
  apply truthy_inv in Hx as [[= <-] Hid].
  destruct (invoice_registry w !! id) as [[]|] eqn:Hst; [|done|..].
  - by rewrite (voice_signal_processing _ _ _ Hid Hst).
  - by rewrite (voice_signal_executing _ _ _ Hid Hst).
  - by rewrite (voice_signal_paid _ _ _ Hid Hst).
  - by rewrite (voice_signal_absent _ _ _ Hid Hst).
Qed.

(** [execute_payment] sends the trigger call from every state but PAID. *)
Lemma execute_payment_unpaid id backend w :
  invoice_registry w !! id ≠ Some PAID →
  trace_of (execute_payment id backend) w = [TriggerPayment id].
Proof.
  intros Hreg. run. rewrite decide_False by done. run.
  destruct backend as [status_code|msg]; run; [case_decide|]; by run.
Qed.

(** *** The characters of a text *)

(** The bytes of a character, put in front of a text, are read back as
    that character. *)
Lemma chars_chunks s :
  Forall (λ c, ∀ r, chars (c.2 +:+ r) = c :: chars r) (chars s).
Proof.
  remember (String.length s) as n eqn:Hn. revert s Hn.
  induction n as [n IH] using lt_wf_ind. intros s ->.
  destruct s as [|b0 s0]; [constructor|]. cbn [chars].
  destruct (N_of_ascii b0 <? 128)%N eqn:E1.
  { constructor.
    - intros r. cbn [snd]. change (String b0 "" +:+ r) with (String b0 r).
      cbn [chars]. by rewrite E1.
    - apply (IH (String.length s0)); [cbn; lia|done]. }
  destruct (N_of_ascii b0 <? 192)%N eqn:E2.
  { apply (IH (String.length s0)); [cbn; lia|done]. }
  destruct (N_of_ascii b0 <? 224)%N eqn:E3.
  { destruct s0 as [|b1 s1]; [constructor|]. constructor.
    - intros r. cbn [snd].
      change (String b0 (String b1 "") +:+ r) with (String b0 (String b1 r)).
      cbn [chars]. by rewrite E1, E2, E3.
    - apply (IH (String.length s1)); [cbn; lia|done]. }
  destruct (N_of_ascii b0 <? 240)%N eqn:E4.
  { destruct s0 as [|b1 [|b2 s2]]; [constructor..|]. constructor.
    - intros r. cbn [snd].
      change (String b0 (String b1 (String b2 "")) +:+ r)
        with (String b0 (String b1 (String b2 r))).
      cbn [chars]. by rewrite E1, E2, E3, E4.
    - apply (IH (String.length s2)); [cbn; lia|done]. }
  destruct s0 as [|b1 [|b2 [|b3 s3]]]; [constructor..|]. constructor.
  - intros r. cbn [snd].
    change (String b0 (String b1 (String b2 (String b3 ""))) +:+ r)
      with (String b0 (String b1 (String b2 (String b3 r)))).
    cbn [chars]. by rewrite E1, E2, E3, E4.
  - apply (IH (String.length s3)); [cbn; lia|done].
Qed.

(** What [re.sub(r'\D', '', text)] leaves are decimal digits, and no key
    [temp_N] is made of decimal digits: an extracted invoice id is never
    one of the [temp_N] keys. *)
Lemma all_digits_digits_only s : all_digits (digits_only s) = true.
Proof.
  unfold all_digits, digits_only.
  induction (chars_chunks s) as [|c l Hc _ IH]; [done|].
  cbn [foldr]. destruct (decimal c.1) eqn:Hd; [|done].
  rewrite Hc. cbn [forallb]. by rewrite Hd, IH.
Qed.

Lemma all_digits_temp t : all_digits ("temp_" +:+ t) = false.
Proof. done. Qed.

Lemma digits_only_not_temp s t : digits_only s ≠ "temp_" +:+ t.
Proof.
  intros H. pose proof (all_digits_digits_only s) as Hs.
  by rewrite H, all_digits_temp in Hs.
Qed.

Lemma transcribe_audio_preconfirmed e w id :
  hears e id → id ∈ shipping_confirmation_registry w →
  invoice_registry w !! id ≠ Some PAID →
  ∃ text,
    trace_of (transcribe_audio e) w
    = [SpeechToText; GenerateContent text; TriggerPayment id].
Proof.
  intros ((filename & Ha & Hf) & (text & Hs & Ht) & (rt & Hg & Hd & Hid)) Hship Hreg.
  exists text.
  set (temp_id := "temp_" +:+ pretty (size (invoice_registry w))).
  assert (id ≠ temp_id) as Hne.
  { rewrite <- Hd. apply digits_only_not_temp. }
  assert (delete temp_id (<[temp_id := PROCESSING]> (invoice_registry w)) !! id
          = invoice_registry w !! id) as Hlook.
  { rewrite lookup_delete_ne, lookup_insert_ne by done. done. }
  pose proof (execute_payment_unpaid id (tr_backend e)
    {| invoice_registry :=
         delete temp_id (<[temp_id := PROCESSING]> (invoice_registry w));
       shipping_confirmation_registry := shipping_confirmation_registry w |})
    as Hexec.
  cbn [invoice_registry] in Hexec. rewrite Hlook in Hexec.
  specialize (Hexec Hreg). unfold trace_of in *.
  unfold transcribe_audio. rewrite Ha. rewrite decide_False by done.
  unfold extract_invoice_id_from_text, set_state, del_state, get_shipping,
    get_registry, set_registry, emit.
  unfold mbind, M_bind, bind, mret, M_ret, ret.
  cbn [fst snd app invoice_registry shipping_confirmation_registry].
  fold temp_id. rewrite Hs. rewrite decide_False by done.
  cbn [fst snd app invoice_registry shipping_confirmation_registry].
  rewrite Hg, Hd. rewrite (decide_False (P := id = "")) by done.
  cbn [fst snd app invoice_registry shipping_confirmation_registry].
  rewrite Hlook. rewrite decide_False by done.
  rewrite decide_True by done.
  destruct (execute_payment id (tr_backend e) _) as [[ok w2] t2].
  cbn [snd] in Hexec. subst t2. by destruct ok.
Qed.

(** Only the signal endpoint writes to the shipping registry, and only
    after its guard on the id. *)
Lemma voice_signal_registry x backend w :
  shipping_confirmation_registry
    (world_after (mock_shipping_confirmation x backend) w)
  = match truthy x with
    | Some id => {[id]} ∪ shipping_confirmation_registry w
    | None => shipping_confirmation_registry w
    end.
Proof.
  run. destruct (truthy x) as [id|]; [|done]. run.
  destruct (invoice_registry w !! id) as [[]|] eqn:Hreg; try done.
  run. rewrite Hreg, decide_False by done. run.
  destruct backend as [status_code|msg]; run; [case_decide|]; by run.
Qed.

Lemma transcribe_audio_registry e w :
  shipping_confirmation_registry (world_after (transcribe_audio e) w)
  = shipping_confirmation_registry w.
Proof.
  run. destruct (tr_audio e) as [filename|]; [|done].
  case_decide; [done|]. run.
  destruct (tr_speech e) as [text|msg|msg]; run.
  - case_decide; [done|]. run.
    destruct (tr_gemini e) as [rt|msg]; [|done].
    case_decide; [done|]. run.
    case_decide; [done|]. case_decide; run; [|done].
    case_decide; [done|]. run.
    destruct (tr_backend e) as [status_code|msg]; run; [case_decide|]; by run.
  - case_decide; by run.
  - case_decide; by run.
Qed.

Lemma voice_registry_never_empty rs w :
  "" ∉ shipping_confirmation_registry w →
  "" ∉ shipping_confirmation_registry (world_after (serve rs) w).
Proof.
  revert w. induction rs as [|r rs IH]; intros w Hw; [done|].
  unfold world_after in *. cbn [serve]. unfold mbind, M_bind, bind, mret, M_ret, ret.
  destruct (handle r w) as [[a w1] t1] eqn:Hr.
  specialize (IH w1). destruct (serve rs w1) as [[as' w2] t2].
  cbn [fst snd] in *. apply IH.
  assert (w1 = world_after (handle r) w) as -> by (unfold world_after; by rewrite Hr).
  destruct r as [e|x backend]; cbn [handle].
  - by rewrite transcribe_audio_registry.
  - rewrite voice_signal_registry. destruct (truthy x) as [id|] eqn:Hx; [|done].
    apply truthy_inv in Hx as [_ Hid].
    intros [Hin%elem_of_singleton|Hin]%elem_of_union; [by subst|done].
Qed.

Lemma voice_serve_cons r rs w :
  serve (r :: rs) w
  = ((handle r w).1.1
       :: (serve rs (world_after (handle r) w)).1.1,
     (serve rs (world_after (handle r) w)).1.2,
     (handle r w).2
       ++ (serve rs (world_after (handle r) w)).2).
Proof.
  cbn [serve].
  unfold world_after, mbind, M_bind, bind, mret,
    M_ret, ret.
  destruct (handle r w) as [[a w1] t1]. cbn [fst snd].
  destruct (serve rs w1) as [[as' w2] t2]. by rewrite app_nil_r.
Qed.

End AiAgentFacts.

(** * The claims *)

Section Claims.
Context {F : PyFloat} {U : PyUnicode}.
Import Ai.

(** C1 as amended: in [src/ai/agent.py], over any run of creations,
    monitoring requests and signals, every trigger call to the executor is
    sent by a call of [trigger_payment] (from the signal endpoint, or from
    [process_invoice] for a pre-confirmed id) that finds the invoice in
    MONITORING; a [trigger_payment] that finds anything else (no record,
    Pending, EXECUTING, PAID) sends nothing and leaves the store and the
    file as they were.  In [src/ai-agent/agent.py] the signal endpoint
    likewise sends the call only from MONITORING, but the voice creation of
    an id whose shipping was confirmed before calls [execute_payment]
    itself, and the call goes out from any state other than PAID, also when
    there is no record. *)
Theorem trigger_call_only_from_monitoring :
  (∀ (rs : list request) (w : world) (X : string),
     TriggerPayment X ∈ trace_of (serve rs) w →
     ∃ rs1 r rs2 w1,
       rs = rs1 ++ r :: rs2
       ∧ trigger_call r (world_after (serve rs1) w) = Some (X, w1)
       ∧ status_in (INVOICE_DB w1) X = Some MONITORING)
  ∧ (∀ (id : string) (e : trigger_env) (w : world),
       status_in (INVOICE_DB w) id ≠ Some MONITORING →
       trace_of (trigger_payment (Some id) e) w = []
       ∧ INVOICE_DB (world_after (trigger_payment (Some id) e) w) = INVOICE_DB w
       ∧ DB_FILE (world_after (trigger_payment (Some id) e) w) = DB_FILE w)
  ∧ (∀ (id : string) (backend : outcome Z) (w : AiAgent.world),
       AiAgent.invoice_registry w !! id ≠ Some AiAgent.MONITORING →
       AiAgent.trace_of (AiAgent.mock_shipping_confirmation (Some id) backend) w
       = []
       ∧ AiAgent.invoice_registry
           (AiAgent.world_after
              (AiAgent.mock_shipping_confirmation (Some id) backend) w)
         = AiAgent.invoice_registry w)
  ∧ (∀ (e : AiAgent.transcribe_env) (w : AiAgent.world) (id : string),
       AiAgent.hears e id →
       id ∈ AiAgent.shipping_confirmation_registry w →
       AiAgent.invoice_registry w !! id ≠ Some AiAgent.PAID →
       ∃ text,
         AiAgent.trace_of (AiAgent.transcribe_audio e) w
         = [AiAgent.SpeechToText; AiAgent.GenerateContent text;
            AiAgent.TriggerPayment id]).
Proof.
  split_and!.
  - apply serve_trigger_call.
  - apply trigger_payment_idle.
  - apply voice_signal_idle.
  - apply transcribe_audio_preconfirmed.
Qed.

(** C2: the status does not only move forward.  When the executor answers
    the trigger call for a MONITORING invoice with a 200 whose body cannot
    be read, [trigger_payment] has written PAID before it reads the body
    (line 281), and the except branch writes MONITORING over it (line 293).
    The statuses the store goes through are MONITORING, EXECUTING, PAID,
    MONITORING: PAID is left again, over an edge that is not allowed.  The
    signal is answered 500, the record is as it was before, and the next
    signal sends the trigger call for the same invoice once more. *)
Theorem unreadable_reply_moves_paid_back (X : string) (inv : invoice)
    (e e' : trigger_env) (w : world) (msg : string) :
  X ≠ "" → INVOICE_DB w !! X = Some inv → status_of inv = MONITORING →
  unreadable_200 e = Some msg →
  let rs := [ShippingConfirmation (Some X) e] in
  let seen := (λ db, status_in db X) <$> observed rs w in
  seen = [Some MONITORING; Some EXECUTING; Some EXECUTING; Some PAID;
          Some MONITORING; Some MONITORING; Some MONITORING]
  ∧ chain edge (omap id seen) = false
  ∧ paid_is_final (omap id seen) = false
  ∧ answer_of (serve rs) w
    = [Return (ErrorBody ("An unexpected error occurred: " +:+ msg)) 500]
  ∧ INVOICE_DB (world_after (serve rs) w) = INVOICE_DB w
  ∧ TriggerPayment X
      ∈ trace_of (handle (ShippingConfirmation (Some X) e'))
          (world_after (serve rs) w).
Proof.
  intros HX Hdb Hst Hun rs seen.
  assert (payment_succeeds e = None) as Hko.
  { unfold unreadable_200 in Hun. unfold payment_succeeds.
    destruct (te_trigger e) as [response|]; [|done].
    case_decide; [|done]. by destruct (trigger_json response). }
  assert (trigger_payment (Some X) e w
          = ((ErrorBody ("An unexpected error occurred: " +:+ msg), 500),
             {| INVOICE_DB := INVOICE_DB w;
                shipping_confirmation_registry :=
                  {[X]} ∪ shipping_confirmation_registry w;
                DB_FILE :=
                  written (te_save_final e) (INVOICE_DB w)
                    (written (te_save_executing e)
                       (<[X := set_status EXECUTING inv]> (INVOICE_DB w))
                       (DB_FILE w)) |},
             [Assign (<[X := set_status EXECUTING inv]> (INVOICE_DB w));
              SaveDatabase (<[X := set_status EXECUTING inv]> (INVOICE_DB w))
                (te_save_executing e);
              TriggerPayment X;
              Assign (<[X := set_status PAID inv]> (INVOICE_DB w));
              Assign (INVOICE_DB w);
              SaveDatabase (INVOICE_DB w) (te_save_final e)])) as Hrun.
  { destruct (trigger_payment_monitoring_failed _ _ _ _ HX Hdb Hst Hko)
      as [error Heq].
    rewrite Heq, Hun. cbn [app]. do 2 f_equal.
    revert Heq. unfold unreadable_200 in Hun.
    unfold trigger_payment, mbind, M_bind, bind, get_db, registry_add.
    rewrite truthy_Some by done. rewrite Hdb. cbn [fmap option_fmap option_map].
    rewrite Hst.
    destruct (update X (set_status EXECUTING) _) as [[[] w1] t1].
    destruct (save_database _ w1) as [[[] w2] t2].
    unfold emit at 1. destruct (te_trigger e) as [response|]; [|done].
    case_decide; [|done].
    destruct (update X (set_status PAID) w2) as [[[] w3] t3].
    destruct (trigger_json response) as [|msg']; [done|].
    injection Hun as ->.
    destruct (update X (set_status MONITORING) w3) as [[[] w4] t4].
    destruct (save_database _ w4) as [[[] w5] t5].
    unfold mret, M_ret, ret. by intros [= -> _ _]. }
  assert (world_after (serve rs) w
          = world_after (trigger_payment (Some X) e) w) as Hw.
  { unfold rs. rewrite world_after_serve_cons. unfold world_after at 1 2.
    rewrite handle_shipping_confirmation. done. }
  assert (seen = [Some MONITORING; Some EXECUTING; Some EXECUTING; Some PAID;
                  Some MONITORING; Some MONITORING; Some MONITORING]) as Hseen.
  { unfold seen, rs. cbn [observed]. unfold trace_of, world_after.
    rewrite handle_shipping_confirmation, Hrun.
    cbn [fst snd app snapshots fmap list_fmap INVOICE_DB].
    rewrite !status_in_insert, !decide_True by done.
    by rewrite (status_in_Some _ _ _ Hdb), Hst. }
  rewrite Hseen, Hw. unfold world_after at 1 2. rewrite Hrun. cbn [fst snd].
  split_and!; [done|done|done| |done|].
  - unfold rs, answer_of. rewrite serve_cons, handle_shipping_confirmation.
    by rewrite Hrun.
  - unfold trace_of. rewrite handle_shipping_confirmation. cbn [snd].
    by apply (trigger_payment_monitoring_calls X inv).
Qed.

(** *** The two orders of arrival, step by step *)

Lemma step_signal_recorded id e w :
  id ≠ "" → INVOICE_DB w !! id = None →
  world_after (handle (ShippingConfirmation (Some id) e)) w = confirmed id w.
Proof.
  intros Hid Hdb. unfold world_after. rewrite handle_shipping_confirmation.
  by rewrite (trigger_payment_absent _ _ _ Hid Hdb).
Qed.

Lemma step_signal_paid id inv e w :
  id ≠ "" → INVOICE_DB w !! id = Some inv → status_of inv = PAID →
  world_after (handle (ShippingConfirmation (Some id) e)) w = confirmed id w.
Proof.
  intros Hid Hdb Hst. unfold world_after. rewrite handle_shipping_confirmation.
  by rewrite (trigger_payment_paid _ _ _ _ Hid Hdb Hst).
Qed.

Lemma step_signal_pays id inv e w json :
  id ≠ "" → INVOICE_DB w !! id = Some inv → status_of inv = MONITORING →
  payment_succeeds e = Some json →
  ∃ file,
    world_after (handle (ShippingConfirmation (Some id) e)) w
    = {| INVOICE_DB :=
           <[id := set_transactionHash json.2
                     (set_paidAt json.1 (set_status PAID inv))]> (INVOICE_DB w);
         shipping_confirmation_registry :=
           {[id]} ∪ shipping_confirmation_registry w;
         DB_FILE := file |}.
Proof.
  intros Hid Hdb Hst Hpay. unfold world_after.
  rewrite handle_shipping_confirmation.
  rewrite (trigger_payment_monitoring_paid _ _ _ _ _ Hid Hdb Hst Hpay). eauto.
Qed.

Lemma step_created p e w id :
  p_invoiceId p = Some id → id ≠ "" → INVOICE_DB w !! id = None →
  (balance_verdict (default "1" (p_amount p)) (ce_balance e)).1 = true →
  upstream_failure (ce_create e) = None →
  ∃ file,
    world_after (handle (CreatePayment p e)) w
    = {| INVOICE_DB :=
           <[id := payment_details p (default "1" (p_amount p)) (ce_now e)]>
             (INVOICE_DB w);
         shipping_confirmation_registry := shipping_confirmation_registry w;
         DB_FILE := file |}.
Proof.
  intros Hp Hid Hdb Hv Hup.
  assert (truthy (p_invoiceId p) = Some id) as Hx.
  { rewrite Hp. by apply truthy_Some. }
  unfold world_after. cbn [handle].
  rewrite (create_payment_logic_created _ _ _ _ Hx Hdb Hv Hup). eauto.
Qed.

Lemma step_monitoring id inv e w :
  id ≠ "" → INVOICE_DB w !! id = Some inv → status_of inv = Pending →
  id ∉ shipping_confirmation_registry w →
  ∃ file,
    world_after (handle (ProcessInvoice (Some id) e)) w
    = {| INVOICE_DB := <[id := set_status MONITORING inv]> (INVOICE_DB w);
         shipping_confirmation_registry := shipping_confirmation_registry w;
         DB_FILE := file |}.
Proof.
  intros Hid Hdb Hst Hreg. unfold world_after.
  rewrite handle_process_invoice, (process_invoice_found _ _ _ _ Hid Hdb).
  cbv zeta. rewrite decide_False by done. cbn [fst snd].
  unfold world_after. rewrite (begin_monitoring_pending _ _ _ _ Hdb Hst). eauto.
Qed.

Lemma step_monitoring_pays id inv e w json :
  id ≠ "" → INVOICE_DB w !! id = Some inv → status_of inv = Pending →
  id ∈ shipping_confirmation_registry w →
  payment_succeeds (me_trigger e) = Some json →
  ∃ file,
    world_after (handle (ProcessInvoice (Some id) e)) w
    = {| INVOICE_DB :=
           <[id := set_transactionHash json.2
                     (set_paidAt json.1 (set_status PAID inv))]> (INVOICE_DB w);
         shipping_confirmation_registry :=
           {[id]} ∪ shipping_confirmation_registry w;
         DB_FILE := file |}.
Proof.
  intros Hid Hdb Hst Hreg Hpay. unfold world_after.
  rewrite handle_process_invoice, (process_invoice_found _ _ _ _ Hid Hdb).
  cbv zeta. rewrite decide_True by done. cbn [fst snd].
  unfold world_after. rewrite (begin_monitoring_pending _ _ _ _ Hdb Hst).
  cbn [fst snd].
  erewrite trigger_payment_monitoring_paid;
    [| done | cbn [INVOICE_DB]; apply lookup_insert_eq | done | done].
  cbn [fst snd INVOICE_DB shipping_confirmation_registry].
  rewrite insert_insert_eq. eexists. reflexivity.
Qed.

Lemma signal_orders_agree (id : string) (p : payload) (ce : create_env)
    (me : monitor_env) (te : trigger_env) (w : world)
    (json : option string * option string) :
  p_invoiceId p = Some id → id ≠ "" → INVOICE_DB w !! id = None →
  (balance_verdict (default "1" (p_amount p)) (ce_balance ce)).1 = true →
  upstream_failure (ce_create ce) = None →
  payment_succeeds te = Some json →
  payment_succeeds (me_trigger me) = Some json →
  ∀ rs, rs = signal_first id p ce me te ∨ rs = signal_last id p ce me te →
    INVOICE_DB (world_after (serve rs) w)
    = <[id := paid p (ce_now ce) json]> (INVOICE_DB w)
    ∧ shipping_confirmation_registry (world_after (serve rs) w)
      = {[id]} ∪ shipping_confirmation_registry w.
Proof.
  intros Hp Hid Hdb Hv Hup Hte Hme rs Hrs.
  set (details := payment_details p (default "1" (p_amount p)) (ce_now ce)).
  destruct Hrs as [-> | ->].
  - unfold signal_first. rewrite !world_after_serve_cons.
    rewrite (step_signal_recorded _ _ _ Hid Hdb).
    destruct (step_created p ce (confirmed id w) id Hp Hid Hdb Hv Hup)
      as [f1 ->].
    edestruct (step_monitoring_pays id details me) as [f2 ->];
      [ done
      | cbn [INVOICE_DB]; apply lookup_insert_eq
      | done
      | cbn [shipping_confirmation_registry confirmed]; apply confirmed_elem
      | apply Hme
      | ].
    unfold world_after, serve, mret, M_ret, ret.
    cbn [fst snd INVOICE_DB shipping_confirmation_registry confirmed].
    rewrite insert_insert_eq, confirmed_twice. done.
  - unfold signal_last. rewrite !world_after_serve_cons.
    destruct (step_created p ce w id Hp Hid Hdb Hv Hup) as [f1 ->].
    destruct (decide (id ∈ shipping_confirmation_registry w)) as [Hreg|Hreg].
    + edestruct (step_monitoring_pays id details me) as [f2 ->];
        [ done
        | cbn [INVOICE_DB]; apply lookup_insert_eq
        | done
        | cbn [shipping_confirmation_registry]; apply Hreg
        | apply Hme
        | ].
      erewrite step_signal_paid;
        [ | done | cbn [INVOICE_DB]; apply lookup_insert_eq | done ].
      unfold world_after, serve, mret, M_ret, ret.
      cbn [fst snd INVOICE_DB shipping_confirmation_registry confirmed].
      rewrite insert_insert_eq, confirmed_twice. done.
    + edestruct (step_monitoring id details me) as [f2 ->];
        [ done
        | cbn [INVOICE_DB]; apply lookup_insert_eq
        | done
        | cbn [shipping_confirmation_registry]; apply Hreg
        | ].
      edestruct (step_signal_pays id (set_status MONITORING details) te) as [f3 ->];
        [ done
        | cbn [INVOICE_DB]; apply lookup_insert_eq
        | done
        | apply Hte
        | ].
      unfold world_after, serve, mret, M_ret, ret.
      cbn [fst snd INVOICE_DB shipping_confirmation_registry confirmed].
      rewrite !insert_insert_eq. done.
Qed.

(** C3: for a fresh non-empty id whose creation goes through and whose
    payment call succeeds with a paidAt and a transactionHash, the signal
    delivered before the creation and the start of monitoring leaves the
    same store and the same registry as the signal delivered after them:
    the record is PAID and carries the paidAt and transactionHash of the
    executor.  In the first order it is [process_invoice] that finds the
    id in the registry and calls [trigger_payment] itself. *)
Theorem signal_order_independent (id : string) (p : payload) (ce : create_env)
    (me : monitor_env) (te : trigger_env) (w : world) (paid_at tx : string) :
  p_invoiceId p = Some id → id ≠ "" → INVOICE_DB w !! id = None →
  (balance_verdict (default "1" (p_amount p)) (ce_balance ce)).1 = true →
  upstream_failure (ce_create ce) = None →
  payment_succeeds te = Some (Some paid_at, Some tx) →
  payment_succeeds (me_trigger me) = Some (Some paid_at, Some tx) →
  let before := world_after (serve (signal_first id p ce me te)) w in
  let after := world_after (serve (signal_last id p ce me te)) w in
  INVOICE_DB before = INVOICE_DB after
  ∧ shipping_confirmation_registry before = shipping_confirmation_registry after
  ∧ (∃ inv, INVOICE_DB before !! id = Some inv
            ∧ status_of inv = PAID
            ∧ paidAt inv = Some paid_at
            ∧ transactionHash inv = Some tx)
  ∧ TriggerPayment id
      ∈ trace_of (handle (ProcessInvoice (Some id) me))
          (world_after
             (serve [ShippingConfirmation (Some id) te; CreatePayment p ce]) w).
Proof.
  intros Hp Hid Hdb Hv Hup Hte Hme before after.
  destruct (signal_orders_agree id p ce me te w _ Hp Hid Hdb Hv Hup Hte Hme
              (signal_first id p ce me te)) as [Hdb1 Hreg1]; [by left|].
  destruct (signal_orders_agree id p ce me te w _ Hp Hid Hdb Hv Hup Hte Hme
              (signal_last id p ce me te)) as [Hdb2 Hreg2]; [by right|].
  subst before after. rewrite Hdb1, Hdb2, Hreg1, Hreg2.
  split_and!; [done..| |].
  - eexists. rewrite lookup_insert_eq. done.
  - rewrite !world_after_serve_cons.
    rewrite (step_signal_recorded _ _ _ Hid Hdb).
    destruct (step_created p ce (confirmed id w) id) as [f1 ->]; try done.
    unfold world_after at 1, serve, mret, M_ret, ret. cbn [fst snd].
    unfold trace_of. rewrite handle_process_invoice. cbn [fst snd].
    erewrite process_invoice_found; [|done|].
    2:{ cbn [INVOICE_DB]. apply lookup_insert_eq. }
    cbv zeta. cbn [shipping_confirmation_registry confirmed].
    rewrite decide_True by apply confirmed_elem. cbn [fst snd].
    apply elem_of_app. right.
    unfold world_after. erewrite begin_monitoring_pending; [| |done].
    2:{ cbn [INVOICE_DB]. apply lookup_insert_eq. }
    cbn [fst snd].
    erewrite trigger_payment_monitoring_paid;
      [| done | cbn [INVOICE_DB]; apply lookup_insert_eq | done | done].
    cbn [fst snd]. apply elem_of_cons. right. apply elem_of_cons. right.
    apply elem_of_cons. by left.
Qed.


(** C5: a creation on a fresh non-empty id for which the pre-check finds
    the wallet short (the balance query fails, or returns a balance below
    the amount plus the 0.1 buffer) leaves the world as it was, so no record
    is created, sends nothing but the balance query, and, the amount being
    a number, is answered 402 with a text that reports the observed balance
    (0 when the query failed). *)
Theorem insufficient_funds_rejected (p : payload) (e : create_env) (w : world)
    (id : string) (reported : balance) :
  p_invoiceId p = Some id → id ≠ "" → INVOICE_DB w !! id = None →
  let amount := default "1" (p_amount p) in
  short_of_funds amount (ce_balance e) reported →
  world_after (create_payment_logic p e) w = w
  ∧ trace_of (create_payment_logic p e) w = [GetBalance]
  ∧ ∀ a, float_of_str amount = Some a →
      answer_of (create_payment_logic p e) w
      = Return (ErrorBody
                  ("INSUFFICIENT_FUNDS. Wallet has only "
                   +:+ balance_str reported
                   +:+ " USDC. Requires "
                   +:+ float_str (float_add a float_0_1)
                   +:+ " USDC (for funding and gas).")) 402.
Proof.
  intros Hp Hid Hdb amount Hshort.
  assert (truthy (p_invoiceId p) = Some id) as Hx.
  { rewrite Hp. by apply truthy_Some. }
  assert (balance_verdict amount (ce_balance e) = (false, reported)) as Hv.
  { unfold short_of_funds, balance_query in Hshort. unfold balance_verdict.
    destruct (ce_balance e) as [r|msg]; [|by subst].
    case_decide; [|by subst].
    destruct (balance_value r) as [b|]; [|by subst].
    destruct Hshort as (-> & a & -> & ->). done. }
  unfold world_after, trace_of, answer_of.
  rewrite (create_payment_logic_insolvent _ _ _ _ Hx Hdb); fold amount;
    rewrite Hv; [|done].
  split_and!; [done..|]. intros a Ha. cbn [fst snd]. by rewrite Ha.
Qed.


(** C6, what the code does: when the pre-check has passed and the executor
    refuses the creation with an error text that holds INSUFFICIENT_BALANCE,
    the handler answers with the insufficient-funds text, and with status
    500, the status of every other executor failure; the pre-check path
    answers the same kind of error with 402. *)
Theorem remote_insufficient_balance_answers_500 (p : payload) (e : create_env)
    (w : world) (id : string) :
  p_invoiceId p = Some id → id ≠ "" → INVOICE_DB w !! id = None →
  let verdict := balance_verdict (default "1" (p_amount p)) (ce_balance e) in
  verdict.1 = true →
  marked_insufficient (ce_create e) = true →
  answer_of (create_payment_logic p e) w
  = Return (ErrorBody ("INSUFFICIENT_FUNDS. Re-check: Wallet has only "
                       +:+ balance_str verdict.2 +:+ " USDC.")) 500.
Proof.
  intros Hp Hid Hdb verdict Hv Hmark.
  assert (truthy (p_invoiceId p) = Some id) as Hx.
  { rewrite Hp. by apply truthy_Some. }
  assert (∃ upstream, upstream_failure (ce_create e) = Some upstream)
    as [upstream Hup].
  { unfold marked_insufficient in Hmark. unfold upstream_failure.
    destruct (ce_create e) as [r|msg]; [|done].
    case_decide; [done|]. destruct (create_error r); eauto. }
  destruct (create_payment_logic_rolled_back _ _ _ _ _ Hx Hdb Hv Hup)
    as (error & Htext & Heq).
  unfold rollback_text in Htext. rewrite Hmark in Htext.
  unfold answer_of. rewrite Heq. cbn [fst]. by rewrite Htext.
Qed.

(** C7: a creation whose id is already in the store changes nothing (the
    store with the existing record, the registry and the file stay as they
    were, and no call goes out), and, the id being non-empty as the
    operation requires, it is answered 409 with the status of the existing
    record. *)
Theorem duplicate_creation_rejected (p : payload) (e : create_env) (w : world)
    (id : string) (inv : invoice) :
  p_invoiceId p = Some id → INVOICE_DB w !! id = Some inv →
  world_after (create_payment_logic p e) w = w
  ∧ trace_of (create_payment_logic p e) w = []
  ∧ (id ≠ "" →
     answer_of (create_payment_logic p e) w
     = Return (ErrorStatusBody "Invoice ID already exists." (status_of inv)) 409).
Proof.
  intros Hp Hdb. unfold world_after, trace_of, answer_of.
  destruct (truthy (p_invoiceId p)) as [id'|] eqn:Hx.
  - pose proof Hx as Hx'. apply truthy_inv in Hx' as [Hid' Hne].
    assert (id' = id) as -> by congruence.
    by rewrite (create_payment_logic_existing _ _ _ _ _ Hx Hdb).
  - rewrite (create_payment_logic_no_id _ _ _ Hx). split_and!; [done..|].
    intros Hid. rewrite Hp, truthy_Some in Hx by done. done.
Qed.

(** Signals on a paid invoice, one after the other. *)
Lemma paid_signals_idempotent (id : string) (inv : invoice) (w : world)
    (es : list trigger_env) :
  id ≠ "" → INVOICE_DB w !! id = Some inv → status_of inv = PAID →
  let rs := ShippingConfirmation (Some id) <$> es in
  answer_of (serve rs) w
  = (λ _, Return (StatusBody "Invoice was already paid.") 200) <$> es
  ∧ trace_of (serve rs) w = []
  ∧ world_after (serve rs) w
    = match es with [] => w | _ => confirmed id w end.
Proof.
  intros Hid Hdb Hst. cbv zeta. revert w Hdb.
  induction es as [|e es IH]; intros w Hdb; [done|].
  rewrite fmap_cons, answer_of_serve_cons, trace_of_serve_cons,
    world_after_serve_cons.
  assert (handle (ShippingConfirmation (Some id) e) w
          = (Return (StatusBody "Invoice was already paid.") 200,
             confirmed id w, [])) as Hh.
  { rewrite handle_shipping_confirmation.
    by rewrite (trigger_payment_paid _ _ _ _ Hid Hdb Hst). }
  unfold answer_of at 1, trace_of at 1, world_after at 1 2 4. rewrite Hh.
  cbn [fst snd].
  destruct (IH (confirmed id w)) as (Ha & Ht & Hw); [done|].
  rewrite Ha, Ht, Hw. split_and!; [done..|]. destruct es; [done|].
  unfold confirmed. cbn [INVOICE_DB shipping_confirmation_registry DB_FILE].
  f_equal. apply confirmed_twice.
Qed.

Lemma voice_paid_signals_idempotent (id : string) (w : AiAgent.world)
    (backends : list (outcome Z)) :
  id ≠ "" → AiAgent.invoice_registry w !! id = Some AiAgent.PAID →
  AiAgent.serve (AiAgent.ShippingConfirmation (Some id) <$> backends) w
  = ((λ _, ([("status", "Invoice was already paid.")], 200)) <$> backends,
     match backends with [] => w | _ => AiAgent.confirmed id w end,
     []).
Proof.
  intros Hid. revert w.
  induction backends as [|b bs IH]; intros w Hreg; [done|].
  rewrite fmap_cons, voice_serve_cons. unfold AiAgent.world_after.
  cbn [AiAgent.handle].
  rewrite (voice_signal_paid _ _ _ Hid Hreg). cbn [fst snd].
  rewrite (IH (AiAgent.confirmed id w)) by done. cbn [fst snd app fmap list_fmap].
  do 2 f_equal. destruct bs; [done|].
  unfold AiAgent.confirmed.
  cbn [AiAgent.invoice_registry AiAgent.shipping_confirmation_registry].
  f_equal. apply confirmed_twice.
Qed.

(** C8: a signal for an invoice that is already PAID is answered 200
    "Invoice was already paid.", sends nothing, and leaves the record (its
    status, transactionHash and paidAt), the store and the file as they
    were; it only adds the id to the registry of confirmed ids, so that any
    number of such signals gives the same answers and the same world as one
    of them.  The same holds of the voice service. *)
Theorem signal_on_paid_idempotent (id : string) :
  id ≠ "" →
  (∀ (inv : invoice) (w : world) (es : list trigger_env),
     INVOICE_DB w !! id = Some inv → status_of inv = PAID →
     let rs := ShippingConfirmation (Some id) <$> es in
     answer_of (serve rs) w
     = (λ _, Return (StatusBody "Invoice was already paid.") 200) <$> es
     ∧ trace_of (serve rs) w = []
     ∧ world_after (serve rs) w = match es with [] => w | _ => confirmed id w end
     ∧ INVOICE_DB (world_after (serve rs) w) !! id = Some inv)
  ∧ (∀ (w : AiAgent.world) (backends : list (outcome Z)),
       AiAgent.invoice_registry w !! id = Some AiAgent.PAID →
       AiAgent.serve (AiAgent.ShippingConfirmation (Some id) <$> backends) w
       = ((λ _, ([("status", "Invoice was already paid.")], 200)) <$> backends,
          match backends with [] => w | _ => AiAgent.confirmed id w end,
          [])).
Proof.
  intros Hid. split.
  - intros inv w es Hdb Hst.
    destruct (paid_signals_idempotent id inv w es Hid Hdb Hst) as (Ha & Ht & Hw).
    cbv zeta. rewrite Ha, Ht, Hw. split_and!; [done..|]. by destruct es.
  - intros w backends Hreg. by apply voice_paid_signals_idempotent.
Qed.

(** C9 as amended: a signal that carries a non-empty id, and whose payment
    call, if one is made, succeeds, is answered by the status it finds: 200
    and recorded for later when there is no record or the record is still
    Pending, 200 when the record is MONITORING and is paid or is already
    PAID, and 202 "Payment is already in progress." when it is EXECUTING;
    never a 4xx for an unknown id.  The voice service answers alike, and
    409 for a key still in PROCESSING. *)
Theorem signal_answers (id : string) :
  id ≠ "" →
  (∀ (e : trigger_env) (w : world),
     (status_in (INVOICE_DB w) id = Some MONITORING → is_Some (payment_succeeds e)) →
     answer_of (mock_shipping_confirmation (Some id) e) w
     = match status_in (INVOICE_DB w) id with
       | None =>
           (StatusBody
              "Shipping confirmation recorded. Waiting for invoice creation.",
            200)
       | Some Pending =>
           (StatusBody
              "Shipping confirmation recorded. Waiting for monitoring to start.",
            200)
       | Some MONITORING => (StatusBody "Condition met and payment triggered", 200)
       | Some EXECUTING => (StatusBody "Payment is already in progress.", 202)
       | Some PAID => (StatusBody "Invoice was already paid.", 200)
       end
     ∧ id ∈ shipping_confirmation_registry
              (world_after (mock_shipping_confirmation (Some id) e) w))
  ∧ (∀ (w : AiAgent.world),
       AiAgent.answer_of
         (AiAgent.mock_shipping_confirmation (Some id) (Replied 200)) w
       = match AiAgent.invoice_registry w !! id with
         | None =>
             ([("status",
                "Shipping confirmation recorded. Waiting for invoice creation.");
               ("invoiceId", id)], 200)
         | Some AiAgent.MONITORING =>
             ([("status", "Condition met and payment triggered");
               ("invoiceId", id); ("invoiceState", "PAID")], 200)
         | Some AiAgent.EXECUTING =>
             ([("status", "Payment is already in progress.")], 202)
         | Some AiAgent.PAID => ([("status", "Invoice was already paid.")], 200)
         | Some AiAgent.PROCESSING =>
             ([("error", "Invoice is in a non-standard state.");
               ("currentState", "PROCESSING")], 409)
         end
       ∧ id ∈ AiAgent.shipping_confirmation_registry
                (AiAgent.world_after
                   (AiAgent.mock_shipping_confirmation (Some id) (Replied 200)) w)).
Proof.
  intros Hid. split.
  - intros e w Hpay. split.
    2:{ unfold mock_shipping_confirmation. rewrite trigger_payment_registry.
        rewrite truthy_Some by done. apply confirmed_elem. }
    unfold mock_shipping_confirmation, answer_of.
    destruct (INVOICE_DB w !! id) as [inv|] eqn:Hdb.
    2:{ rewrite (status_in_None _ _ Hdb).
        by rewrite (trigger_payment_absent _ _ _ Hid Hdb). }
    rewrite (status_in_Some _ _ _ Hdb) in *.
    destruct (status_of inv) eqn:Hst.
    + by rewrite (trigger_payment_pending _ _ _ _ Hid Hdb Hst).
    + destruct (Hpay eq_refl) as [json Hjson].
      by rewrite (trigger_payment_monitoring_paid _ _ _ _ _ Hid Hdb Hst Hjson).
    + by rewrite (trigger_payment_executing _ _ _ _ Hid Hdb Hst).
    + by rewrite (trigger_payment_paid _ _ _ _ Hid Hdb Hst).
  - intros w. split.
    2:{ rewrite voice_signal_registry, truthy_Some by done.
        apply confirmed_elem. }
    unfold AiAgent.answer_of.
    destruct (AiAgent.invoice_registry w !! id) as [[]|] eqn:Hreg.
    + by rewrite (voice_signal_processing _ _ _ Hid Hreg).
    + by rewrite (voice_signal_monitoring_paid _ _ Hid Hreg).
    + by rewrite (voice_signal_executing _ _ _ Hid Hreg).
    + by rewrite (voice_signal_paid _ _ _ Hid Hreg).
    + by rewrite (voice_signal_absent _ _ _ Hid Hreg).
Qed.


(** C10: a condition-signal request whose body has no invoiceId (the key is
    missing or the string is empty) is answered 400 before anything is
    written: the registry, the invoice store and the file are left as they
    were and no call goes out, in both services; and over any run from the
    start of either service the registry never holds the empty id. *)
Theorem signal_without_id_rejected (x : option string) :
  x = None ∨ x = Some "" →
  (∀ e w, mock_shipping_confirmation x e w
          = ((ErrorBody "invoiceId is required", 400), w, []))
  ∧ (∀ backend w, AiAgent.mock_shipping_confirmation x backend w
                  = (([("error", "invoiceId is required")], 400), w, []))
  ∧ (∀ file rs,
       "" ∉ shipping_confirmation_registry (world_after (serve rs) (boot file)))
  ∧ (∀ rs,
       "" ∉ AiAgent.shipping_confirmation_registry
              (AiAgent.world_after (AiAgent.serve rs) AiAgent.start)).
Proof.
  intros Hx%truthy_None. split_and!.
  - intros e w. by apply trigger_payment_no_id.
  - intros backend w. by apply voice_signal_no_id.
  - intros file rs. apply registry_never_empty. cbn. apply not_elem_of_empty.
  - intros rs. apply voice_registry_never_empty. cbn. apply not_elem_of_empty.
Qed.

End Claims.

(** * Further properties of [src/ai/agent.py] *)

Section AiRuns.
Context {F : PyFloat}.
Import Ai.

(** *** What one request does to the record under an id *)

Lemma moves_insert_fresh (db : gmap string invoice) (id : string) inv (X : string) :
  db !! id = None → status_of inv = Pending →
  transactionHash inv = None → paidAt inv = None →
  moves (db !! X) (<[id := inv]> db !! X).
Proof.
  intros Hdb Hst Htx Hpaid. rewrite lookup_insert. case_decide; [subst|].
  - rewrite Hdb. by constructor.
  - constructor.
Qed.

Lemma moves_insert_status (db : gmap string invoice) (id : string) inv st (X : string) :
  db !! id = Some inv → status_of inv ≠ PAID → st ≠ PAID →
  moves (db !! X) (<[id := set_status st inv]> db !! X).
Proof.
  intros Hdb Hst Hne. rewrite lookup_insert. case_decide; [subst|].
  - rewrite Hdb. by constructor.
  - constructor.
Qed.

Lemma moves_insert_paid (db : gmap string invoice) (id : string) inv json (X : string) :
  db !! id = Some inv → status_of inv ≠ PAID →
  moves (db !! X)
    (<[id := set_transactionHash json.2
               (set_paidAt json.1 (set_status PAID inv))]> db !! X).
Proof.
  intros Hdb Hst. rewrite lookup_insert. case_decide; [subst|].
  - rewrite Hdb. by constructor.
  - constructor.
Qed.

Lemma trigger_payment_moves x e w X :
  moves (INVOICE_DB w !! X)
    (INVOICE_DB (world_after (trigger_payment x e) w) !! X).
Proof.
  unfold world_after. destruct (truthy x) as [id|] eqn:Hx.
  2:{ rewrite (trigger_payment_no_id _ _ _ Hx). constructor. }
  apply truthy_inv in Hx as [-> Hid].
  destruct (INVOICE_DB w !! id) as [inv|] eqn:Hdb.
  2:{ rewrite (trigger_payment_absent _ _ _ Hid Hdb). constructor. }
  destruct (status_of inv) eqn:Hst.
  - rewrite (trigger_payment_pending _ _ _ _ Hid Hdb Hst). constructor.
  - destruct (payment_succeeds e) as [json|] eqn:Hpay.
    + rewrite (trigger_payment_monitoring_paid _ _ _ _ _ Hid Hdb Hst Hpay).
      apply moves_insert_paid; [done|]. by rewrite Hst.
    + destruct (trigger_payment_monitoring_failed _ _ _ _ Hid Hdb Hst Hpay)
        as [error ->]. constructor.
  - rewrite (trigger_payment_executing _ _ _ _ Hid Hdb Hst). constructor.
  - rewrite (trigger_payment_paid _ _ _ _ Hid Hdb Hst). constructor.
Qed.

Lemma create_payment_logic_moves p e w X :
  moves (INVOICE_DB w !! X)
    (INVOICE_DB (world_after (create_payment_logic p e) w) !! X).
Proof.
  unfold world_after.
  destruct (truthy (p_invoiceId p)) as [id|] eqn:Hx.
  2:{ rewrite (create_payment_logic_no_id _ _ _ Hx). constructor. }
  destruct (INVOICE_DB w !! id) as [inv|] eqn:Hdb.
  { rewrite (create_payment_logic_existing _ _ _ _ _ Hx Hdb). constructor. }
  destruct (balance_verdict (default "1" (p_amount p)) (ce_balance e)).1 eqn:Hv.
  - destruct (upstream_failure (ce_create e)) as [upstream|] eqn:Hup.
    + destruct (create_payment_logic_rolled_back _ _ _ _ _ Hx Hdb Hv Hup)
        as (error & _ & ->). constructor.
    + rewrite (create_payment_logic_created _ _ _ _ Hx Hdb Hv Hup).
      by apply moves_insert_fresh.
  - rewrite (create_payment_logic_insolvent _ _ _ _ Hx Hdb Hv). constructor.
Qed.

Lemma process_invoice_moves x e w X :
  moves (INVOICE_DB w !! X)
    (INVOICE_DB (world_after (process_invoice x e) w) !! X).
Proof.
  unfold world_after. destruct (truthy x) as [id|] eqn:Hx.
  2:{ rewrite (process_invoice_no_id _ _ _ Hx). constructor. }
  apply truthy_inv in Hx as [-> Hid].
  destruct (INVOICE_DB w !! id) as [inv|] eqn:Hdb.
  2:{ rewrite (process_invoice_absent _ _ _ Hid Hdb). constructor. }
  rewrite (process_invoice_found _ _ _ _ Hid Hdb). cbv zeta.
  destruct (decide (status_of inv = Pending)) as [Hst|Hst].
  - unfold world_after. rewrite (begin_monitoring_pending _ _ _ _ Hdb Hst).
    cbn [fst snd].
    set (w1 := {| INVOICE_DB := <[id:=set_status MONITORING inv]> (INVOICE_DB w);
                  shipping_confirmation_registry := shipping_confirmation_registry w;
                  DB_FILE := written (me_save_monitoring e)
                               (<[id:=set_status MONITORING inv]> (INVOICE_DB w))
                               (DB_FILE w) |}).
    assert (INVOICE_DB w1 !! id = Some (set_status MONITORING inv)) as Hdb1.
    { apply lookup_insert_eq. }
    case_decide; cbn [fst snd].
    + destruct (payment_succeeds (me_trigger e)) as [json|] eqn:Hpay.
      * rewrite (trigger_payment_monitoring_paid id _ (me_trigger e) w1 json
                   Hid Hdb1 eq_refl Hpay).
        cbn [fst snd INVOICE_DB]. subst w1. cbn [INVOICE_DB].
        rewrite insert_insert_eq.
        apply (moves_insert_paid _ _ inv json); [done|]. by rewrite Hst.
      * destruct (trigger_payment_monitoring_failed id _ (me_trigger e) w1
                    Hid Hdb1 eq_refl Hpay) as [error ->].
        cbn [fst snd INVOICE_DB]. subst w1. cbn [INVOICE_DB].
        apply moves_insert_status; [done| by rewrite Hst | done].
    + subst w1. cbn [INVOICE_DB].
      apply moves_insert_status; [done| by rewrite Hst | done].
  - unfold world_after. rewrite (begin_monitoring_later _ _ _ _ Hst).
    cbn [fst snd]. case_decide; cbn [fst snd]; [|constructor].
    apply (trigger_payment_moves (Some id) (me_trigger e) w X).
Qed.

Lemma voice_create_moves audio draws e w X :
  moves (INVOICE_DB w !! X)
    (INVOICE_DB (world_after (transcribe_audio audio draws e) w) !! X).
Proof.
  unfold world_after.
  destruct (voice_create_cases audio draws e w)
    as [[r ->]|[[r ->]|(id & Hdb & Hid & [-> | [error ->]])]];
    cbn [fst snd INVOICE_DB]; try constructor.
  by apply moves_insert_fresh.
Qed.

Lemma handle_moves r w X :
  moves (INVOICE_DB w !! X) (INVOICE_DB (world_after (handle r) w) !! X).
Proof.
  destruct r as [p e|x e|x e| |audio draws e].
  - apply create_payment_logic_moves.
  - pose proof (process_invoice_moves x e w X) as H.
    unfold world_after in *. by rewrite handle_process_invoice.
  - pose proof (trigger_payment_moves x e w X) as H.
    unfold world_after in *. by rewrite handle_shipping_confirmation.
  - constructor.
  - apply voice_create_moves.
Qed.

Lemma moves_terms inv o :
  moves (Some inv) o → ∃ inv', o = Some inv' ∧ same_terms inv inv'.
Proof.
  inversion 1; subst; eexists; (split; [done|]); by destruct inv.
Qed.

Lemma moves_paid_frozen inv o :
  status_of inv = PAID → moves (Some inv) o → o = Some inv.
Proof. intros Hst. inversion 1; subst; congruence. Qed.

Lemma moves_blank o inv' :
  (∀ inv, o = Some inv → status_of inv ≠ PAID →
          transactionHash inv = None ∧ paidAt inv = None) →
  moves o (Some inv') → status_of inv' ≠ PAID →
  transactionHash inv' = None ∧ paidAt inv' = None.
Proof.
  intros Hblank Hmoves Hst. inversion Hmoves; subst.
  - by apply Hblank.
  - done.
  - destruct (Hblank inv eq_refl) as [Htx Hpaid]; [done|].
    by destruct inv.
  - by destruct inv.
Qed.


Lemma same_terms_trans a b c : same_terms a b → same_terms b c → same_terms a c.
Proof. unfold same_terms. intros (?&?&?&?) (?&?&?&?). split_and!; congruence. Qed.

Lemma serve_terms rs w id inv :
  INVOICE_DB w !! id = Some inv →
  ∃ inv', INVOICE_DB (world_after (serve rs) w) !! id = Some inv'
          ∧ same_terms inv inv'.
Proof.
  revert w inv. induction rs as [|r rs IH]; intros w inv Hdb.
  - exists inv. split; [done|]. by destruct inv.
  - rewrite world_after_serve_cons.
    pose proof (handle_moves r w id) as Hm. rewrite Hdb in Hm.
    apply moves_terms in Hm as (inv1 & Hdb1 & H1).
    destruct (IH _ _ Hdb1) as (inv2 & Hdb2 & H2).
    exists inv2. split; [done|]. by eapply same_terms_trans.
Qed.

Lemma serve_paid_frozen rs w id inv :
  INVOICE_DB w !! id = Some inv → status_of inv = PAID →
  INVOICE_DB (world_after (serve rs) w) !! id = Some inv.
Proof.
  intros Hdb Hst. revert w Hdb. induction rs as [|r rs IH]; intros w Hdb; [done|].
  rewrite world_after_serve_cons. apply IH.
  pose proof (handle_moves r w id) as Hm. rewrite Hdb in Hm.
  by apply moves_paid_frozen in Hm.
Qed.

Lemma handle_no_call_when_paid r w id inv :
  INVOICE_DB w !! id = Some inv → status_of inv = PAID →
  TriggerPayment id ∉ trace_of (handle r) w.
Proof.
  intros Hdb Hst Hin.
  apply handle_trigger_call in Hin as (w1 & Hcall & HX).
  assert (status_in (INVOICE_DB w) id = Some PAID) as Hpaid.
  { by rewrite (status_in_Some _ _ _ Hdb), Hst. }
  destruct r as [p e|x e|x e| |audio draws e]; cbn [trigger_call] in Hcall;
    [done| | |done|done].
  - destruct (truthy x) as [id'|]; [|done]. cbn [mbind option_bind] in Hcall.
    destruct (INVOICE_DB w !! id') as [inv'|] eqn:Hdb'; [|done].
    cbn [mbind option_bind] in Hcall. case_decide; [|done].
    injection Hcall as -> <-. rewrite Hdb in Hdb'. injection Hdb' as <-.
    unfold world_after in HX. rewrite begin_monitoring_later in HX by congruence.
    cbn [fst snd] in HX. congruence.
  - destruct (truthy x) as [id'|]; [|done]. cbn [mbind option_bind] in Hcall.
    injection Hcall as -> <-. congruence.
Qed.

Lemma serve_no_call_when_paid rs w id inv :
  INVOICE_DB w !! id = Some inv → status_of inv = PAID →
  TriggerPayment id ∉ trace_of (serve rs) w.
Proof.
  intros Hdb Hst. revert w Hdb. induction rs as [|r rs IH]; intros w Hdb.
  - unfold trace_of, serve, mret, M_ret, ret. cbn [snd]. apply not_elem_of_nil.
  - rewrite trace_of_serve_cons. intros [Hin|Hin]%elem_of_app.
    + by eapply handle_no_call_when_paid.
    + revert Hin. apply IH.
      pose proof (handle_moves r w id) as Hm. rewrite Hdb in Hm.
      by apply moves_paid_frozen in Hm.
Qed.

Lemma serve_blank rs w :
  blank_until_paid (INVOICE_DB w) →
  blank_until_paid (INVOICE_DB (world_after (serve rs) w)).
Proof.
  revert w. induction rs as [|r rs IH]; intros w Hw; [done|].
  rewrite world_after_serve_cons. apply IH.
  intros id inv' Hdb' Hst.
  pose proof (handle_moves r w id) as Hm. rewrite Hdb' in Hm.
  eapply moves_blank; [|exact Hm|done].
  intros inv Hdb Hst'. by apply (Hw id).
Qed.

(** *** The registry only grows *)

Lemma process_invoice_registry_grows x e w :
  shipping_confirmation_registry w
  ⊆ shipping_confirmation_registry (world_after (process_invoice x e) w).
Proof.
  unfold world_after. destruct (truthy x) as [id|] eqn:Hx.
  2:{ by rewrite (process_invoice_no_id _ _ _ Hx). }
  apply truthy_inv in Hx as [-> Hid].
  destruct (INVOICE_DB w !! id) as [inv|] eqn:Hdb.
  2:{ by rewrite (process_invoice_absent _ _ _ Hid Hdb). }
  rewrite (process_invoice_found _ _ _ _ Hid Hdb).
  pose proof (begin_monitoring_registry id inv (me_save_monitoring e) w) as Hb.
  case_decide; cbn [fst snd]; [|by rewrite Hb].
  pose proof (trigger_payment_registry (Some id) (me_trigger e)
    (world_after (begin_monitoring id inv (me_save_monitoring e)) w)) as Ht.
  unfold world_after at 1 in Ht. cbv zeta. rewrite Ht, truthy_Some, Hb by done.
  apply union_subseteq_r.
Qed.

Lemma handle_registry_grows r w :
  shipping_confirmation_registry w
  ⊆ shipping_confirmation_registry (world_after (handle r) w).
Proof.
  destruct r as [p e|x e|x e| |audio draws e].
  - cbn [handle]. by rewrite create_payment_logic_registry.
  - pose proof (process_invoice_registry_grows x e w) as H.
    unfold world_after in *. by rewrite handle_process_invoice.
  - pose proof (trigger_payment_registry x e w) as H.
    unfold world_after in *. rewrite handle_shipping_confirmation.
    cbn [fst snd]. rewrite H. destruct (truthy x); [|done].
    apply union_subseteq_r.
  - done.
  - cbn [handle]. by rewrite voice_create_registry.
Qed.

Lemma serve_registry_grows rs w :
  shipping_confirmation_registry w
  ⊆ shipping_confirmation_registry (world_after (serve rs) w).
Proof.
  revert w. induction rs as [|r rs IH]; intros w; [done|].
  rewrite world_after_serve_cons.
  etrans; [apply (handle_registry_grows r)|apply IH].
Qed.

(** *** The file follows the store *)

Lemma all_written_app t1 t2 :
  all_written (t1 ++ t2) = all_written t1 && all_written t2.
Proof.
  induction t1 as [|[| | |db []|db] t1 IH]; cbn [app all_written andb]; done.
Qed.

Lemma trigger_payment_mirrored x e w :
  mirrored w → all_written (trace_of (trigger_payment x e) w) = true →
  mirrored (world_after (trigger_payment x e) w).
Proof.
  unfold mirrored, world_after, trace_of. intros Hw.
  destruct (truthy x) as [id|] eqn:Hx.
  2:{ by rewrite (trigger_payment_no_id _ _ _ Hx). }
  apply truthy_inv in Hx as [-> Hid].
  destruct (INVOICE_DB w !! id) as [inv|] eqn:Hdb.
  2:{ by rewrite (trigger_payment_absent _ _ _ Hid Hdb). }
  destruct (status_of inv) eqn:Hst.
  - by rewrite (trigger_payment_pending _ _ _ _ Hid Hdb Hst).
  - destruct (payment_succeeds e) as [json|] eqn:Hpay.
    + rewrite (trigger_payment_monitoring_paid _ _ _ _ _ Hid Hdb Hst Hpay).
      cbn [fst snd all_written INVOICE_DB DB_FILE].
      by destruct (te_save_executing e), (te_save_final e).
    + destruct (trigger_payment_monitoring_failed _ _ _ _ Hid Hdb Hst Hpay)
        as [error ->].
      destruct (unreadable_200 e);
        cbn [fst snd app all_written INVOICE_DB DB_FILE];
        by destruct (te_save_executing e), (te_save_final e).
  - by rewrite (trigger_payment_executing _ _ _ _ Hid Hdb Hst).
  - by rewrite (trigger_payment_paid _ _ _ _ Hid Hdb Hst).
Qed.

Lemma create_payment_logic_mirrored p e w :
  mirrored w → all_written (trace_of (create_payment_logic p e) w) = true →
  mirrored (world_after (create_payment_logic p e) w).
Proof.
  unfold mirrored, world_after, trace_of. intros Hw.
  destruct (truthy (p_invoiceId p)) as [id|] eqn:Hx.
  2:{ by rewrite (create_payment_logic_no_id _ _ _ Hx). }
  destruct (INVOICE_DB w !! id) as [inv|] eqn:Hdb.
  { by rewrite (create_payment_logic_existing _ _ _ _ _ Hx Hdb). }
  destruct (balance_verdict (default "1" (p_amount p)) (ce_balance e)).1 eqn:Hv.
  - destruct (upstream_failure (ce_create e)) as [upstream|] eqn:Hup.
    + destruct (create_payment_logic_rolled_back _ _ _ _ _ Hx Hdb Hv Hup)
        as (error & _ & ->).
      cbn [fst snd all_written INVOICE_DB DB_FILE].
      by destruct (ce_save_insert e), (ce_save_rollback e).
    + rewrite (create_payment_logic_created _ _ _ _ Hx Hdb Hv Hup).
      cbn [fst snd all_written INVOICE_DB DB_FILE].
      by destruct (ce_save_insert e).
  - by rewrite (create_payment_logic_insolvent _ _ _ _ Hx Hdb Hv).
Qed.

Lemma process_invoice_mirrored x e w :
  mirrored w → all_written (trace_of (process_invoice x e) w) = true →
  mirrored (world_after (process_invoice x e) w).
Proof.
  intros Hw. unfold world_after, trace_of. destruct (truthy x) as [id|] eqn:Hx.
  2:{ by rewrite (process_invoice_no_id _ _ _ Hx). }
  apply truthy_inv in Hx as [-> Hid].
  destruct (INVOICE_DB w !! id) as [inv|] eqn:Hdb.
  2:{ by rewrite (process_invoice_absent _ _ _ Hid Hdb). }
  rewrite (process_invoice_found _ _ _ _ Hid Hdb). cbv zeta.
  assert (all_written (trace_of (begin_monitoring id inv (me_save_monitoring e)) w)
          = true →
          mirrored (world_after (begin_monitoring id inv (me_save_monitoring e)) w))
    as Hbegun.
  { unfold world_after, trace_of, mirrored.
    destruct (decide (status_of inv = Pending)) as [Hst|Hst].
    - rewrite (begin_monitoring_pending _ _ _ _ Hdb Hst).
      cbn [fst snd all_written INVOICE_DB DB_FILE].
      by destruct (me_save_monitoring e).
    - by rewrite (begin_monitoring_later _ _ _ _ Hst). }
  case_decide; cbn [fst snd].
  - rewrite all_written_app. intros [H1 H2]%andb_prop.
    apply trigger_payment_mirrored; [by apply Hbegun|done].
  - done.
Qed.

Lemma handle_mirrored r w :
  by_voice r = false →
  mirrored w → all_written (trace_of (handle r) w) = true →
  mirrored (world_after (handle r) w).
Proof.
  intros Hr Hw. destruct r as [p e|x e|x e| |audio draws e]; [..|done].
  - by apply create_payment_logic_mirrored.
  - pose proof (process_invoice_mirrored x e w Hw) as H.
    unfold world_after, trace_of in *. by rewrite handle_process_invoice.
  - pose proof (trigger_payment_mirrored x e w Hw) as H.
    unfold world_after, trace_of in *. by rewrite handle_shipping_confirmation.
  - done.
Qed.

Lemma serve_mirrored rs w :
  existsb by_voice rs = false →
  mirrored w → all_written (trace_of (serve rs) w) = true →
  mirrored (world_after (serve rs) w).
Proof.
  revert w. induction rs as [|r rs IH]; intros w Hrs Hw; [done|].
  cbn [existsb] in Hrs. apply orb_false_elim in Hrs as [Hr Hrs].
  rewrite trace_of_serve_cons, world_after_serve_cons, all_written_app.
  intros [H1 H2]%andb_prop. apply IH; [done| |done]. by apply handle_mirrored.
Qed.

(** X1: over any run of requests the registry of confirmed ids only
    grows: an id that has been signalled stays confirmed. *)
Theorem registry_only_grows (rs : list request) (w : world) :
  shipping_confirmation_registry w
  ⊆ shipping_confirmation_registry (world_after (serve rs) w).
Proof. apply serve_registry_grows. Qed.

(** X2: over any run of requests a record that is in the store stays in
    the store, and keeps the amount, recipient, condition and creation time
    it was created with. *)
Theorem records_keep_their_terms (rs : list request) (w : world)
    (id : string) (inv : invoice) :
  INVOICE_DB w !! id = Some inv →
  ∃ inv', INVOICE_DB (world_after (serve rs) w) !! id = Some inv'
          ∧ same_terms inv inv'.
Proof. apply serve_terms. Qed.

(** X3: once an invoice is PAID, no run of requests changes any field of
    its record, and no run sends another trigger call for its id. *)
Theorem paid_invoice_is_never_paid_again (rs : list request) (w : world)
    (id : string) (inv : invoice) :
  INVOICE_DB w !! id = Some inv → status_of inv = PAID →
  INVOICE_DB (world_after (serve rs) w) !! id = Some inv
  ∧ TriggerPayment id ∉ trace_of (serve rs) w.
Proof.
  intros Hdb Hst. split.
  - by apply serve_paid_frozen.
  - by eapply serve_no_call_when_paid.
Qed.

(** X4: if no record of the store carries a transactionHash or a paidAt
    before it is PAID, the same holds after any run of requests: the two
    fields are only written together with the status PAID. *)
Theorem payment_fields_only_when_paid (rs : list request) (w : world) :
  blank_until_paid (INVOICE_DB w) →
  blank_until_paid (INVOICE_DB (world_after (serve rs) w)).
Proof. apply serve_blank. Qed.

(** X5: over a run of requests none of which goes to the voice endpoint,
    if the file holds the store, and every save of the run goes through,
    the file holds the store after the run, so that [load_database] on a
    restart reads back the store the process had. *)
Theorem file_follows_store (rs : list request) (w : world) :
  existsb by_voice rs = false →
  mirrored w → all_written (trace_of (serve rs) w) = true →
  let w' := world_after (serve rs) w in
  mirrored w' ∧ INVOICE_DB (world_after load_database w') = INVOICE_DB w'.
Proof.
  intros Hrs Hw Hall. pose proof (serve_mirrored rs w Hrs Hw Hall) as Hm.
  split; [done|]. unfold world_after at 1, load_database. cbn [fst snd INVOICE_DB].
  unfold mirrored in Hm. by rewrite Hm.
Qed.

(** X26: over any run of requests in which every 200 that the executor
    gives to a trigger call has a body that can be read, what is found
    under an id, at the start, after every assignment to a record, at every
    save and after every request, moves only along Pending, MONITORING,
    EXECUTING, PAID and the one backward edge EXECUTING to MONITORING (a
    record appears as Pending, and only a Pending record disappears again,
    when its creation is rolled back); once PAID is seen, nothing but PAID
    is seen afterwards. *)
Theorem status_moves_forward_on_readable_replies (rs : list request)
    (w : world) (X : string) :
  forallb readable rs = true →
  let seen := (λ db, status_in db X) <$> observed rs w in
  chain oedge seen = true
  ∧ chain edge (omap id seen) = true
  ∧ paid_is_final (omap id seen) = true.
Proof.
  intros Hrs. cbv zeta. pose proof (observed_chain rs w X Hrs) as Hchain.
  destruct (observed_head rs w) as [l Hl]. rewrite Hl in *.
  rewrite fmap_cons in *. split; [done|].
  apply chain_oedge_statuses in Hchain as [Hchain _].
  split; [done|]. by apply chain_edge_paid_is_final.
Qed.

(** X27: a voice creation that goes through is answered 201 with the record
    it stored, to which it has added the key invoiceId after the save.  The
    store then holds the record with the key and the file the record
    without it, although the save went through: the file does not hold the
    store, and a restart reads back the record without the key. *)
Theorem voice_creation_outruns_file (filename : string) (draws : list Z)
    (e : create_env) (w : world) (id : string) :
  filename ≠ "" → voice_invoice_id draws (INVOICE_DB w) = Some id →
  (balance_verdict "1" (ce_balance e)).1 = true →
  upstream_failure (ce_create e) = None →
  ce_save_insert e = Written →
  let details := payment_details (voice_payload id) "1" (ce_now e) in
  let w' := world_after (transcribe_audio (Some filename) draws e) w in
  answer_of (transcribe_audio (Some filename) draws e) w
  = Return (MessageBody "Payment created and pending condition"
              (set_invoiceId (Some id) details)) 201
  ∧ INVOICE_DB w' !! id = Some (set_invoiceId (Some id) details)
  ∧ (∃ file, DB_FILE w' = Some file ∧ file !! id = Some details)
  ∧ ¬ mirrored w'
  ∧ INVOICE_DB (world_after load_database w') !! id = Some details.
Proof.
  intros Hf Hid Hv Hup Hsave details w'. subst w'.
  unfold answer_of, world_after at 1 2 3 5, mirrored.
  rewrite (voice_create_created _ _ _ _ _ Hf Hid Hv Hup). fold details.
  cbn [fst snd INVOICE_DB DB_FILE]. rewrite Hsave. cbn [written].
  split_and!.
  - done.
  - apply lookup_insert_eq.
  - eexists. split; [done|]. apply lookup_insert_eq.
  - intros [= Heq].
    assert (<[id := details]> (INVOICE_DB w) !! id
            = <[id := set_invoiceId (Some id) details]> (INVOICE_DB w) !! id)
      as Hlook by (by rewrite Heq).
    rewrite !lookup_insert_eq in Hlook. by injection Hlook.
  - unfold world_after, load_database. cbn [fst snd INVOICE_DB DB_FILE default].
    apply lookup_insert_eq.
Qed.

End AiRuns.

Section AiHandlers.
Context {F : PyFloat}.
Import Ai.

(** X6: a signal whose payment call fails is answered 500 and leaves the
    store as it was, the invoice still MONITORING; a later signal whose
    call succeeds is answered 200 and makes the invoice PAID with the
    fields of the executor's reply. *)
Theorem failed_payment_can_be_retried (id : string) (inv : invoice)
    (e1 e2 : trigger_env) (w : world) (json : option string * option string) :
  id ≠ "" → INVOICE_DB w !! id = Some inv → status_of inv = MONITORING →
  payment_succeeds e1 = None → payment_succeeds e2 = Some json →
  let w1 := world_after (trigger_payment (Some id) e1) w in
  (answer_of (trigger_payment (Some id) e1) w).2 = 500
  ∧ INVOICE_DB w1 = INVOICE_DB w
  ∧ answer_of (trigger_payment (Some id) e2) w1
    = (StatusBody "Condition met and payment triggered", 200)
  ∧ INVOICE_DB (world_after (trigger_payment (Some id) e2) w1) !! id
    = Some (set_transactionHash json.2
              (set_paidAt json.1 (set_status PAID inv))).
Proof.
  intros Hid Hdb Hst Hko Hok.
  destruct (trigger_payment_monitoring_failed _ _ _ _ Hid Hdb Hst Hko)
    as [error Heq].
  unfold world_after, answer_of. rewrite Heq. cbn [fst snd INVOICE_DB].
  split_and!; [done..| |].
  - erewrite trigger_payment_monitoring_paid; [done|done|exact Hdb|done|done].
  - erewrite trigger_payment_monitoring_paid; [|done|exact Hdb|done|done].
    cbn [fst snd INVOICE_DB]. apply lookup_insert_eq.
Qed.

(** X7: a monitoring request without an id is answered 400, and one for an
    id that has no record is answered 404; in both cases the world is left
    as it was and nothing is sent, also when the id has been signalled
    before. *)
Theorem process_invoice_rejects_unknown (x : option string) (e : monitor_env)
    (w : world) :
  (∀ id, truthy x = Some id → INVOICE_DB w !! id = None) →
  process_invoice x e w
  = (match truthy x with
     | None => (ErrorBody "invoiceId is required", 400)
     | Some _ => (ErrorBody "Invoice not found. Run Step 1 first.", 404)
     end, w, []).
Proof.
  intros Hdb. destruct (truthy x) as [id|] eqn:Hx.
  - specialize (Hdb id eq_refl). apply truthy_inv in Hx as [-> Hid].
    by apply process_invoice_absent.
  - by apply process_invoice_no_id.
Qed.

(** X8: for an invoice that has not been signalled, a monitoring request
    is answered 200 and leaves the record in MONITORING if it was Pending
    and as it was otherwise; a second monitoring request is answered the
    same and changes nothing at all. *)
Theorem process_invoice_idempotent (id : string) (inv : invoice)
    (e1 e2 : monitor_env) (w : world) :
  id ≠ "" → INVOICE_DB w !! id = Some inv →
  id ∉ shipping_confirmation_registry w →
  let w1 := world_after (process_invoice (Some id) e1) w in
  answer_of (process_invoice (Some id) e1) w
  = (StatusBody "Invoice is now being monitored.", 200)
  ∧ INVOICE_DB w1 !! id
    = Some (if decide (status_of inv = Pending)
            then set_status MONITORING inv else inv)
  ∧ process_invoice (Some id) e2 w1
    = ((StatusBody "Invoice is now being monitored.", 200), w1, []).
Proof.
  intros Hid Hdb Hreg. unfold world_after, answer_of.
  rewrite (process_invoice_found _ _ _ _ Hid Hdb). cbv zeta.
  rewrite decide_False by done. cbn [fst snd].
  set (w1 := world_after (begin_monitoring id inv (me_save_monitoring e1)) w).
  assert (id ∉ shipping_confirmation_registry w1) as Hreg1.
  { unfold w1. by rewrite begin_monitoring_registry. }
  assert (∃ inv1, INVOICE_DB w1 !! id = Some inv1 ∧ status_of inv1 ≠ Pending
                  ∧ inv1 = if decide (status_of inv = Pending)
                           then set_status MONITORING inv else inv)
    as (inv1 & Hdb1 & Hst1 & Hinv1).
  { unfold w1, world_after. case_decide as Hst.
    - rewrite (begin_monitoring_pending _ _ _ _ Hdb Hst). cbn [fst snd INVOICE_DB].
      eexists. by rewrite lookup_insert_eq.
    - rewrite (begin_monitoring_later _ _ _ _ Hst). cbn [fst snd]. eauto. }
  split_and!; [done|by rewrite Hdb1, Hinv1|].
  rewrite (process_invoice_found _ _ _ _ Hid Hdb1). cbv zeta.
  rewrite decide_False by done. unfold world_after, trace_of.
  by rewrite (begin_monitoring_later _ _ _ _ Hst1).
Qed.

(** X9: a monitoring request for an invoice that has been signalled and is
    already PAID is answered 200 "paid immediately" although nothing is
    sent; for one that is EXECUTING it is answered 500 "payment execution
    failed" although no call was made.  In both cases the store and the
    file are left as they were. *)
Theorem process_invoice_preconfirmed_settled (id : string) (inv : invoice)
    (e : monitor_env) (w : world) :
  id ≠ "" → INVOICE_DB w !! id = Some inv →
  id ∈ shipping_confirmation_registry w →
  status_of inv = PAID ∨ status_of inv = EXECUTING →
  process_invoice (Some id) e w
  = (if decide (status_of inv = PAID) then
       (StatusIdBody "Invoice was pre-confirmed and paid immediately." id, 200)
     else
       (ErrorBody "Invoice was pre-confirmed, but payment execution failed.",
        500),
     confirmed id w, []).
Proof.
  intros Hid Hdb Hreg Hst.
  rewrite (process_invoice_found _ _ _ _ Hid Hdb). cbv zeta.
  rewrite decide_True by done. unfold world_after, trace_of.
  rewrite begin_monitoring_later by (destruct Hst; congruence). cbn [fst snd].
  destruct Hst as [Hst|Hst].
  - rewrite (trigger_payment_paid _ _ _ _ Hid Hdb Hst). cbn [fst snd].
    by rewrite decide_True, decide_True.
  - rewrite (trigger_payment_executing _ _ _ _ Hid Hdb Hst). cbn [fst snd].
    rewrite (decide_False (P := 202 = 200)) by done.
    rewrite decide_False by congruence. done.
Qed.

(** X10: a creation without an id (the key is missing or the string is
    empty) is answered 400 before the balance is asked for: the world is
    left as it was and nothing is sent. *)
Theorem creation_without_id_rejected (p : payload) (e : create_env) (w : world) :
  p_invoiceId p = None ∨ p_invoiceId p = Some "" →
  create_payment_logic p e w
  = (Return (ErrorBody "invoiceId is required") 400, w, []).
Proof. intros Hp%truthy_None. by apply create_payment_logic_no_id. Qed.

(** X11: a creation that goes through is answered 201 with the record it
    stored: Pending, without payment fields, with the amount and condition
    of the payload or the defaults "1" and "goods_shipped"; it sends the
    balance query and then the create call, with one save between them.
    Any later creation with the same id is answered 409 and changes
    nothing. *)
Theorem creation_then_duplicate (p : payload) (e : create_env) (w : world)
    (id : string) :
  p_invoiceId p = Some id → id ≠ "" → INVOICE_DB w !! id = None →
  (balance_verdict (default "1" (p_amount p)) (ce_balance e)).1 = true →
  upstream_failure (ce_create e) = None →
  let details :=
    {| amount := default "1" (p_amount p);
       recipientAddress := p_recipientAddress p;
       condition := default "goods_shipped" (p_condition p);
       status_of := Pending;
       transactionHash := None;
       paidAt := None;
       createdAt := ce_now e;
       invoiceId := None |} in
  let w1 := world_after (create_payment_logic p e) w in
  answer_of (create_payment_logic p e) w
  = Return (MessageBody "Payment created and pending condition" details) 201
  ∧ INVOICE_DB w1 = <[id := details]> (INVOICE_DB w)
  ∧ trace_of (create_payment_logic p e) w
    = [GetBalance; SaveDatabase (INVOICE_DB w1) (ce_save_insert e);
       CreateOnChain p]
  ∧ ∀ p' e', p_invoiceId p' = Some id →
      create_payment_logic p' e' w1
      = (Return (ErrorStatusBody "Invoice ID already exists." Pending) 409,
         w1, []).
Proof.
  intros Hp Hid Hdb Hv Hup details w1.
  assert (truthy (p_invoiceId p) = Some id) as Hx.
  { rewrite Hp. by apply truthy_Some. }
  subst w1. unfold world_after, answer_of, trace_of.
  rewrite (create_payment_logic_created _ _ _ _ Hx Hdb Hv Hup).
  cbn [fst snd INVOICE_DB]. split_and!; [done..|].
  intros p' e' Hp'.
  erewrite create_payment_logic_existing;
    [ | rewrite Hp'; by apply truthy_Some
      | cbn [INVOICE_DB]; apply lookup_insert_eq ].
  done.
Qed.

(** X12: the pre-check fails closed.  It calls the wallet solvent exactly
    when the balance query returns a balance, the amount is a number, and
    the balance is not below the amount plus 0.1; whenever it reports a
    balance other than the integer 0, that balance is the one the executor
    returned.  The check sends the one balance query and leaves the world
    as it was. *)
Theorem solvency_guard_fails_closed (amount : string)
    (response : outcome balance_reply) (w : world) :
  ((balance_verdict amount response).1 = true
   ↔ ∃ b a, balance_query response = Some b
            ∧ float_of_str amount = Some a
            ∧ float_lt b (float_add a float_0_1) = false)
  ∧ (∀ b, (balance_verdict amount response).2 = FloatBalance b →
          balance_query response = Some b)
  ∧ check_backend_balance amount response w
    = (balance_verdict amount response, w, [GetBalance]).
Proof.
  unfold balance_verdict, balance_query. split_and!.
  - destruct response as [r|msg]; [|split; [done|by intros (?&?&?&_)]].
    case_decide; [|split; [done|by intros (?&?&?&_)]].
    destruct (balance_value r) as [b|]; [|split; [done|by intros (?&?&?&_)]].
    destruct (float_of_str amount) as [a|];
      [|split; [done|by intros (?&?&_&?&_)]].
    destruct (float_lt b (float_add a float_0_1)) eqn:Hlt; split; try done.
    + intros (b' & a' & [= <-] & [= <-] & Hlt'). congruence.
    + intros _. by exists b, a.
  - intros b. destruct response as [r|msg]; [|done].
    case_decide; [|done].
    destruct (balance_value r) as [b'|]; [|done].
    destruct (float_of_str amount) as [a|]; [|done].
    by destruct (float_lt b' (float_add a float_0_1)); intros [= ->].
  - done.
Qed.

(** X13: the create call is only sent for the payload of the request, for
    a non-empty id that is not in the store, and after a balance query on
    which the pre-check has passed. *)
Theorem create_call_only_after_precheck (p p' : payload) (e : create_env)
    (w : world) :
  CreateOnChain p' ∈ trace_of (create_payment_logic p e) w →
  p' = p
  ∧ (∃ id, truthy (p_invoiceId p) = Some id ∧ INVOICE_DB w !! id = None)
  ∧ (balance_verdict (default "1" (p_amount p)) (ce_balance e)).1 = true
  ∧ trace_of (create_payment_logic p e) w !! 0%nat = Some GetBalance.
Proof.
  unfold trace_of.
  destruct (truthy (p_invoiceId p)) as [id|] eqn:Hx.
  2:{ rewrite (create_payment_logic_no_id _ _ _ Hx). cbn [snd].
      by intros ?%elem_of_nil. }
  destruct (INVOICE_DB w !! id) as [inv|] eqn:Hdb.
  { rewrite (create_payment_logic_existing _ _ _ _ _ Hx Hdb). cbn [snd].
    by intros ?%elem_of_nil. }
  destruct (balance_verdict (default "1" (p_amount p)) (ce_balance e)).1 eqn:Hv.
  - destruct (upstream_failure (ce_create e)) as [upstream|] eqn:Hup.
    + destruct (create_payment_logic_rolled_back _ _ _ _ _ Hx Hdb Hv Hup)
        as (error & _ & ->).
      cbn [snd]. rewrite !elem_of_cons, elem_of_nil.
      intros [?|[?|[[= ->]|[?|[]]]]]; try done. eauto 6.
    + rewrite (create_payment_logic_created _ _ _ _ Hx Hdb Hv Hup).
      cbn [snd]. rewrite !elem_of_cons, elem_of_nil.
      intros [?|[?|[[= ->]|[]]]]; try done. eauto 6.
  - rewrite (create_payment_logic_insolvent _ _ _ _ Hx Hdb Hv). cbn [snd].
    rewrite !elem_of_cons, elem_of_nil. intros [?|[]]; done.
Qed.

(** *** The id of a voice creation *)

(** X14: the id that the voice endpoint settles on is not in the store, is
    not empty, and is INV-VOICE- followed by one of the numbers drawn; so
    the creation the endpoint then asks for is never answered 400 or
    409. *)
Theorem voice_invoice_id_is_fresh (draws : list Z) (e : create_env) (w : world)
    (id : string) :
  voice_invoice_id draws (INVOICE_DB w) = Some id →
  INVOICE_DB w !! id = None
  ∧ id ≠ ""
  ∧ (∃ n, n ∈ draws ∧ id = voice_id n)
  ∧ ∀ b code, answer_of (create_payment_logic (voice_payload id) e) w
              = Return b code → code ≠ 400 ∧ code ≠ 409.
Proof.
  intros (Hdb & n & Hn & ->)%voice_invoice_id_spec.
  pose proof (voice_id_not_empty n) as Hid.
  split_and!; [done|done|by eauto|].
  assert (truthy (p_invoiceId (voice_payload (voice_id n))) = Some (voice_id n))
    as Hx by (by apply truthy_Some).
  intros b code. unfold answer_of.
  destruct (balance_verdict (default "1" (p_amount (voice_payload (voice_id n))))
              (ce_balance e)).1 eqn:Hv.
  - destruct (upstream_failure (ce_create e)) as [upstream|] eqn:Hup.
    + destruct (create_payment_logic_rolled_back _ _ _ _ _ Hx Hdb Hv Hup)
        as (error & _ & ->).
      cbn [fst]. by intros [= <- <-].
    + rewrite (create_payment_logic_created _ _ _ _ Hx Hdb Hv Hup).
      cbn [fst]. by intros [= <- <-].
  - rewrite (create_payment_logic_insolvent _ _ _ _ Hx Hdb Hv). cbn [fst].
    destruct (float_of_str _); [|done]. by intros [= <- <-].
Qed.

(** X15: when all the ids from INV-VOICE-500 to INV-VOICE-999 are in the
    store, the loop of the voice endpoint finds no id, whatever numbers in
    that range the generator gives: the request does not return. *)
Theorem voice_invoice_id_exhausted (draws : list Z) (db : gmap string invoice) :
  (∀ n, 500 ≤ n ≤ 999 → is_Some (db !! voice_id n)) →
  Forall (λ n, 500 ≤ n ≤ 999) draws →
  voice_invoice_id draws db = None.
Proof.
  intros Hfull. induction 1 as [|n draws Hn _ IH]; [done|].
  cbn [voice_invoice_id]. by rewrite decide_True by auto.
Qed.

End AiHandlers.

(** * Further properties of [src/ai-agent/agent.py] *)

Section AiAgentRuns.
Context {U : PyUnicode}.
Import AiAgent.

Ltac vrun :=
  unfold mock_shipping_confirmation, transcribe_audio, execute_payment,
    extract_invoice_id_from_text, drop_temp, set_state, del_state,
    shipping_add, get_shipping, get_registry, set_registry, emit,
    world_after, trace_of, answer_of;
  unfold mbind, M_bind, bind, mret, M_ret, ret;
  cbn [fst snd app invoice_registry shipping_confirmation_registry].

Lemma all_digits_not_temp k t : all_digits k = true → k ≠ "temp_" +:+ t.
Proof. intros Hk ->. by rewrite all_digits_temp in Hk. Qed.

Lemma hears_digits e id : hears e id → id ≠ "" ∧ all_digits id = true.
Proof.
  intros (_ & _ & rt & _ & <- & Hid). split; [done|]. apply all_digits_digits_only.
Qed.

Lemma hears_unique e id id' : hears e id → hears e id' → id = id'.
Proof.
  intros (_ & _ & rt & Hg & <- & _) (_ & _ & rt' & Hg' & <- & _). congruence.
Qed.

Lemma settled_temp_fresh w :
  settled w →
  invoice_registry w !! ("temp_" +:+ pretty (size (invoice_registry w))) = None.
Proof.
  intros Hw. destruct (invoice_registry w !! _) as [st|] eqn:Hk; [|done].
  destruct (Hw _ _ Hk) as (_ & Hne & Hd).
  by apply all_digits_not_temp with (t := pretty (size (invoice_registry w))) in Hd.
Qed.

(** *** [execute_payment] *)

Lemma execute_payment_unpaid_eq id backend w :
  invoice_registry w !! id ≠ Some PAID →
  let ok := accepted backend in
  execute_payment id backend w
  = (ok,
     {| invoice_registry :=
          <[id := if ok then PAID else MONITORING]> (invoice_registry w);
        shipping_confirmation_registry := shipping_confirmation_registry w |},
     [TriggerPayment id]).
Proof.
  intros Hreg ok. subst ok. vrun. rewrite decide_False by done. vrun.
  destruct backend as [status_code|msg]; cbn [accepted]; vrun.
  - case_decide as Hc; vrun.
    + rewrite bool_decide_eq_true_2 by done. by rewrite insert_insert_eq.
    + rewrite bool_decide_eq_false_2 by done. by rewrite insert_insert_eq.
  - by rewrite insert_insert_eq.
Qed.

Lemma execute_payment_paid_eq id backend w :
  invoice_registry w !! id = Some PAID →
  execute_payment id backend w = (true, w, []).
Proof. intros Hreg. vrun. by rewrite decide_True. Qed.

(** *** [transcribe_audio], case by case *)

Lemma transcribe_audio_cases e w :
  invoice_registry w !! ("temp_" +:+ pretty (size (invoice_registry w))) = None →
  (∃ b code t,
     transcribe_audio e w = ((b, code), w, t)
     ∧ (∀ id, TriggerPayment id ∉ t)
     ∧ (code = 400 ∨ code = 422
        ∨ (code = 500 ∧ ∃ msg, tr_speech e = SpeechRaised msg)
        ∨ (code = 200 ∧ ∃ id, hears e id
                              ∧ invoice_registry w !! id = Some PAID)))
  ∨ (∃ id text,
       hears e id ∧ invoice_registry w !! id ≠ Some PAID
       ∧ (id ∉ shipping_confirmation_registry w)
       ∧ transcribe_audio e w
         = (([("status", "Invoice created and is now being monitored.");
              ("invoiceId", id); ("transcribedText", text);
              ("invoiceState", "MONITORING")], 201),
            {| invoice_registry := <[id := MONITORING]> (invoice_registry w);
               shipping_confirmation_registry :=
                 shipping_confirmation_registry w |},
            [SpeechToText; GenerateContent text]))
  ∨ (∃ id text b,
       hears e id ∧ invoice_registry w !! id ≠ Some PAID
       ∧ id ∈ shipping_confirmation_registry w
       ∧ let ok := accepted (tr_backend e) in
         transcribe_audio e w
         = ((b, if ok then 200 else 500),
            {| invoice_registry :=
                 <[id := if ok then PAID else MONITORING]> (invoice_registry w);
               shipping_confirmation_registry :=
                 shipping_confirmation_registry w |},
            [SpeechToText; GenerateContent text; TriggerPayment id])).
Proof.
  intros Htemp. destruct w as [reg ship]. cbn [invoice_registry] in *.
  set (temp_id := "temp_" +:+ pretty (size reg)) in *.
  assert (delete temp_id (<[temp_id := PROCESSING]> reg) = reg) as Hclean.
  { rewrite delete_insert_eq. by apply delete_id. }
  assert (∀ t : list event, (∀ id, TriggerPayment id ∉ SpeechToText :: t) ↔
                            (∀ id, TriggerPayment id ∉ t)) as Hskip.
  { intros t. split; intros H id Hin.
    - apply (H id). apply elem_of_cons. by right.
    - apply elem_of_cons in Hin as [?|?]; [done|]. by apply (H id). }
  unfold transcribe_audio.
  destruct (tr_audio e) as [filename|] eqn:Ha.
  2:{ left. do 3 eexists. split; [done|]. split; [|by left].
      intros id. apply not_elem_of_nil. }
  case_decide as Hf.
  { left. do 3 eexists. split; [done|]. split; [|by left].
    intros id. apply not_elem_of_nil. }
  vrun. fold temp_id.
  destruct (tr_speech e) as [text|msg|msg] eqn:Hs; vrun.
  - case_decide as Ht; vrun.
    { left. rewrite Hclean. do 3 eexists. split; [done|]. split; [|by left].
      apply Hskip. intros id. apply not_elem_of_nil. }
    destruct (tr_gemini e) as [rt|msg] eqn:Hg; vrun.
    2:{ left. rewrite Hclean. do 3 eexists. split; [done|]. split; [|by left].
        apply Hskip. intros id [?|?%elem_of_nil]%elem_of_cons; done. }
    case_decide as Hd; vrun.
    { left. rewrite Hclean. do 3 eexists. split; [done|]. split; [|by left].
      apply Hskip. intros id [?|?%elem_of_nil]%elem_of_cons; done. }
    assert (hears e (digits_only rt)) as Hhears.
    { split_and!; [by eauto|by eauto|]. exists rt. by rewrite Hg. }
    rewrite Hclean. case_decide as Hpaid; vrun.
    { left. do 3 eexists. split; [done|]. split.
      - apply Hskip. intros id [?|?%elem_of_nil]%elem_of_cons; done.
      - do 3 right. split; [done|]. eauto. }
    case_decide as Hship; vrun.
    + right. right. rewrite decide_False by done. vrun.
      destruct (tr_backend e) as [status_code|msg] eqn:Hb; cbn [accepted]; vrun.
      * case_decide as Hc; vrun.
        -- rewrite insert_insert_eq. do 3 eexists.
           split_and!; [done..|]. cbv zeta.
           rewrite bool_decide_eq_true_2 by done. done.
        -- rewrite insert_insert_eq. do 3 eexists.
           split_and!; [done..|]. cbv zeta.
           rewrite bool_decide_eq_false_2 by done. done.
      * rewrite insert_insert_eq. do 3 eexists.
        split_and!; [done..|]. done.
    + right. left. do 2 eexists. split_and!; done.
  - left. assert (is_Some (<[temp_id:=PROCESSING]> reg !! temp_id)) as Hin.
    { rewrite lookup_insert_eq. eauto. }
    rewrite decide_True by done. vrun. rewrite Hclean.
    do 3 eexists. split; [done|]. split; [|by right; left].
    apply Hskip. intros id. apply not_elem_of_nil.
  - left. assert (is_Some (<[temp_id:=PROCESSING]> reg !! temp_id)) as Hin.
    { rewrite lookup_insert_eq. eauto. }
    rewrite decide_True by done. vrun. rewrite Hclean.
    do 3 eexists. split; [done|]. split; [|by right; right; left; eauto].
    apply Hskip. intros id. apply not_elem_of_nil.
Qed.


(** *** The signal endpoint on the invoice registry *)

Lemma voice_signal_cases x backend w :
  (∃ r, mock_shipping_confirmation x backend w = (r, w, [])
        ∧ truthy x = None ∧ r.2 = 400)
  ∨ (∃ id r, truthy x = Some id
             ∧ invoice_registry w !! id ≠ Some MONITORING
             ∧ mock_shipping_confirmation x backend w = (r, confirmed id w, [])
             ∧ match invoice_registry w !! id with
               | None | Some PAID => r.2 = 200
               | Some EXECUTING => r.2 = 202
               | _ => r.2 = 409
               end)
  ∨ (∃ id r, truthy x = Some id
             ∧ invoice_registry w !! id = Some MONITORING
             ∧ mock_shipping_confirmation x backend w
               = (r,
                  {| invoice_registry :=
                       <[id := if accepted backend then PAID else MONITORING]>
                         (invoice_registry w);
                     shipping_confirmation_registry :=
                       {[id]} ∪ shipping_confirmation_registry w |},
                  [TriggerPayment id])
             ∧ r.2 = if accepted backend then 200 else 500).
Proof.
  destruct (truthy x) as [id|] eqn:Hx.
  2:{ left. eexists. by rewrite (voice_signal_no_id _ _ _ Hx). }
  right. pose proof Hx as Hx'. apply truthy_inv in Hx' as [-> Hid].
  destruct (invoice_registry w !! id) as [[]|] eqn:Hreg.
  - left. exists id. eexists. rewrite (voice_signal_processing _ _ _ Hid Hreg).
    split_and!; [done|by rewrite Hreg|done|by rewrite Hreg].
  - right. exists id. vrun. rewrite Hx. vrun. rewrite Hreg. vrun. rewrite Hreg.
    rewrite decide_False by done. vrun.
    destruct backend as [status_code|msg]; cbn [accepted]; vrun.
    + case_decide as Hc; vrun.
      * rewrite bool_decide_eq_true_2 by done. rewrite insert_insert_eq.
        eexists. split_and!; done.
      * rewrite bool_decide_eq_false_2 by done. rewrite insert_insert_eq.
        eexists. split_and!; done.
    + rewrite insert_insert_eq. eexists. split_and!; done.
  - left. exists id. eexists. rewrite (voice_signal_executing _ _ _ Hid Hreg).
    split_and!; [done|by rewrite Hreg|done|by rewrite Hreg].
  - left. exists id. eexists. rewrite (voice_signal_paid _ _ _ Hid Hreg).
    split_and!; [done|by rewrite Hreg|done|by rewrite Hreg].
  - left. exists id. eexists. rewrite (voice_signal_absent _ _ _ Hid Hreg).
    split_and!; [done|by rewrite Hreg|done|by rewrite Hreg].
Qed.

(** *** The registry between two requests *)

Lemma settled_insert w id st :
  settled w → id ≠ "" → all_digits id = true → st = MONITORING ∨ st = PAID →
  settled {| invoice_registry := <[id := st]> (invoice_registry w);
             shipping_confirmation_registry := shipping_confirmation_registry w |}.
Proof.
  intros Hw Hid Hd Hst k st' Hk. cbn [invoice_registry] in Hk.
  rewrite lookup_insert in Hk. case_decide; [|by apply Hw].
  injection Hk as <-. by subst.
Qed.

Lemma handle_settled r w : settled w → settled (world_after (handle r) w).
Proof.
  intros Hw. unfold world_after. destruct r as [e|x backend]; cbn [handle].
  - destruct (transcribe_audio_cases e w (settled_temp_fresh w Hw))
      as [(b & code & t & -> & _)|[(id & text & Hh & _ & _ & ->)
                                  |(id & text & b & Hh & _ & _ & ->)]].
    + done.
    + destruct (hears_digits _ _ Hh). apply settled_insert; auto.
    + destruct (hears_digits _ _ Hh). cbn [fst snd].
      apply settled_insert; [done..|]. destruct (accepted _); auto.
  - destruct (voice_signal_cases x backend w)
      as [(r & -> & _)|[(id & r & _ & _ & -> & _)|(id & r & _ & Hreg & -> & _)]].
    + done.
    + done.
    + cbn [fst snd]. destruct (Hw _ _ Hreg) as (_ & Hid & Hd).
      intros k st Hk. cbn [invoice_registry] in Hk.
      rewrite lookup_insert in Hk. case_decide; [|by apply Hw].
      injection Hk as <-. subst. split_and!; [|done..].
      destruct (accepted _); auto.
Qed.

Lemma voice_world_after_serve_cons r rs w :
  world_after (serve (r :: rs)) w
  = world_after (serve rs) (world_after (handle r) w).
Proof. unfold world_after at 1. by rewrite voice_serve_cons. Qed.

Lemma voice_trace_of_serve_cons r rs w :
  trace_of (serve (r :: rs)) w
  = trace_of (handle r) w ++ trace_of (serve rs) (world_after (handle r) w).
Proof. unfold trace_of at 1. by rewrite voice_serve_cons. Qed.

Lemma serve_settled rs w : settled w → settled (world_after (serve rs) w).
Proof.
  revert w. induction rs as [|r rs IH]; intros w Hw; [done|].
  rewrite voice_world_after_serve_cons. by apply IH, handle_settled.
Qed.

Lemma handle_paid_final r w id :
  settled w → invoice_registry w !! id = Some PAID →
  invoice_registry (world_after (handle r) w) !! id = Some PAID
  ∧ TriggerPayment id ∉ trace_of (handle r) w.
Proof.
  intros Hw Hpaid. unfold world_after, trace_of.
  destruct r as [e|x backend]; cbn [handle].
  - destruct (transcribe_audio_cases e w (settled_temp_fresh w Hw))
      as [(b & code & t & -> & Ht & _)|[(id' & text & _ & Hne & _ & ->)
                                       |(id' & text & b & _ & Hne & _ & ->)]];
      cbn [fst snd invoice_registry].
    + done.
    + assert (id' ≠ id) by congruence. rewrite lookup_insert_ne by done.
      split; [done|]. intros [?|[?|?%elem_of_nil]%elem_of_cons]%elem_of_cons; done.
    + assert (id' ≠ id) by congruence. rewrite lookup_insert_ne by done.
      split; [done|].
      intros [?|[?|[?|?%elem_of_nil]%elem_of_cons]%elem_of_cons]%elem_of_cons;
        congruence.
  - destruct (voice_signal_cases x backend w)
      as [(r & -> & _)|[(id' & r & _ & _ & -> & _)|(id' & r & _ & Hreg & -> & _)]];
      cbn [fst snd invoice_registry confirmed].
    + split; [done|apply not_elem_of_nil].
    + split; [done|apply not_elem_of_nil].
    + assert (id' ≠ id) by congruence. rewrite lookup_insert_ne by done.
      split; [done|]. intros [?|?%elem_of_nil]%elem_of_cons; congruence.
Qed.

Lemma serve_paid_final rs w id :
  settled w → invoice_registry w !! id = Some PAID →
  invoice_registry (world_after (serve rs) w) !! id = Some PAID
  ∧ TriggerPayment id ∉ trace_of (serve rs) w.
Proof.
  revert w. induction rs as [|r rs IH]; intros w Hw Hpaid.
  - split; [done|]. unfold trace_of, serve, mret, M_ret, ret. cbn [snd].
    apply not_elem_of_nil.
  - rewrite voice_world_after_serve_cons, voice_trace_of_serve_cons.
    destruct (handle_paid_final r w id Hw Hpaid) as [H1 H2].
    destruct (IH _ (handle_settled r w Hw) H1) as [H3 H4].
    split; [done|]. by intros [?|?]%elem_of_app.
Qed.

Lemma voice_serve_shipping_grows rs w :
  shipping_confirmation_registry w
  ⊆ shipping_confirmation_registry (world_after (serve rs) w).
Proof.
  revert w. induction rs as [|r rs IH]; intros w; [done|].
  rewrite voice_world_after_serve_cons. etrans; [|apply IH].
  destruct r as [e|x backend]; cbn [handle].
  - by rewrite transcribe_audio_registry.
  - rewrite voice_signal_registry. destruct (truthy x); [|done].
    apply union_subseteq_r.
Qed.


Lemma voice_signal_monitoring_paid_any id backend w :
  id ≠ "" → invoice_registry w !! id = Some MONITORING →
  accepted backend = true →
  mock_shipping_confirmation (Some id) backend w
  = (([("status", "Condition met and payment triggered");
       ("invoiceId", id); ("invoiceState", "PAID")], 200),
     {| invoice_registry := <[id := PAID]> (invoice_registry w);
        shipping_confirmation_registry :=
          {[id]} ∪ shipping_confirmation_registry w |},
     [TriggerPayment id]).
Proof.
  intros Hid Hreg Hok. destruct backend as [status_code|msg]; [|done].
  cbn in Hok. apply bool_decide_eq_true in Hok as ->.
  by apply voice_signal_monitoring_paid.
Qed.

(** *** A voice command that is understood *)

Lemma transcribe_audio_heard e w id :
  invoice_registry w !! ("temp_" +:+ pretty (size (invoice_registry w))) = None →
  hears e id →
  ∃ text,
    tr_speech e = Transcribed text
    ∧ transcribe_audio e w
      = if decide (invoice_registry w !! id = Some PAID) then
          (([("status", "Invoice was already paid."); ("invoiceId", id);
             ("invoiceState", "PAID")], 200), w,
           [SpeechToText; GenerateContent text])
        else if decide (id ∈ shipping_confirmation_registry w) then
          (if accepted (tr_backend e) then
             ([("status", "Invoice was pre-confirmed and paid immediately.");
               ("invoiceId", id); ("transcribedText", text);
               ("invoiceState", "PAID")], 200)
           else
             ([("error",
                "Invoice was pre-confirmed, but payment execution failed.");
               ("invoiceId", id); ("invoiceState", "MONITORING")], 500),
           {| invoice_registry :=
                <[id := if accepted (tr_backend e) then PAID else MONITORING]>
                  (invoice_registry w);
              shipping_confirmation_registry :=
                shipping_confirmation_registry w |},
           [SpeechToText; GenerateContent text; TriggerPayment id])
        else
          (([("status", "Invoice created and is now being monitored.");
             ("invoiceId", id); ("transcribedText", text);
             ("invoiceState", "MONITORING")], 201),
           {| invoice_registry := <[id := MONITORING]> (invoice_registry w);
              shipping_confirmation_registry :=
                shipping_confirmation_registry w |},
           [SpeechToText; GenerateContent text]).
Proof.
  intros Htemp ((filename & Ha & Hf) & (text & Hs & Ht) & (rt & Hg & Hd & Hid)).
  exists text. split; [done|].
  destruct w as [reg ship]. cbn [invoice_registry shipping_confirmation_registry] in *.
  set (temp_id := "temp_" +:+ pretty (size reg)) in *.
  assert (delete temp_id (<[temp_id := PROCESSING]> reg) = reg) as Hclean.
  { rewrite delete_insert_eq. by apply delete_id. }
  unfold transcribe_audio. rewrite Ha. rewrite decide_False by done.
  vrun. fold temp_id. rewrite Hs. rewrite decide_False by done. vrun.
  rewrite Hg, Hd. rewrite (decide_False (P := id = "")) by done. vrun.
  rewrite Hclean. case_decide as Hpaid; vrun; [done|].
  case_decide as Hship; vrun; [|done].
  rewrite decide_False by done. vrun.
  destruct (tr_backend e) as [status_code|msg]; cbn [accepted]; vrun.
  - case_decide as Hc; vrun.
    + rewrite bool_decide_eq_true_2 by done. by rewrite insert_insert_eq.
    + rewrite bool_decide_eq_false_2 by done. by rewrite insert_insert_eq.
  - by rewrite insert_insert_eq.
Qed.

(** X16: [execute_payment] returns True exactly when the invoice was
    already PAID or the executor answers 200; it leaves the invoice PAID
    when it returns True and MONITORING when it returns False, never
    EXECUTING, touches no other key and no confirmation, and sends the
    trigger call unless the invoice was already PAID. *)
Theorem execute_payment_settles (id : string) (backend : outcome Z) (w : world) :
  let r := execute_payment id backend w in
  let paid_before := bool_decide (invoice_registry w !! id = Some PAID) in
  r.1.1 = paid_before || accepted backend
  ∧ invoice_registry r.1.2 !! id = Some (if r.1.1 then PAID else MONITORING)
  ∧ (∀ k, k ≠ id → invoice_registry r.1.2 !! k = invoice_registry w !! k)
  ∧ shipping_confirmation_registry r.1.2 = shipping_confirmation_registry w
  ∧ r.2 = if paid_before then [] else [TriggerPayment id].
Proof.
  cbv zeta. destruct (decide (invoice_registry w !! id = Some PAID)) as [Hp|Hp].
  - rewrite (execute_payment_paid_eq _ _ _ Hp), bool_decide_eq_true_2 by done.
    cbn [fst snd orb]. split_and!; done.
  - rewrite (execute_payment_unpaid_eq _ _ _ Hp), bool_decide_eq_false_2 by done.
    cbn [fst snd orb invoice_registry shipping_confirmation_registry].
    split_and!; [done|apply lookup_insert_eq| |done|done].
    intros k Hk. by rewrite lookup_insert_ne.
Qed.

(** X17: an invoice id that [extract_invoice_id_from_text] returns is never
    empty and holds only decimal digits, of ASCII or of any other script:
    it is what [re.sub] leaves of the model's reply when every character
    that is not a decimal digit is removed.  The extraction changes neither
    registry. *)
Theorem extracted_id_is_digits (text : string) (gemini : outcome string)
    (w : world) (id : string) :
  answer_of (extract_invoice_id_from_text text gemini) w = Some id →
  id ≠ "" ∧ all_digits id = true
  ∧ (∃ response_text, gemini = Replied response_text
                      ∧ id = digits_only response_text)
  ∧ world_after (extract_invoice_id_from_text text gemini) w = w.
Proof.
  vrun. destruct gemini as [rt|msg]; [|done].
  case_decide as Hd; [done|]. intros [= <-].
  split_and!; [done|apply all_digits_digits_only|by eauto|done].
Qed.

(** X18: if every key of the invoice registry is a non-empty string of
    decimal digits and every state is MONITORING or PAID, the same holds
    after any run of requests: no request leaves a temp_ key, a PROCESSING
    or an EXECUTING behind. *)
Theorem voice_registry_stays_settled (rs : list request) (w : world) :
  settled w → settled (world_after (serve rs) w).
Proof. apply serve_settled. Qed.

(** X19: on such a registry a signal is answered 200, 400 or 500: the
    answers 202 and 409 of the endpoint are not reached when requests are
    served one after the other. *)
Theorem voice_signal_never_conflicts (x : option string) (backend : outcome Z)
    (w : world) :
  settled w →
  let code := (answer_of (mock_shipping_confirmation x backend) w).2 in
  code = 200 ∨ code = 400 ∨ code = 500.
Proof.
  intros Hw. unfold answer_of.
  destruct (voice_signal_cases x backend w)
    as [(r & -> & _ & Hc)|[(id & r & _ & Hne & -> & Hc)|(id & r & _ & _ & -> & Hc)]];
    cbn [fst snd] in *.
  - auto.
  - destruct (invoice_registry w !! id) as [st|] eqn:Hreg; [|auto].
    destruct (Hw _ _ Hreg) as ([-> | ->] & _); [done|auto].
  - destruct (accepted backend); auto.
Qed.

(** X20: on such a registry an invoice that is PAID stays PAID over any
    run of requests, and no request of the run sends a trigger call for
    it. *)
Theorem voice_paid_is_final (rs : list request) (w : world) (id : string) :
  settled w → invoice_registry w !! id = Some PAID →
  invoice_registry (world_after (serve rs) w) !! id = Some PAID
  ∧ TriggerPayment id ∉ trace_of (serve rs) w.
Proof. apply serve_paid_final. Qed.

(** X21: for an invoice that is not yet known, a signal followed by the
    voice command and the voice command followed by a signal leave the same
    registries when the executor takes the payment: the invoice is PAID and
    its id confirmed. *)
Theorem voice_order_independent (id : string) (e : transcribe_env)
    (backend : outcome Z) (w : world) :
  settled w → hears e id →
  invoice_registry w !! id = None →
  id ∉ shipping_confirmation_registry w →
  accepted (tr_backend e) = true → accepted backend = true →
  let paid :=
    {| invoice_registry := <[id := PAID]> (invoice_registry w);
       shipping_confirmation_registry :=
         {[id]} ∪ shipping_confirmation_registry w |} in
  world_after (serve (signal_then_voice id e backend)) w = paid
  ∧ world_after (serve (voice_then_signal id e backend)) w = paid.
Proof.
  intros Hw Hh Hreg Hship Hok1 Hok2.
  destruct (hears_digits _ _ Hh) as [Hid Hd].
  pose proof (settled_temp_fresh w Hw) as Htemp.
  cbv zeta. split.
  - unfold signal_then_voice.
    rewrite !voice_world_after_serve_cons. unfold world_after. cbn [handle].
    rewrite (voice_signal_absent _ _ _ Hid Hreg). cbn [fst snd].
    destruct (transcribe_audio_heard e (confirmed id w) id Htemp Hh)
      as (text & _ & ->).
    cbn [invoice_registry shipping_confirmation_registry confirmed].
    rewrite decide_False by congruence.
    rewrite decide_True by apply confirmed_elem. rewrite Hok1.
    unfold serve, mret, M_ret, ret. cbn [fst snd]. done.
  - unfold voice_then_signal.
    rewrite !voice_world_after_serve_cons. unfold world_after. cbn [handle].
    destruct (transcribe_audio_heard e w id Htemp Hh) as (text & _ & ->).
    rewrite decide_False by congruence. rewrite decide_False by done.
    cbn [fst snd].
    rewrite voice_signal_monitoring_paid_any; [|done|apply lookup_insert_eq|done].
    unfold serve, mret, M_ret, ret. cbn [fst snd invoice_registry
      shipping_confirmation_registry].
    by rewrite insert_insert_eq.
Qed.

(** X22: on such a registry a voice command that is answered 400 or 422
    (no audio, no file name, silence, no invoice number, an audio format
    that cannot be read) leaves both registries as they were and sends no
    trigger call. *)
Theorem rejected_voice_command_changes_nothing (e : transcribe_env) (w : world) :
  settled w →
  (answer_of (transcribe_audio e) w).2 = 400
  ∨ (answer_of (transcribe_audio e) w).2 = 422 →
  world_after (transcribe_audio e) w = w
  ∧ ∀ id, TriggerPayment id ∉ trace_of (transcribe_audio e) w.
Proof.
  intros Hw. unfold answer_of, world_after, trace_of.
  destruct (transcribe_audio_cases e w (settled_temp_fresh w Hw))
    as [(b & code & t & -> & Ht & _)|[(id & text & _ & _ & _ & ->)
                                     |(id & text & b & _ & _ & _ & ->)]];
    cbn [fst snd].
  - done.
  - intros [|]; done.
  - destruct (accepted _); intros [|]; done.
Qed.

(** X23: on such a registry a voice command for an invoice that is neither
    PAID nor confirmed is answered 201 and leaves the invoice MONITORING,
    also when it was MONITORING already; it sends no trigger call and
    touches no other key. *)
Theorem voice_creation_starts_monitoring (e : transcribe_env) (w : world)
    (id : string) :
  settled w → hears e id →
  invoice_registry w !! id ≠ Some PAID →
  id ∉ shipping_confirmation_registry w →
  ∃ text,
    transcribe_audio e w
    = (([("status", "Invoice created and is now being monitored.");
         ("invoiceId", id); ("transcribedText", text);
         ("invoiceState", "MONITORING")], 201),
       {| invoice_registry := <[id := MONITORING]> (invoice_registry w);
          shipping_confirmation_registry := shipping_confirmation_registry w |},
       [SpeechToText; GenerateContent text]).
Proof.
  intros Hw Hh Hreg Hship.
  destruct (transcribe_audio_heard e w id (settled_temp_fresh w Hw) Hh)
    as (text & _ & Heq).
  exists text. by rewrite Heq, !decide_False.
Qed.

(** X24: a signal for a MONITORING invoice whose payment the executor does
    not take is answered 500 and leaves the invoice MONITORING; a later
    signal that the executor takes makes it PAID. *)
Theorem voice_failed_payment_can_be_retried (id : string) (backend : outcome Z)
    (w : world) :
  id ≠ "" → invoice_registry w !! id = Some MONITORING →
  accepted backend = false →
  let w1 := world_after (mock_shipping_confirmation (Some id) backend) w in
  (answer_of (mock_shipping_confirmation (Some id) backend) w).2 = 500
  ∧ invoice_registry w1 = invoice_registry w
  ∧ trace_of (mock_shipping_confirmation (Some id) backend) w
    = [TriggerPayment id]
  ∧ invoice_registry
      (world_after (mock_shipping_confirmation (Some id) (Replied 200)) w1) !! id
    = Some PAID.
Proof.
  intros Hid Hreg Hko.
  assert (backend ≠ Replied 200) as Hb.
  { intros ->. cbn in Hko. done. }
  unfold world_after, answer_of, trace_of.
  rewrite (voice_signal_monitoring_failed _ _ _ Hid Hreg Hb).
  cbn [fst snd invoice_registry confirmed]. split_and!; [done..|].
  rewrite voice_signal_monitoring_paid by done.
  cbn [fst snd invoice_registry]. apply lookup_insert_eq.
Qed.

(** X25: over any run of requests the registry of confirmed shippings only
    grows, and only the signal endpoint adds to it. *)
Theorem voice_confirmations_only_grow (rs : list request) (w : world) :
  shipping_confirmation_registry w
  ⊆ shipping_confirmation_registry (world_after (serve rs) w)
  ∧ ∀ e, shipping_confirmation_registry (world_after (transcribe_audio e) w)
         = shipping_confirmation_registry w.
Proof.
  split; [apply voice_serve_shipping_grows|].
  intros e. apply transcribe_audio_registry.
Qed.

End AiAgentRuns.

(** * The claims on concrete requests *)

#[local] Existing Instance Tenths.
#[local] Existing Instance Unicode_14.

(** C1 as first stated fails on the voice service: after a signal for
    991, which leaves no record under 991, the voice command for 991 sends
    the trigger call. *)
Lemma voice_creation_pays_without_monitoring :
  AiAgent.invoice_registry Demo.signalled_991 !! "991" = None
  ∧ AiAgent.trace_of (AiAgent.handle (AiAgent.Transcribe Demo.voice_991))
      Demo.signalled_991
    = [AiAgent.SpeechToText;
       AiAgent.GenerateContent "pay invoice nine nine one";
       AiAgent.TriggerPayment "991"].
Proof. split; vm_compute; reflexivity. Qed.

Lemma trigger_call_only_from_monitoring_witness :
  ∃ rs1 r rs2 w1,
    Ai.signal_last "INV-1" Demo.payload_INV_1
      (Demo.create_with Demo.wallet_50 Demo.created Ai.Written Ai.Written)
      Demo.monitors Demo.pays
    = rs1 ++ r :: rs2
    ∧ Ai.trigger_call r (Ai.world_after (Ai.serve rs1) (Ai.boot None))
      = Some ("INV-1", w1)
    ∧ Ai.status_in (Ai.INVOICE_DB w1) "INV-1" = Some Ai.MONITORING.
Proof.
  apply (proj1 (@trigger_call_only_from_monitoring Tenths Unicode_14)).
  apply (list_elem_of_lookup_2 _ 7%nat). vm_compute. reflexivity.
Defined.

Lemma unreadable_reply_moves_paid_back_witness :
  let rs := [Ai.ShippingConfirmation (Some "INV-1") Demo.pays_unreadably] in
  let seen :=
    (λ db, Ai.status_in db "INV-1") <$> Ai.observed rs
                                         (Demo.holding Ai.MONITORING) in
  seen = [Some Ai.MONITORING; Some Ai.EXECUTING; Some Ai.EXECUTING;
          Some Ai.PAID; Some Ai.MONITORING; Some Ai.MONITORING;
          Some Ai.MONITORING]
  ∧ Ai.chain Ai.edge (omap id seen) = false
  ∧ Ai.paid_is_final (omap id seen) = false
  ∧ Ai.answer_of (Ai.serve rs) (Demo.holding Ai.MONITORING)
    = [Ai.Return
         (Ai.ErrorBody "An unexpected error occurred: Expecting value") 500]
  ∧ Ai.INVOICE_DB (Ai.world_after (Ai.serve rs) (Demo.holding Ai.MONITORING))
    = Ai.INVOICE_DB (Demo.holding Ai.MONITORING)
  ∧ Ai.TriggerPayment "INV-1"
      ∈ Ai.trace_of (Ai.handle (Ai.ShippingConfirmation (Some "INV-1") Demo.pays))
          (Ai.world_after (Ai.serve rs) (Demo.holding Ai.MONITORING)).
Proof.
  apply (@unreadable_reply_moves_paid_back Tenths "INV-1"
           (Demo.invoice_INV_1 Ai.MONITORING) Demo.pays_unreadably Demo.pays
           (Demo.holding Ai.MONITORING) "Expecting value").
  - discriminate.
  - vm_compute. reflexivity.
  - reflexivity.
  - reflexivity.
Defined.

Lemma signal_order_independent_witness :
  let ce := Demo.create_with Demo.wallet_50 Demo.created Ai.Written Ai.Written in
  let before :=
    Ai.world_after
      (Ai.serve (Ai.signal_first "INV-1" Demo.payload_INV_1 ce Demo.monitors
                   Demo.pays)) (Ai.boot None) in
  let after :=
    Ai.world_after
      (Ai.serve (Ai.signal_last "INV-1" Demo.payload_INV_1 ce Demo.monitors
                   Demo.pays)) (Ai.boot None) in
  Ai.INVOICE_DB before = Ai.INVOICE_DB after
  ∧ Ai.shipping_confirmation_registry before
    = Ai.shipping_confirmation_registry after
  ∧ (∃ inv, Ai.INVOICE_DB before !! "INV-1" = Some inv
            ∧ Ai.status_of inv = Ai.PAID
            ∧ Ai.paidAt inv = Some "2025-01-02T00:00:00"
            ∧ Ai.transactionHash inv = Some "0xabc")
  ∧ Ai.TriggerPayment "INV-1"
      ∈ Ai.trace_of (Ai.handle (Ai.ProcessInvoice (Some "INV-1") Demo.monitors))
          (Ai.world_after
             (Ai.serve [Ai.ShippingConfirmation (Some "INV-1") Demo.pays;
                        Ai.CreatePayment Demo.payload_INV_1 ce])
             (Ai.boot None)).
Proof.
  apply (@signal_order_independent Tenths "INV-1" Demo.payload_INV_1
           (Demo.create_with Demo.wallet_50 Demo.created Ai.Written Ai.Written)
           Demo.monitors Demo.pays (Ai.boot None)
           "2025-01-02T00:00:00" "0xabc").
  - reflexivity.
  - discriminate.
  - vm_compute. reflexivity.
  - vm_compute. reflexivity.
  - vm_compute. reflexivity.
  - vm_compute. reflexivity.
  - vm_compute. reflexivity.
Defined.



Lemma insufficient_funds_rejected_witness :
  let e := Demo.create_with Demo.wallet_0_5 Demo.created Ai.Written Ai.Written in
  Ai.world_after (Ai.create_payment_logic Demo.payload_INV_1 e) (Ai.boot None)
  = Ai.boot None
  ∧ Ai.trace_of (Ai.create_payment_logic Demo.payload_INV_1 e) (Ai.boot None)
    = [Ai.GetBalance]
  ∧ ∀ a : Z, tenths_of_str "1" = Some a →
      Ai.answer_of (Ai.create_payment_logic Demo.payload_INV_1 e) (Ai.boot None)
      = Ai.Return
          (Ai.ErrorBody
             ("INSUFFICIENT_FUNDS. Wallet has only " +:+ tenths_str 5
              +:+ " USDC. Requires " +:+ tenths_str (a + 1)
              +:+ " USDC (for funding and gas).")) 402.
Proof.
  apply (@insufficient_funds_rejected Tenths Demo.payload_INV_1
           (Demo.create_with Demo.wallet_0_5 Demo.created Ai.Written Ai.Written)
           (Ai.boot None) "INV-1" (@Ai.FloatBalance Tenths 5)).
  - reflexivity.
  - discriminate.
  - vm_compute. reflexivity.
  - vm_compute. split; [reflexivity|]. exists 10. split; reflexivity.
Defined.

Lemma remote_insufficient_balance_answers_500_witness :
  Ai.answer_of
    (Ai.create_payment_logic Demo.payload_INV_1
       (Demo.create_with Demo.wallet_50 Demo.refused_for_balance
          Ai.Written Ai.Written)) (Ai.boot None)
  = Ai.Return
      (Ai.ErrorBody ("INSUFFICIENT_FUNDS. Re-check: Wallet has only "
                     +:+ tenths_str 500 +:+ " USDC.")) 500.
Proof.
  apply (@remote_insufficient_balance_answers_500 Tenths Demo.payload_INV_1
           (Demo.create_with Demo.wallet_50 Demo.refused_for_balance
              Ai.Written Ai.Written) (Ai.boot None) "INV-1").
  - reflexivity.
  - discriminate.
  - vm_compute. reflexivity.
  - vm_compute. reflexivity.
  - vm_compute. reflexivity.
Defined.

Lemma duplicate_creation_rejected_witness :
  let e := Demo.create_with Demo.wallet_50 Demo.created Ai.Written Ai.Written in
  let w := Demo.holding Ai.MONITORING in
  Ai.world_after (Ai.create_payment_logic Demo.payload_INV_1 e) w = w
  ∧ Ai.trace_of (Ai.create_payment_logic Demo.payload_INV_1 e) w = []
  ∧ ("INV-1" ≠ "" →
     Ai.answer_of (Ai.create_payment_logic Demo.payload_INV_1 e) w
     = Ai.Return (Ai.ErrorStatusBody "Invoice ID already exists." Ai.MONITORING)
         409).
Proof.
  apply (@duplicate_creation_rejected Tenths Demo.payload_INV_1
           (Demo.create_with Demo.wallet_50 Demo.created Ai.Written Ai.Written)
           (Demo.holding Ai.MONITORING) "INV-1"
           (Demo.invoice_INV_1 Ai.MONITORING)).
  - reflexivity.
  - vm_compute. reflexivity.
Defined.

Lemma signal_on_paid_idempotent_witness :
  Ai.answer_of
    (Ai.serve [Ai.ShippingConfirmation (Some "INV-1") Demo.pays;
               Ai.ShippingConfirmation (Some "INV-1") Demo.pays])
    (Demo.holding Ai.PAID)
  = [Ai.Return (Ai.StatusBody "Invoice was already paid.") 200;
     Ai.Return (Ai.StatusBody "Invoice was already paid.") 200]
  ∧ Ai.INVOICE_DB
      (Ai.world_after
         (Ai.serve [Ai.ShippingConfirmation (Some "INV-1") Demo.pays;
                    Ai.ShippingConfirmation (Some "INV-1") Demo.pays])
         (Demo.holding Ai.PAID)) !! "INV-1"
    = Some (Demo.invoice_INV_1 Ai.PAID).
Proof.
  assert ("INV-1" ≠ "") as Hid by discriminate.
  destruct (proj1 (@signal_on_paid_idempotent Tenths Unicode_14 "INV-1" Hid)
              (Demo.invoice_INV_1 Ai.PAID) (Demo.holding Ai.PAID)
              [Demo.pays; Demo.pays])
    as (Hanswer & _ & _ & Hrecord).
  - vm_compute. reflexivity.
  - reflexivity.
  - split; [exact Hanswer | exact Hrecord].
Defined.

(** C9 as first stated fails: a signal for an invoice that is EXECUTING is
    answered 202, not 200, and no payment call is involved. *)
Lemma signal_in_progress_answers_202 :
  Ai.answer_of (Ai.mock_shipping_confirmation (Some "INV-1") Demo.pays)
    (Demo.holding Ai.EXECUTING)
  = (Ai.StatusBody "Payment is already in progress.", 202)
  ∧ Ai.trace_of (Ai.mock_shipping_confirmation (Some "INV-1") Demo.pays)
      (Demo.holding Ai.EXECUTING) = []
  ∧ AiAgent.answer_of
      (AiAgent.mock_shipping_confirmation (Some "991") (Replied 200))
      (Demo.voice_holding AiAgent.EXECUTING)
    = ([("status", "Payment is already in progress.")], 202).
Proof. split_and!; vm_compute; reflexivity. Qed.

Lemma signal_answers_witness :
  Ai.answer_of (Ai.mock_shipping_confirmation (Some "INV-1") Demo.pays)
    (Demo.holding Ai.MONITORING)
  = (Ai.StatusBody "Condition met and payment triggered", 200)
  ∧ "INV-1" ∈ Ai.shipping_confirmation_registry
                (Ai.world_after
                   (Ai.mock_shipping_confirmation (Some "INV-1") Demo.pays)
                   (Demo.holding Ai.MONITORING)).
Proof.
  assert ("INV-1" ≠ "") as Hid by discriminate.
  apply (proj1 (@signal_answers "INV-1" Hid) Demo.pays
           (Demo.holding Ai.MONITORING)).
  intros _. vm_compute. eexists. reflexivity.
Defined.

Lemma signal_without_id_rejected_witness :
  (∀ e w, Ai.mock_shipping_confirmation (Some "") e w
          = ((Ai.ErrorBody "invoiceId is required", 400), w, []))
  ∧ (∀ backend w, AiAgent.mock_shipping_confirmation (Some "") backend w
                  = (([("error", "invoiceId is required")], 400), w, []))
  ∧ (∀ file rs,
       "" ∉ Ai.shipping_confirmation_registry
              (Ai.world_after (@Ai.serve Tenths rs) (Ai.boot file)))
  ∧ (∀ rs,
       "" ∉ AiAgent.shipping_confirmation_registry
              (AiAgent.world_after (AiAgent.serve rs) AiAgent.start)).
Proof.
  apply (@signal_without_id_rejected Tenths Unicode_14 (Some "")). right. reflexivity.
Defined.

(** The end-to-end run of the service: create INV-1 for 1 USDC, start
    monitoring, signal the condition. *)
Example end_to_end_statuses :
  (λ db, Ai.status_in db "INV-1")
    <$> Ai.observed
          (Ai.signal_last "INV-1" Demo.payload_INV_1
             (Demo.create_with Demo.wallet_50 Demo.created Ai.Written Ai.Written)
             Demo.monitors Demo.pays) (Ai.boot None)
  = [None; Some Ai.Pending; Some Ai.Pending; Some Ai.MONITORING;
     Some Ai.MONITORING; Some Ai.MONITORING; Some Ai.EXECUTING;
     Some Ai.EXECUTING; Some Ai.PAID; Some Ai.PAID; Some Ai.PAID;
     Some Ai.PAID; Some Ai.PAID].
Proof. vm_compute. reflexivity. Qed.

(** * The further properties on concrete requests *)

Lemma records_keep_their_terms_witness :
  ∃ inv',
    Ai.INVOICE_DB
      (Ai.world_after (Ai.serve Demo.monitor_then_signal)
         (Demo.holding Ai.Pending)) !! "INV-1" = Some inv'
    ∧ Ai.same_terms (Demo.invoice_INV_1 Ai.Pending) inv'.
Proof.
  apply (@records_keep_their_terms Tenths Demo.monitor_then_signal
           (Demo.holding Ai.Pending) "INV-1" (Demo.invoice_INV_1 Ai.Pending)).
  vm_compute. reflexivity.
Defined.

Lemma paid_invoice_is_never_paid_again_witness :
  Ai.INVOICE_DB
    (Ai.world_after (Ai.serve Demo.monitor_then_signal) (Demo.holding Ai.PAID))
    !! "INV-1" = Some (Demo.invoice_INV_1 Ai.PAID)
  ∧ Ai.TriggerPayment "INV-1"
      ∉ Ai.trace_of (Ai.serve Demo.monitor_then_signal) (Demo.holding Ai.PAID).
Proof.
  apply (@paid_invoice_is_never_paid_again Tenths Demo.monitor_then_signal
           (Demo.holding Ai.PAID) "INV-1" (Demo.invoice_INV_1 Ai.PAID)).
  - vm_compute. reflexivity.
  - reflexivity.
Defined.

Lemma payment_fields_only_when_paid_witness :
  let w' := Ai.world_after (Ai.serve Demo.monitor_then_refused)
              (Demo.holding Ai.Pending) in
  Ai.INVOICE_DB w' !! "INV-1" = Some (Demo.invoice_INV_1 Ai.MONITORING)
  ∧ Ai.blank_until_paid (Ai.INVOICE_DB w').
Proof.
  split; [vm_compute; reflexivity|].
  apply (@payment_fields_only_when_paid Tenths Demo.monitor_then_refused
           (Demo.holding Ai.Pending)).
  intros id inv H _.
  change (({[ "INV-1" := Demo.invoice_INV_1 Ai.Pending ]}
           : gmap string Ai.invoice) !! id = Some inv) in H.
  apply lookup_singleton_Some in H as [_ <-]. split; reflexivity.
Defined.

Lemma file_follows_store_witness :
  let w' := Ai.world_after (Ai.serve Demo.monitor_then_signal)
              (Demo.holding Ai.Pending) in
  Ai.mirrored w'
  ∧ Ai.INVOICE_DB (Ai.world_after Ai.load_database w') = Ai.INVOICE_DB w'.
Proof.
  apply (@file_follows_store Tenths Demo.monitor_then_signal
           (Demo.holding Ai.Pending)).
  - reflexivity.
  - reflexivity.
  - vm_compute. reflexivity.
Defined.

Lemma status_moves_forward_on_readable_replies_witness :
  let seen :=
    (λ db, Ai.status_in db "INV-1")
      <$> Ai.observed
            (Ai.signal_last "INV-1" Demo.payload_INV_1
               (Demo.create_with Demo.wallet_50 Demo.created
                  Ai.Written Ai.Written)
               Demo.monitors Demo.pays) (Ai.boot None) in
  Ai.chain Ai.oedge seen = true
  ∧ Ai.chain Ai.edge (omap id seen) = true
  ∧ Ai.paid_is_final (omap id seen) = true.
Proof.
  apply (@status_moves_forward_on_readable_replies Tenths).
  reflexivity.
Defined.

Lemma voice_creation_outruns_file_witness :
  let e := Demo.create_with Demo.wallet_50 Demo.created Ai.Written Ai.Written in
  let details :=
    Ai.payment_details (Ai.voice_payload "INV-VOICE-731") "1" (Ai.ce_now e) in
  let w' :=
    Ai.world_after (Ai.transcribe_audio (Some "command.wav") [500; 731] e)
      Demo.voice_500_taken in
  Ai.answer_of (Ai.transcribe_audio (Some "command.wav") [500; 731] e)
    Demo.voice_500_taken
  = Ai.Return (Ai.MessageBody "Payment created and pending condition"
                 (Ai.set_invoiceId (Some "INV-VOICE-731") details)) 201
  ∧ Ai.INVOICE_DB w' !! "INV-VOICE-731"
    = Some (Ai.set_invoiceId (Some "INV-VOICE-731") details)
  ∧ (∃ file, Ai.DB_FILE w' = Some file
             ∧ file !! "INV-VOICE-731" = Some details)
  ∧ ¬ Ai.mirrored w'
  ∧ Ai.INVOICE_DB (Ai.world_after Ai.load_database w') !! "INV-VOICE-731"
    = Some details.
Proof.
  apply (@voice_creation_outruns_file Tenths "command.wav" [500; 731]
           (Demo.create_with Demo.wallet_50 Demo.created Ai.Written Ai.Written)
           Demo.voice_500_taken "INV-VOICE-731").
  - discriminate.
  - vm_compute. reflexivity.
  - vm_compute. reflexivity.
  - reflexivity.
  - reflexivity.
Defined.

Lemma failed_payment_can_be_retried_witness :
  let w1 := Ai.world_after (Ai.trigger_payment (Some "INV-1") Demo.refuses)
              (Demo.holding Ai.MONITORING) in
  (Ai.answer_of (Ai.trigger_payment (Some "INV-1") Demo.refuses)
     (Demo.holding Ai.MONITORING)).2 = 500
  ∧ Ai.INVOICE_DB w1 = Ai.INVOICE_DB (Demo.holding Ai.MONITORING)
  ∧ Ai.answer_of (Ai.trigger_payment (Some "INV-1") Demo.pays) w1
    = (Ai.StatusBody "Condition met and payment triggered", 200)
  ∧ Ai.INVOICE_DB
      (Ai.world_after (Ai.trigger_payment (Some "INV-1") Demo.pays) w1)
      !! "INV-1"
    = Some (Ai.set_transactionHash (Some "0xabc")
              (Ai.set_paidAt (Some "2025-01-02T00:00:00")
                 (Ai.set_status Ai.PAID (Demo.invoice_INV_1 Ai.MONITORING)))).
Proof.
  apply (failed_payment_can_be_retried "INV-1"
           (Demo.invoice_INV_1 Ai.MONITORING) Demo.refuses Demo.pays
           (Demo.holding Ai.MONITORING)
           (Some "2025-01-02T00:00:00", Some "0xabc")).
  - discriminate.
  - vm_compute. reflexivity.
  - reflexivity.
  - vm_compute. reflexivity.
  - vm_compute. reflexivity.
Defined.

Lemma process_invoice_rejects_unknown_witness :
  Ai.process_invoice (Some "INV-2") Demo.monitors (Demo.holding Ai.Pending)
  = ((Ai.ErrorBody "Invoice not found. Run Step 1 first.", 404),
     Demo.holding Ai.Pending, []).
Proof.
  apply (process_invoice_rejects_unknown (Some "INV-2") Demo.monitors
           (Demo.holding Ai.Pending)).
  intros id H. vm_compute in H. injection H as <-. vm_compute. reflexivity.
Defined.

Lemma process_invoice_idempotent_witness :
  let w1 := Ai.world_after (Ai.process_invoice (Some "INV-1") Demo.monitors)
              (Demo.holding Ai.Pending) in
  Ai.answer_of (Ai.process_invoice (Some "INV-1") Demo.monitors)
    (Demo.holding Ai.Pending)
  = (Ai.StatusBody "Invoice is now being monitored.", 200)
  ∧ Ai.INVOICE_DB w1 !! "INV-1" = Some (Demo.invoice_INV_1 Ai.MONITORING)
  ∧ Ai.process_invoice (Some "INV-1") Demo.monitors w1
    = ((Ai.StatusBody "Invoice is now being monitored.", 200), w1, []).
Proof.
  apply (process_invoice_idempotent "INV-1"
           (Demo.invoice_INV_1 Ai.Pending) Demo.monitors Demo.monitors
           (Demo.holding Ai.Pending)).
  - discriminate.
  - vm_compute. reflexivity.
  - apply not_elem_of_empty.
Defined.

Lemma process_invoice_preconfirmed_settled_witness :
  Ai.process_invoice (Some "INV-1") Demo.monitors
    (Ai.confirmed "INV-1" (Demo.holding Ai.PAID))
  = ((Ai.StatusIdBody "Invoice was pre-confirmed and paid immediately." "INV-1",
      200),
     Ai.confirmed "INV-1" (Ai.confirmed "INV-1" (Demo.holding Ai.PAID)), []).
Proof.
  apply (process_invoice_preconfirmed_settled "INV-1"
           (Demo.invoice_INV_1 Ai.PAID) Demo.monitors
           (Ai.confirmed "INV-1" (Demo.holding Ai.PAID))).
  - discriminate.
  - vm_compute. reflexivity.
  - apply confirmed_elem.
  - left. reflexivity.
Defined.

Lemma creation_without_id_rejected_witness :
  Ai.create_payment_logic Demo.payload_without_id
    (Demo.create_with Demo.wallet_50 Demo.created Ai.Written Ai.Written)
    (Demo.holding Ai.Pending)
  = (Ai.Return (Ai.ErrorBody "invoiceId is required") 400,
     Demo.holding Ai.Pending, []).
Proof.
  apply (@creation_without_id_rejected Tenths Demo.payload_without_id).
  left. reflexivity.
Defined.

Lemma creation_then_duplicate_witness :
  let e := Demo.create_with Demo.wallet_50 Demo.created Ai.Written Ai.Written in
  let w1 := Ai.world_after (Ai.create_payment_logic Demo.payload_INV_1 e)
              (Ai.boot None) in
  Ai.answer_of (Ai.create_payment_logic Demo.payload_INV_1 e) (Ai.boot None)
  = Ai.Return
      (Ai.MessageBody "Payment created and pending condition"
         (Demo.invoice_INV_1 Ai.Pending)) 201
  ∧ Ai.INVOICE_DB w1
    = <["INV-1" := Demo.invoice_INV_1 Ai.Pending]> (Ai.INVOICE_DB (Ai.boot None))
  ∧ Ai.trace_of (Ai.create_payment_logic Demo.payload_INV_1 e) (Ai.boot None)
    = [Ai.GetBalance; Ai.SaveDatabase (Ai.INVOICE_DB w1) Ai.Written;
       Ai.CreateOnChain Demo.payload_INV_1]
  ∧ ∀ p' e', Ai.p_invoiceId p' = Some "INV-1" →
      Ai.create_payment_logic p' e' w1
      = (Ai.Return (Ai.ErrorStatusBody "Invoice ID already exists." Ai.Pending)
           409, w1, []).
Proof.
  apply (@creation_then_duplicate Tenths Demo.payload_INV_1
           (Demo.create_with Demo.wallet_50 Demo.created Ai.Written Ai.Written)
           (Ai.boot None) "INV-1").
  - reflexivity.
  - discriminate.
  - vm_compute. reflexivity.
  - vm_compute. reflexivity.
  - vm_compute. reflexivity.
Defined.

Lemma create_call_only_after_precheck_witness :
  let e := Demo.create_with Demo.wallet_50 Demo.created Ai.Written Ai.Written in
  Demo.payload_INV_1 = Demo.payload_INV_1
  ∧ (∃ id, truthy (Ai.p_invoiceId Demo.payload_INV_1) = Some id
           ∧ Ai.INVOICE_DB (Ai.boot None) !! id = None)
  ∧ (Ai.balance_verdict (default "1" (Ai.p_amount Demo.payload_INV_1))
       (Ai.ce_balance e)).1 = true
  ∧ Ai.trace_of (Ai.create_payment_logic Demo.payload_INV_1 e) (Ai.boot None)
      !! 0%nat = Some Ai.GetBalance.
Proof.
  apply (@create_call_only_after_precheck Tenths Demo.payload_INV_1
           Demo.payload_INV_1
           (Demo.create_with Demo.wallet_50 Demo.created Ai.Written Ai.Written)
           (Ai.boot None)).
  apply (list_elem_of_lookup_2 _ 2%nat). vm_compute. reflexivity.
Defined.

Lemma voice_invoice_id_is_fresh_witness :
  let e := Demo.create_with Demo.wallet_50 Demo.created Ai.Written Ai.Written in
  Ai.INVOICE_DB Demo.voice_500_taken !! "INV-VOICE-731" = None
  ∧ "INV-VOICE-731" ≠ ""
  ∧ (∃ n, n ∈ [500; 731] ∧ "INV-VOICE-731" = Ai.voice_id n)
  ∧ ∀ b code,
      Ai.answer_of (Ai.create_payment_logic (Ai.voice_payload "INV-VOICE-731") e)
        Demo.voice_500_taken = Ai.Return b code →
      code ≠ 400 ∧ code ≠ 409.
Proof.
  apply (@voice_invoice_id_is_fresh Tenths [500; 731]
           (Demo.create_with Demo.wallet_50 Demo.created Ai.Written Ai.Written)
           Demo.voice_500_taken "INV-VOICE-731").
  vm_compute. reflexivity.
Defined.

Lemma voice_invoice_id_exhausted_witness :
  Ai.voice_invoice_id [500; 999; 731] Demo.voice_ids_taken = None.
Proof.
  apply (voice_invoice_id_exhausted [500; 999; 731]
           Demo.voice_ids_taken).
  - intros n Hn. unfold Demo.voice_ids_taken.
    destruct (list_to_map _ !! Ai.voice_id n) as [inv|] eqn:H; [by eexists|].
    apply not_elem_of_list_to_map in H. exfalso. apply H.
    rewrite <- list_fmap_compose. apply list_elem_of_fmap.
    exists n. split; [reflexivity|]. apply elem_of_seqZ. lia.
  - repeat constructor; lia.
Defined.

Lemma extracted_id_is_digits_witness :
  "٩٩١" ≠ "" ∧ AiAgent.all_digits "٩٩١" = true
  ∧ (∃ response_text, Replied "Invoice ٩٩١." = Replied response_text
                      ∧ "٩٩١" = AiAgent.digits_only response_text)
  ∧ AiAgent.world_after
      (AiAgent.extract_invoice_id_from_text "pay invoice nine nine one"
         (Replied "Invoice ٩٩١.")) AiAgent.start
    = AiAgent.start.
Proof.
  apply (@extracted_id_is_digits Unicode_14 "pay invoice nine nine one"
           (Replied "Invoice ٩٩١.") AiAgent.start "٩٩١").
  vm_compute. reflexivity.
Defined.

Lemma voice_registry_stays_settled_witness :
  AiAgent.settled
    (AiAgent.world_after
       (AiAgent.serve
          (AiAgent.signal_then_voice "991" Demo.voice_991 (Replied 200)))
       AiAgent.start).
Proof.
  apply voice_registry_stays_settled.
  intros k st H.
  change ((∅ : gmap string AiAgent.state) !! k = Some st) in H.
  rewrite lookup_empty in H. discriminate.
Defined.

Lemma voice_signal_never_conflicts_witness :
  let code :=
    (AiAgent.answer_of
       (AiAgent.mock_shipping_confirmation (Some "991") (Replied 200))
       (Demo.voice_holding AiAgent.MONITORING)).2 in
  code = 200 ∨ code = 400 ∨ code = 500.
Proof.
  apply (voice_signal_never_conflicts (Some "991") (Replied 200)
           (Demo.voice_holding AiAgent.MONITORING)).
  intros k st H.
  change (({[ "991" := AiAgent.MONITORING ]} : gmap string AiAgent.state) !! k
          = Some st) in H.
  apply lookup_singleton_Some in H as [<- <-].
  split; [left; reflexivity|split; [discriminate|reflexivity]].
Defined.

Lemma voice_paid_is_final_witness :
  AiAgent.invoice_registry
    (AiAgent.world_after
       (AiAgent.serve
          (AiAgent.signal_then_voice "991" Demo.voice_991 (Replied 200)))
       (Demo.voice_holding AiAgent.PAID)) !! "991" = Some AiAgent.PAID
  ∧ AiAgent.TriggerPayment "991"
      ∉ AiAgent.trace_of
          (AiAgent.serve
             (AiAgent.signal_then_voice "991" Demo.voice_991 (Replied 200)))
          (Demo.voice_holding AiAgent.PAID).
Proof.
  apply (voice_paid_is_final
           (AiAgent.signal_then_voice "991" Demo.voice_991 (Replied 200))
           (Demo.voice_holding AiAgent.PAID) "991").
  - intros k st H.
    change (({[ "991" := AiAgent.PAID ]} : gmap string AiAgent.state) !! k
            = Some st) in H.
    apply lookup_singleton_Some in H as [<- <-].
    split; [right; reflexivity|split; [discriminate|reflexivity]].
  - vm_compute. reflexivity.
Defined.

Lemma voice_order_independent_witness :
  let paid :=
    {| AiAgent.invoice_registry :=
         <["991" := AiAgent.PAID]> (AiAgent.invoice_registry AiAgent.start);
       AiAgent.shipping_confirmation_registry :=
         {["991"]} ∪ AiAgent.shipping_confirmation_registry AiAgent.start |} in
  AiAgent.world_after
    (AiAgent.serve (AiAgent.signal_then_voice "991" Demo.voice_991 (Replied 200)))
    AiAgent.start = paid
  ∧ AiAgent.world_after
      (AiAgent.serve
         (AiAgent.voice_then_signal "991" Demo.voice_991 (Replied 200)))
      AiAgent.start = paid.
Proof.
  apply (voice_order_independent "991" Demo.voice_991 (Replied 200)
           AiAgent.start).
  - intros k st H.
    change ((∅ : gmap string AiAgent.state) !! k = Some st) in H.
    rewrite lookup_empty in H. discriminate.
  - split; [exists "command.wav"; split; [reflexivity|discriminate]|].
    split; [exists "pay invoice nine nine one"; split;
            [reflexivity|discriminate]|].
    exists "991". split; [reflexivity|]. split; [reflexivity|discriminate].
  - reflexivity.
  - apply not_elem_of_empty.
  - reflexivity.
  - reflexivity.
Defined.

Lemma rejected_voice_command_changes_nothing_witness :
  AiAgent.world_after (AiAgent.transcribe_audio Demo.voice_without_audio)
    AiAgent.start = AiAgent.start
  ∧ ∀ id, AiAgent.TriggerPayment id
          ∉ AiAgent.trace_of (AiAgent.transcribe_audio Demo.voice_without_audio)
              AiAgent.start.
Proof.
  apply (rejected_voice_command_changes_nothing Demo.voice_without_audio
           AiAgent.start).
  - intros k st H.
    change ((∅ : gmap string AiAgent.state) !! k = Some st) in H.
    rewrite lookup_empty in H. discriminate.
  - left. vm_compute. reflexivity.
Defined.

Lemma voice_creation_starts_monitoring_witness :
  ∃ text,
    AiAgent.transcribe_audio Demo.voice_991 AiAgent.start
    = (([("status", "Invoice created and is now being monitored.");
         ("invoiceId", "991"); ("transcribedText", text);
         ("invoiceState", "MONITORING")], 201),
       {| AiAgent.invoice_registry :=
            <["991" := AiAgent.MONITORING]>
              (AiAgent.invoice_registry AiAgent.start);
          AiAgent.shipping_confirmation_registry :=
            AiAgent.shipping_confirmation_registry AiAgent.start |},
       [AiAgent.SpeechToText; AiAgent.GenerateContent text]).
Proof.
  apply (voice_creation_starts_monitoring Demo.voice_991 AiAgent.start "991").
  - intros k st H.
    change ((∅ : gmap string AiAgent.state) !! k = Some st) in H.
    rewrite lookup_empty in H. discriminate.
  - split; [exists "command.wav"; split; [reflexivity|discriminate]|].
    split; [exists "pay invoice nine nine one"; split;
            [reflexivity|discriminate]|].
    exists "991". split; [reflexivity|]. split; [reflexivity|discriminate].
  - discriminate.
  - apply not_elem_of_empty.
Defined.

Lemma voice_failed_payment_can_be_retried_witness :
  let w1 :=
    AiAgent.world_after
      (AiAgent.mock_shipping_confirmation (Some "991") (Replied 500))
      (Demo.voice_holding AiAgent.MONITORING) in
  (AiAgent.answer_of
     (AiAgent.mock_shipping_confirmation (Some "991") (Replied 500))
     (Demo.voice_holding AiAgent.MONITORING)).2 = 500
  ∧ AiAgent.invoice_registry w1
    = AiAgent.invoice_registry (Demo.voice_holding AiAgent.MONITORING)
  ∧ AiAgent.trace_of
      (AiAgent.mock_shipping_confirmation (Some "991") (Replied 500))
      (Demo.voice_holding AiAgent.MONITORING)
    = [AiAgent.TriggerPayment "991"]
  ∧ AiAgent.invoice_registry
      (AiAgent.world_after
         (AiAgent.mock_shipping_confirmation (Some "991") (Replied 200)) w1)
      !! "991"
    = Some AiAgent.PAID.
Proof.
  apply (voice_failed_payment_can_be_retried "991" (Replied 500)
           (Demo.voice_holding AiAgent.MONITORING)).
  - discriminate.
  - vm_compute. reflexivity.
  - reflexivity.
Defined.
